(** * ir-access: prefix aggregation, ruleset rendering and apply sequence

    A shallow embedding of the Go program in Rocq.

    Source revisions embedded here (the repository keeps several historical
    revisions of the same files; the definitions follow the latest one):
    - the prefix pipeline: [src/unnamed/part_001], first document
      ([processPrefixTo24], [prefixCompare], [writePrefixesToFileV4],
      [writePrefixesToFileV6], [startFetchPrefixes]);
    - the setup pipeline: [src/setup_nftables.go], first document
      ([findSSHPort], [readPrefixes], [initializeNftablesConf],
      [applyNftables], [verifyNftables], [startSetupNftables]);
    - the renderer: [src/template.go] ([renderNftablesTemplate]).

    Go's [int] is the 64-bit signed integer of the released binaries
    (amd64, arm64).  [big.Int] values are unbounded integers ([Z]).

    The functions are embedded twice where they write to a file: first with
    every write succeeding, then, in the module [limited], over a file
    system that can refuse to let a file grow, where the writes can fail and
    the buffered writer of the prefix files is followed byte by byte.  The
    second embedding coincides with the first when no write fails. *)

From Stdlib Require Import ZArith Lia Ascii.
From stdpp Require Import base decidable countable numbers list strings
  pretty gmap sets sorting.

Local Open Scope Z_scope.

(** ** Outcomes: a Go call either returns or panics *)

Inductive outcome (A : Type) : Type :=
| Done (a : A)
| Panic (msg : string).
Arguments Done {A} a.
Arguments Panic {A} msg.

Global Instance outcome_ret : MRet outcome := fun A a => Done a.
Global Instance outcome_bind : MBind outcome := fun A B f m =>
  match m with
  | Done a => f a
  | Panic msg => Panic msg
  end.

(** Go's [error] interface value: [None] is [nil]. *)
Definition error : Type := option string.

(** ** Package [math/big]: the two byte conversions the program uses *)

Module big.

(** [Int.SetBytes]: the bytes are a big-endian unsigned integer. *)
Definition SetBytes (buf : list Z) : Z :=
  fold_left (fun acc b => acc * 256 + b) buf 0.

(** Big-endian bytes of [x], zero-extended to [n] bytes. *)
Fixpoint be_bytes (n : nat) (x : Z) : list Z :=
  match n with
  | O => []
  | S n' => Z.land (Z.shiftr x (8 * Z.of_nat n')) 255 :: be_bytes n' x
  end.

(** [Int.FillBytes]: fills a buffer of [n] bytes with the absolute value
    of [x]; it panics when the value does not fit. *)
Definition FillBytes (x : Z) (n : nat) : outcome (list Z) :=
  if Z.abs x <? 256 ^ Z.of_nat n then Done (be_bytes n (Z.abs x))
  else Panic "math/big: buffer too small to fit value".

End big.

(** ** Package [net/netip]: addresses and prefixes *)

Module netip.

(** An address is the zero [Addr], an IPv4 address (a 32-bit value) or an
    IPv6 address (a 128-bit value).  Prefixes never carry a zone. *)
Inductive Addr : Type :=
| AddrZero
| IPv4 (a : Z)
| IPv6 (a : Z).

Definition BitLen (ip : Addr) : Z :=
  match ip with
  | AddrZero => 0
  | IPv4 _ => 32
  | IPv6 _ => 128
  end.

Definition Is4 (ip : Addr) : bool :=
  match ip with IPv4 _ => true | _ => false end.

Definition Is6 (ip : Addr) : bool :=
  match ip with IPv6 _ => true | _ => false end.

(** The numeric value of the address. *)
Definition value (ip : Addr) : Z :=
  match ip with
  | AddrZero => 0
  | IPv4 a => a
  | IPv6 a => a
  end.

(** [Addr.AsSlice]: 4 or 16 bytes in network order, [nil] for the zero
    address. *)
Definition AsSlice (ip : Addr) : list Z :=
  match ip with
  | AddrZero => []
  | IPv4 a => big.be_bytes 4 a
  | IPv6 a => big.be_bytes 16 a
  end.

(** [AddrFromSlice]: a 4-byte slice is an IPv4 address, a 16-byte slice an
    IPv6 address, anything else fails. *)
Definition AddrFromSlice (buf : list Z) : option Addr :=
  match length buf with
  | 4%nat => Some (IPv4 (big.SetBytes buf))
  | 16%nat => Some (IPv6 (big.SetBytes buf))
  | _ => None
  end.

(** A prefix: [Prefix.Addr()] and [Prefix.Bits()]. *)
Record Prefix : Type := mkPrefix { Addr_of : Addr; Bits : Z }.

(** [PrefixFrom]: out-of-range lengths give the invalid length [-1]. *)
Definition PrefixFrom (ip : Addr) (bits : Z) : Prefix :=
  match ip with
  | AddrZero => mkPrefix ip (-1)
  | _ => if (0 <=? bits) && (bits <=? BitLen ip) then mkPrefix ip bits
         else mkPrefix ip (-1)
  end.

(** [cmp.Compare] on integers. *)
Definition cmp_Compare (x y : Z) : Z :=
  match x ?= y with
  | Lt => -1
  | Eq => 0
  | Gt => 1
  end.

(** [Addr.Compare]: by bit length, then by numeric value. *)
Definition Compare (ip ip2 : Addr) : Z :=
  let c := cmp_Compare (BitLen ip) (BitLen ip2) in
  if c =? 0 then cmp_Compare (value ip) (value ip2) else c.

(** [Prefix.Contains]: same family and the leading [Bits] bits agree. *)
Definition Contains (p : Prefix) (ip : Addr) : bool :=
  (0 <=? Bits p) && (Bits p <=? BitLen (Addr_of p)) &&
  negb (BitLen ip =? 0) && (BitLen (Addr_of p) =? BitLen ip) &&
  (Z.shiftr (Z.lxor (value ip) (value (Addr_of p)))
            (BitLen ip - Bits p) =? 0).

End netip.

Import netip.

Global Instance Addr_eq_dec : EqDecision Addr.
Proof. solve_decision. Defined.

Global Instance Prefix_eq_dec : EqDecision Prefix.
Proof. solve_decision. Defined.

Global Instance Addr_countable : Countable Addr.
Proof.
  refine (inj_countable'
    (fun ip => match ip with
               | AddrZero => inl ()
               | IPv4 a => inr (inl a)
               | IPv6 a => inr (inr a)
               end)
    (fun s => match s with
              | inl _ => AddrZero
              | inr (inl a) => IPv4 a
              | inr (inr a) => IPv6 a
              end) _).
  by intros [].
Defined.

Global Instance Prefix_countable : Countable Prefix.
Proof.
  refine (inj_countable' (fun p => (Addr_of p, Bits p))
                         (fun '(ip, b) => mkPrefix ip b) _).
  by intros [].
Defined.

(** ** [fetch_prefixes.go]: decomposition into /24 blocks *)

(** [x << s] on [int]: a negative count panics at run time, the result wraps
    to 64 bits. *)
Definition wrap_int (z : Z) : Z := (z + 2 ^ 63) mod 2 ^ 64 - 2 ^ 63.

Definition shl_int (x s : Z) : outcome Z :=
  if s <? 0 then Panic "runtime error: negative shift amount"
  else Done (wrap_int (Z.shiftl x s)).

Definition ipToInt (ip : Addr) : Z := big.SetBytes (AsSlice ip).

Definition intToIP (ipInt : Z) : outcome Addr :=
  ipBytes ← big.FillBytes ipInt 4;
  mret (default AddrZero (AddrFromSlice ipBytes)).

Definition incrementIPBy24 (ipInt : Z) : Z := ipInt + Z.shiftl 1 8.

(** The body of the [for i := 0; i < numBlocks; i++] loop, [n] iterations
    left, threading the mutated [ipInt]. *)
Fixpoint splitLoop (n : nat) (ipInt : Z) : outcome (list Prefix) :=
  match n with
  | O => mret []
  | S n' =>
      ip ← intToIP ipInt;
      rest ← splitLoop n' (incrementIPBy24 ipInt);
      mret (PrefixFrom ip 24 :: rest)
  end.

Definition processPrefixTo24 (prefix : Prefix) : outcome (list Prefix) :=
  let ip := Addr_of prefix in
  let prefixLen := Bits prefix in
  if prefixLen =? 24 then mret [prefix]
  else
    let ipInt := ipToInt ip in
    numBlocks ← shl_int 1 (24 - prefixLen);
    if numBlocks <? 0 then Panic "runtime error: makeslice: len out of range"
    else splitLoop (Z.to_nat numBlocks) ipInt.

Definition prefixCompare (a b : Prefix) : Z :=
  let c := cmp_Compare (BitLen (Addr_of a)) (BitLen (Addr_of b)) in
  if negb (c =? 0) then c
  else
    let c := cmp_Compare (Bits a) (Bits b) in
    if negb (c =? 0) then c
    else Compare (Addr_of a) (Addr_of b).

(** [slices.SortFunc] sorts by a comparison function: [a] may stand before
    [b] when [cmp a b <= 0]. *)
Definition cmp_le (a b : Prefix) : Prop := prefixCompare a b <= 0.

Global Instance cmp_le_dec a b : Decision (cmp_le a b).
Proof. unfold cmp_le. apply _. Defined.

Definition SortFunc (l : list Prefix) : list Prefix := merge_sort cmp_le l.

(** The [uniquePrefixes] map of [writePrefixesToFileV4]: every block of every
    decomposition is inserted as a key. *)
Fixpoint collectUnique (prefixes : list Prefix) (uniquePrefixes : gset Prefix)
  : outcome (gset Prefix) :=
  match prefixes with
  | [] => mret uniquePrefixes
  | prefix :: rest =>
      split ← processPrefixTo24 prefix;
      collectUnique rest (list_to_set split ∪ uniquePrefixes)
  end.

(** The sequence [sortedPrefixes] that [writePrefixesToFileV4] writes: the
    keys of the map, sorted with [prefixCompare]. *)
Definition normalizeV4 (prefixes : list Prefix) : outcome (list Prefix) :=
  uniquePrefixes ← collectUnique prefixes ∅;
  mret (SortFunc (elements uniquePrefixes)).

(** The sequence [sortedPrefixes] that [writePrefixesToFileV6] writes: a
    sorted copy of the input. *)
Definition normalizeV6 (prefixes : list Prefix) : list Prefix :=
  SortFunc prefixes.

Definition ip4 (a b c d : Z) : Addr := IPv4 (((a * 256 + b) * 256 + c) * 256 + d).


(** ** Text forms *)

(** [Addr.String] and [Prefix.String] of [net/netip]. *)
Module text.

Definition hex_digit (d : Z) : ascii :=
  ascii_of_N (Z.to_N (if d <? 10 then 48 + d else 87 + d)).

(** Lower-case hexadecimal of a 16-bit group, without leading zeros. *)
Definition appendHex (x : Z) : string :=
  let d3 := Z.land (Z.shiftr x 12) 15 in
  let d2 := Z.land (Z.shiftr x 8) 15 in
  let d1 := Z.land (Z.shiftr x 4) 15 in
  let d0 := Z.land x 15 in
  (if 4096 <=? x then String (hex_digit d3) "" else "") +:+
  (if 256 <=? x then String (hex_digit d2) "" else "") +:+
  (if 16 <=? x then String (hex_digit d1) "" else "") +:+
  String (hex_digit d0) "".

Definition string4 (a : Z) : string :=
  pretty (Z.land (Z.shiftr a 24) 255) +:+ "." +:+
  pretty (Z.land (Z.shiftr a 16) 255) +:+ "." +:+
  pretty (Z.land (Z.shiftr a 8) 255) +:+ "." +:+
  pretty (Z.land a 255).

(** The [i]-th 16-bit group of an IPv6 address, [0 <= i < 8]. *)
Definition v6u16 (a : Z) (i : Z) : Z :=
  Z.land (Z.shiftr a (16 * (7 - i))) 65535.

(** End of the run of zero groups that starts at [i] ([n] groups left). *)
Fixpoint zeroRunEnd (a : Z) (n : nat) (j : Z) : Z :=
  match n with
  | O => j
  | S n' => if (j <? 8) && (v6u16 a j =? 0) then zeroRunEnd a n' (j + 1)
            else j
  end.

(** The first longest run of at least two zero groups, as
    [(zeroStart, zeroEnd)]; [(255, 255)] when there is none. *)
Definition zeroRun (a : Z) : Z * Z :=
  fold_left
    (fun '(zeroStart, zeroEnd) i =>
       let j := zeroRunEnd a 8 i in
       let l := j - i in
       if (2 <=? l) && (zeroEnd - zeroStart <? l) then (i, j)
       else (zeroStart, zeroEnd))
    (seqZ 0 8) (255, 255).

(** The printing loop of [appendTo6], [n] groups left. *)
Fixpoint groups6 (a : Z) (zeroStart zeroEnd : Z) (n : nat) (i : Z) : string :=
  match n with
  | O => ""
  | S n' =>
      if 8 <=? i then ""
      else if i =? zeroStart then
        "::" +:+
        (if 8 <=? zeroEnd then ""
         else appendHex (v6u16 a zeroEnd) +:+
              groups6 a zeroStart zeroEnd n' (zeroEnd + 1))
      else
        (if 0 <? i then ":" else "") +:+ appendHex (v6u16 a i) +:+
        groups6 a zeroStart zeroEnd n' (i + 1)
  end.

Definition string6 (a : Z) : string :=
  let '(zeroStart, zeroEnd) := zeroRun a in
  groups6 a zeroStart zeroEnd 8 0.

Definition Is4In6 (a : Z) : bool := Z.shiftr a 32 =? 65535.

Definition AddrString (ip : Addr) : string :=
  match ip with
  | AddrZero => "invalid IP"
  | IPv4 a => string4 a
  | IPv6 a =>
      if Is4In6 a then "::ffff:" +:+ string4 (Z.land a 4294967295)
      else string6 a
  end.

Definition PrefixString (p : Prefix) : string :=
  if Bits p <? 0 then "invalid Prefix"
  else AddrString (Addr_of p) +:+ "/" +:+ pretty (Bits p).

End text.

Import text.

(** ** [bufio.Scanner] with the default line splitter *)

Definition MaxScanTokenSize : Z := 64 * 1024.

Definition ErrTooLong : string := "bufio.Scanner: token too long".

Definition newline : ascii := "010"%char.
Definition carriage_return : ascii := "013"%char.

(** [dropCR]: one trailing carriage return is removed. *)
Fixpoint dropCR (line : string) : string :=
  match line with
  | EmptyString => EmptyString
  | String c EmptyString => if Ascii.eqb c carriage_return then "" else line
  | String c rest => String c (dropCR rest)
  end.

(** The tokens [Scan] delivers and the value of [Err] afterwards.  [cur] is
    the unfinished line.  A line that does not fit the buffer, terminator
    included, ends the scan with [ErrTooLong]. *)
Fixpoint scanFrom (data : string) (cur : string) : list string * error :=
  match data with
  | EmptyString =>
      if String.eqb cur "" then ([], None)
      else if MaxScanTokenSize <=? Z.of_nat (String.length cur)
           then ([], Some ErrTooLong)
           else ([dropCR cur], None)
  | String c rest =>
      if Ascii.eqb c newline then
        if MaxScanTokenSize <=? Z.of_nat (String.length cur)
        then ([], Some ErrTooLong)
        else let '(tokens, err) := scanFrom rest "" in
             (dropCR cur :: tokens, err)
      else scanFrom rest (cur +:+ String c "")
  end.

Definition scanLines (data : string) : list string * error := scanFrom data "".

(** ** The pattern [^Port\s+(\d+)] and [strconv.ParseUint] *)

Definition is_space (c : ascii) : bool :=
  let n := N_of_ascii c in
  ((n =? 9) || (n =? 10) || (n =? 12) || (n =? 13) || (n =? 32))%N.

Definition is_digit (c : ascii) : bool :=
  let n := N_of_ascii c in ((48 <=? n) && (n <=? 57))%N.

Fixpoint take_while (f : ascii -> bool) (s : string) : string :=
  match s with
  | String c rest => if f c then String c (take_while f rest) else ""
  | EmptyString => ""
  end.

Fixpoint drop_while (f : ascii -> bool) (s : string) : string :=
  match s with
  | String c rest => if f c then drop_while f rest else s
  | EmptyString => ""
  end.

Fixpoint strip_prefix (pre s : string) : option string :=
  match pre, s with
  | EmptyString, _ => Some s
  | String a pre', String b s' =>
      if Ascii.eqb a b then strip_prefix pre' s' else None
  | String _ _, EmptyString => None
  end.

(** [re.FindStringSubmatch(line)] for the pattern above: [None] when the
    line does not match, otherwise the text of the capture group. *)
Definition FindStringSubmatch (line : string) : option string :=
  rest ← strip_prefix "Port" line;
  let blanks := take_while is_space rest in
  let digits := take_while is_digit (drop_while is_space rest) in
  if String.eqb blanks "" then None
  else if String.eqb digits "" then None
  else Some digits.

(** The value of a string of decimal digits. *)
Fixpoint decimal (acc : Z) (digits : string) : Z :=
  match digits with
  | EmptyString => acc
  | String c rest => decimal (acc * 10 + (Z.of_N (N_of_ascii c) - 48)) rest
  end.

Definition quote (s : string) : string :=
  String "034"%char s +:+ String "034"%char "".

(** [strconv.ParseUint(s, 10, 16)] on a non-empty string of digits: values
    above [65535] are a range error. *)
Definition ParseUint16 (s : string) : Z + string :=
  let m := decimal 0 s in
  if m <=? 65535 then inl m
  else inr ("strconv.ParseUint: parsing " +:+ quote s +:+ ": value out of range").

(** ** The world the program runs in *)

Inductive Level : Type := INFO | WARN | ERROR.

(** What the upstream answers to one GET: a transport error, or a status
    code with a body.  A body line is represented by what [json.Unmarshal]
    makes of it: a record, or [None] for a malformed line.  [read_err] is the
    value of [scanner.Err()] after the body has been read. *)
Record PrefixRecord : Type := mkRecord { CIDR : Prefix; ASN : Z }.

Inductive HttpReply : Type :=
| DoError (msg : string)
| Response (status : Z) (body : list (option PrefixRecord)) (read_err : error).

Record World : Type := mkWorld {
  (** the files, by path, with their content *)
  files : gmap string string;
  (** the log records written so far, oldest first (level and message) *)
  logs : list (Level * string);
  (** the external commands run so far, oldest first *)
  commands : list (list string);
  (** the answers of the upstream to the requests still to come *)
  replies : list HttpReply;
  (** [os.Open] fails on these paths with the given error *)
  open_error : string -> error;
  (** [os.Create] fails on these paths with the given error *)
  create_error : string -> error;
  (** how an external command ends, given the commands run before it *)
  command_error : list (list string) -> list string -> error;
}.

(** A Go computation: it reads and changes the world, and returns or
    panics. *)
Definition Go (A : Type) : Type := World -> outcome A * World.

Global Instance Go_ret : MRet Go := fun A a w => (Done a, w).
Global Instance Go_bind : MBind Go := fun A B f m w =>
  match m w with
  | (Done a, w') => f a w'
  | (Panic msg, w') => (Panic msg, w')
  end.

Definition lift {A} (o : outcome A) : Go A := fun w => (o, w).

Definition set_files (f : gmap string string -> gmap string string) (w : World)
  : World :=
  mkWorld (f (files w)) (logs w) (commands w) (replies w)
          (open_error w) (create_error w) (command_error w).

(** [l.Info], [l.Warn], [l.Error]: the message is recorded, the attributes
    are not. *)
Definition log (lvl : Level) (msg : string) : Go unit := fun w =>
  (Done (),
   mkWorld (files w) (logs w ++ [(lvl, msg)]) (commands w) (replies w)
           (open_error w) (create_error w) (command_error w)).

(** [os.Open] followed by reading the file: the content, or the error. *)
Definition os_Open (path : string) : Go (string + string) := fun w =>
  match open_error w path with
  | Some err => (Done (inr err), w)
  | None =>
      match files w !! path with
      | Some content => (Done (inl content), w)
      | None => (Done (inr ("open " +:+ path +:+ ": no such file or directory")), w)
      end
  end.

(** [os.Create]: the file is created or truncated. *)
Definition os_Create (path : string) : Go error := fun w =>
  match create_error w path with
  | Some err => (Done (Some err), w)
  | None => (Done None, set_files (insert path "") w)
  end.

(** [WriteString] on a file opened by [os.Create] (through its buffered
    writer, flushed when the function leaves); writing is taken to
    succeed.  The IPv4 writer over a file whose writes can fail, with the
    buffered writer followed step by step, is [limited.writePrefixesToFileV4]
    further down. *)
Definition WriteString (path : string) (s : string) : Go unit := fun w =>
  (Done (), set_files (alter (fun content => content +:+ s) path) w).

(** [runCommand]: the command is run and its error returned. *)
Definition runCommand (name : string) (args : list string) : Go error := fun w =>
  (Done (command_error w (commands w) (name :: args)),
   mkWorld (files w) (logs w) (commands w ++ [name :: args]) (replies w)
           (open_error w) (create_error w) (command_error w)).

(** [client.Do]: the next answer of the upstream. *)
Definition client_Do : Go HttpReply := fun w =>
  match replies w with
  | [] => (Done (DoError "connection refused"), w)
  | r :: rest =>
      (Done r,
       mkWorld (files w) (logs w) (commands w) rest
               (open_error w) (create_error w) (command_error w))
  end.

(** ** [fetch_prefixes.go] *)

Definition outputFileV4 : string := "ir_prefixes_v4.txt".
Definition outputFileV6 : string := "ir_prefixes_v6.txt".
Definition retries : nat := 3.

(** The loop over the body lines of [fetchPrefixes]. *)
Fixpoint decodeLines (body : list (option PrefixRecord)) : Go (list PrefixRecord) :=
  match body with
  | [] => mret []
  | None :: rest => log WARN "skipping invalid JSON line";; decodeLines rest
  | Some prefix :: rest => prefixes ← decodeLines rest; mret (prefix :: prefixes)
  end.

Definition fetchPrefixes : Go (list PrefixRecord * error) :=
  resp ← client_Do;
  match resp with
  | DoError err => mret ([], Some ("making request: " +:+ err))
  | Response status body read_err =>
      if negb (status =? 200) then
        mret ([], Some ("received non-200 status code: " +:+ pretty status))
      else
        prefixes ← decodeLines body;
        match read_err with
        | Some err => mret ([], Some ("reading response body: " +:+ err))
        | None => mret (prefixes, None)
        end
  end.

(** The retry loop, [n] attempts left; [err] is the error of the last
    attempt. *)
Fixpoint retryLoop (n : nat) (err : string) : Go (list PrefixRecord * error) :=
  match n with
  | O => mret ([], Some ("all fetch attempts failed: " +:+ err))
  | S n' =>
      r ← fetchPrefixes;
      match r with
      | (prefixes, None) => mret (prefixes, None)
      | (_, Some err') => log WARN "fetch failed";; retryLoop n' err'
      end
  end.

Definition fetchPrefixesWithRetry (retries : nat) : Go (list PrefixRecord * error) :=
  retryLoop retries "%!w(<nil>)".

Fixpoint filterLoop (asnSet : gset Z) (prefixes : list PrefixRecord)
  : list Prefix * list Prefix :=
  match prefixes with
  | [] => ([], [])
  | prefix :: rest =>
      let '(v4Prefixes, v6Prefixes) := filterLoop asnSet rest in
      if decide (ASN prefix ∈ asnSet) then
        if Is4 (Addr_of (CIDR prefix)) then (CIDR prefix :: v4Prefixes, v6Prefixes)
        else if Is6 (Addr_of (CIDR prefix)) then (v4Prefixes, CIDR prefix :: v6Prefixes)
        else (v4Prefixes, v6Prefixes)
      else (v4Prefixes, v6Prefixes)
  end.

Definition filterPrefixesByASN (prefixes : list PrefixRecord) (asns : list Z)
  : list Prefix * list Prefix :=
  filterLoop (list_to_set asns) prefixes.

(** The loop that writes one line per prefix. *)
Fixpoint writeLines (outputFile : string) (sortedPrefixes : list Prefix) : Go unit :=
  match sortedPrefixes with
  | [] => mret ()
  | prefix :: rest =>
      WriteString outputFile (PrefixString prefix +:+ String newline "");;
      writeLines outputFile rest
  end.

Definition writePrefixesToFileV4 (prefixes : list Prefix) (outputFile : string)
  : Go error :=
  if decide (length prefixes = 0%nat) then
    log INFO "no prefixes to write";; mret None
  else
    err ← os_Create outputFile;
    match err with
    | Some err => mret (Some ("creating output file: " +:+ err))
    | None =>
        sortedPrefixes ← lift (normalizeV4 prefixes);
        writeLines outputFile sortedPrefixes;;
        log INFO "wrote IPv4 /24 prefixes to file";;
        mret None
    end.

Definition writePrefixesToFileV6 (prefixes : list Prefix) (outputFile : string)
  : Go error :=
  if decide (length prefixes = 0%nat) then
    log INFO "no prefixes to write";; mret None
  else
    err ← os_Create outputFile;
    match err with
    | Some err => mret (Some ("creating output file: " +:+ err))
    | None =>
        let sortedPrefixes := normalizeV6 prefixes in
        writeLines outputFile sortedPrefixes;;
        log INFO "wrote IPv6 prefixes to file";;
        mret None
    end.

(** [startFetchPrefixes].  [asnsToFilter] is the list the function of that
    name returns; its definition is not among the sources, so it is an
    argument here.  The two writers run in goroutines of their own on
    different files; they are sequenced here, IPv4 first, and a panic of a
    writer is the outcome of the function (in Go it ends the program). *)
Definition startFetchPrefixes (asnsToFilter : list Z) : Go unit :=
  log INFO "starting processing for ASNs";;
  r ← fetchPrefixesWithRetry retries;
  match r with
  | (_, Some err) => log ERROR "fetching prefixes failed"
  | (prefixes, None) =>
      let '(v4Prefixes, v6Prefixes) := filterPrefixesByASN prefixes asnsToFilter in
      err ← writePrefixesToFileV4 v4Prefixes outputFileV4;
      (if err is Some _ then log ERROR "writing IPv4 prefixes" else mret ());;
      err ← writePrefixesToFileV6 v6Prefixes outputFileV6;
      (if err is Some _ then log ERROR "writing IPv6 prefixes" else mret ());;
      log INFO "processing complete"
  end.

(** ** [template.go] *)

Definition nl : string := String newline "".
Definition tab : string := String "009"%char "".

(** The body of [range $index, $item := ...]: every element on a line of its
    own, a comma after each but the last. *)
Fixpoint renderItems (items : list Prefix) : string :=
  match items with
  | [] => ""
  | item :: rest =>
      nl +:+ tab +:+ tab +:+ tab +:+ PrefixString item +:+
      (if decide (rest = []) then "" else ",") +:+ renderItems rest
  end.

(** One [set] block, present when the list is not empty. *)
Definition renderSet (name type : string) (items : list Prefix) : string :=
  if decide (length items = 0%nat) then ""
  else
    nl +:+ tab +:+ "set " +:+ name +:+ " {" +:+
    nl +:+ tab +:+ tab +:+ "type " +:+ type +:+ "; flags interval; auto-merge;" +:+
    nl +:+ tab +:+ tab +:+ "elements = {" +:+
    renderItems items +:+
    nl +:+ tab +:+ tab +:+ "}" +:+
    nl +:+ tab +:+ "}".

(** The text the template produces, with the white space its trim markers
    leave.  Executing the template cannot fail on these arguments, so the
    error is [nil]. *)
Definition renderNftablesTemplate (sshdPort : Z) (v4Prefixes v6Prefixes : list Prefix)
  : string * error :=
  ("#!/usr/sbin/nft -f" +:+ nl +:+
   nl +:+
   "flush ruleset" +:+ nl +:+
   nl +:+
   "table inet filter {" +:+
   renderSet "allowed_ipv4" "ipv4_addr" v4Prefixes +:+
   renderSet "allowed_ipv6" "ipv6_addr" v6Prefixes +:+
   nl +:+
   nl +:+ tab +:+ "chain input {" +:+
   nl +:+ tab +:+ tab +:+ "type filter hook input priority filter; policy drop;" +:+
   nl +:+ tab +:+ tab +:+ "ct state established,related accept" +:+
   nl +:+ tab +:+ tab +:+ "iif lo accept" +:+
   nl +:+ tab +:+ tab +:+ "tcp dport " +:+ pretty sshdPort +:+ " accept" +:+
   (if decide (length v4Prefixes = 0%nat) then ""
    else nl +:+ tab +:+ tab +:+ "ip saddr @allowed_ipv4 accept") +:+
   (if decide (length v6Prefixes = 0%nat) then ""
    else nl +:+ tab +:+ tab +:+ "ip6 saddr @allowed_ipv6 accept") +:+
   nl +:+ tab +:+ "}" +:+ nl +:+
   nl +:+ tab +:+ "chain forward {" +:+
   nl +:+ tab +:+ tab +:+ "type filter hook forward priority filter; policy drop;" +:+
   nl +:+ tab +:+ "}" +:+ nl +:+
   nl +:+ tab +:+ "chain output {" +:+
   nl +:+ tab +:+ tab +:+ "type filter hook output priority filter; policy accept;" +:+
   nl +:+ tab +:+ "}" +:+
   nl +:+ "}" +:+ nl,
   None).

(** ** [setup_nftables.go] *)

Definition ipv4File : string := "ir_prefixes_v4.txt".
Definition ipv6File : string := "ir_prefixes_v6.txt".
Definition nftablesConf : string := "/etc/nftables.conf".
Definition sshdConfigPath : string := "/etc/ssh/sshd_config".
Definition defaultSSHPort : Z := 22.

(** The scanning loop of [findSSHPort]: the port of the first line that
    matches and parses, if there is one. *)
Fixpoint scanPort (lines : list string) : Go (option Z) :=
  match lines with
  | [] => mret None
  | text :: rest =>
      match FindStringSubmatch text with
      | None => scanPort rest
      | Some digits =>
          match ParseUint16 digits with
          | inr _ => log WARN "fail to parse Port";; scanPort rest
          | inl m => mret (Some m)
          end
      end
  end.

Definition findSSHPort : Go (Z * error) :=
  log INFO "finding SSH port";;
  file ← os_Open sshdConfigPath;
  match file with
  | inr err =>
      mret (0, Some ("could not open sshd configuration at " +:+
                     sshdConfigPath +:+ ": " +:+ err))
  | inl content =>
      found ← scanPort (scanLines content).1;
      match found with
      | None => mret (0, Some "couldn't find port in sshd configuration")
      | Some port => mret (port, None)
      end
  end.

(** Two functions of the Go library that the embedding takes as given. *)
Class Library : Type := {
  (** [netip.ParsePrefix]: the prefix, or the text of the error *)
  ParsePrefix : string -> Prefix + string;
  (** [strings.TrimSpace] *)
  TrimSpace : string -> string;
}.

Section setup.
Context `{Library}.

(** The scanning loop of [readPrefixes]. *)
Fixpoint parseLines (lines : list string) : list Prefix * error :=
  match lines with
  | [] => ([], None)
  | text :: rest =>
      let line := TrimSpace text in
      if String.eqb line "" then parseLines rest
      else
        match ParsePrefix line with
        | inr err =>
            ([], Some ("failed parsing prefix: '" +:+ line +:+ "': " +:+ err))
        | inl prefix =>
            match parseLines rest with
            | (prefixes, None) => (prefix :: prefixes, None)
            | (_, Some err) => ([], Some err)
            end
        end
  end.

Definition readPrefixes (filePath : string) : Go (list Prefix * error) :=
  file ← os_Open filePath;
  match file with
  | inr _ => mret ([], Some ("error: file '" +:+ filePath +:+ "' not found"))
  | inl content => mret (parseLines (scanLines content).1)
  end.

Definition initializeNftablesConf (sshdPort : Z) : Go error :=
  log INFO "initializing nftables configuration";;
  r ← readPrefixes ipv4File;
  ipv4Prefixes ← match r with
                 | (_, Some _) => log ERROR "failed to read prefixes file";; mret []
                 | (prefixes, None) => mret prefixes
                 end;
  r ← readPrefixes ipv6File;
  ipv6Prefixes ← match r with
                 | (_, Some _) => log ERROR "failed to read prefixes file";; mret []
                 | (prefixes, None) => mret prefixes
                 end;
  if decide (length ipv4Prefixes = 0%nat ∧ length ipv6Prefixes = 0%nat) then
    mret (Some "prefix lists empty")
  else
    match renderNftablesTemplate sshdPort ipv4Prefixes ipv6Prefixes with
    | (_, Some err) => mret (Some err)
    | (config, None) =>
        err ← os_Create nftablesConf;
        match err with
        | Some err => mret (Some ("error creating nftables.conf: " +:+ err))
        | None => WriteString nftablesConf config;; mret None
        end
    end.

Definition applyNftables : Go error :=
  log INFO "applying nftables configuration";;
  err ← runCommand "nft" ["-f"; nftablesConf];
  match err with
  | Some err => mret (Some ("failed to apply nftables configuration: " +:+ err))
  | None =>
      err ← runCommand "systemctl" ["enable"; "--now"; "nftables"];
      match err with
      | Some err =>
          mret (Some ("failed to enable and start nftables services: " +:+ err))
      | None => mret None
      end
  end.

Definition verifyNftables : Go error :=
  log INFO "verifying nftables ruleset";;
  runCommand "nft" ["list"; "ruleset"].

Definition startSetupNftables : Go error :=
  r ← findSSHPort;
  sshdPort ← match r with
             | (_, Some _) =>
                 log WARN ("couldn't find port from sshd configuration file, using default "
                           +:+ pretty defaultSSHPort);;
                 mret defaultSSHPort
             | (port, None) => mret port
             end;
  err ← initializeNftablesConf sshdPort;
  match err with
  | Some err => mret (Some ("failed to initialize nftables configuration: " +:+ err))
  | None =>
      log INFO "nftables configuration initialized";;
      err ← applyNftables;
      match err with
      | Some err => mret (Some ("failed to apply nftables configuration: " +:+ err))
      | None =>
          log INFO "configuration applied and nftables service started";;
          err ← verifyNftables;
          match err with
          | Some err => mret (Some ("failed to verify nftables ruleset: " +:+ err))
          | None =>
              log INFO "nftables setup is complete. Your server is now Iran-Access-Only except for SSH port";;
              log INFO "configuration is saved";;
              mret None
          end
      end
  end.

End setup.

(** The two external commands of [applyNftables]. *)
Definition load_command : list string := ["nft"; "-f"; nftablesConf].
Definition enable_command : list string := ["systemctl"; "enable"; "--now"; "nftables"].

(** ** A library instance for running the model on examples

    [TrimSpace] here knows the ASCII white space and [ParsePrefix] the
    IPv4 literals whose fields have one to three digits; the Go functions
    accept more (Unicode white space, IPv6 literals). *)

Definition is_ascii_space (c : ascii) : bool :=
  let n := N_of_ascii c in
  ((n =? 9) || (n =? 10) || (n =? 11) || (n =? 12) || (n =? 13) || (n =? 32))%N.

Fixpoint trim_right (s : string) : string :=
  match s with
  | EmptyString => ""
  | String c rest =>
      let rest' := trim_right rest in
      if is_ascii_space c && String.eqb rest' "" then "" else String c rest'
  end.

Definition ascii_TrimSpace (s : string) : string :=
  trim_right (drop_while is_ascii_space s).

(** A decimal field: digits up to the separator [sep], no leading zero
    unless the field is [0], value at most [max]. *)
Definition field (max : Z) (s : string) : option (Z * string) :=
  let digits := take_while is_digit s in
  let rest := drop_while is_digit s in
  if String.eqb digits "" then None
  else if (1 <? String.length digits)%nat && String.prefix "0" digits then None
  else if (3 <? String.length digits)%nat then None
  else if max <? decimal 0 digits then None
  else Some (decimal 0 digits, rest).

Definition ipv4_ParsePrefix (s : string) : Prefix + string :=
  let bad := inr ("netip.ParsePrefix(" +:+ quote s +:+ "): not an IPv4 prefix") in
  match
    '(a, s) ← field 255 s; s ← strip_prefix "." s;
    '(b, s) ← field 255 s; s ← strip_prefix "." s;
    '(c, s) ← field 255 s; s ← strip_prefix "." s;
    '(d, s) ← field 255 s; s ← strip_prefix "/" s;
    '(bits, s) ← field 32 s;
    if String.eqb s "" then Some (mkPrefix (ip4 a b c d) bits) else None
  with
  | Some p => inl p
  | None => bad
  end.

Definition ascii_library : Library :=
  {| ParsePrefix := ipv4_ParsePrefix; TrimSpace := ascii_TrimSpace |}.

(** ** Notions used to state the properties *)

(** The order of the comparator, spelled out on the three keys. *)
Definition key_le (a b : Prefix) : Prop :=
  BitLen (Addr_of a) < BitLen (Addr_of b) \/
  (BitLen (Addr_of a) = BitLen (Addr_of b) /\
   (Bits a < Bits b \/
    (Bits a = Bits b /\ value (Addr_of a) <= value (Addr_of b)))).

Definition key_lt (a b : Prefix) : Prop :=
  BitLen (Addr_of a) < BitLen (Addr_of b) \/
  (BitLen (Addr_of a) = BitLen (Addr_of b) /\
   (Bits a < Bits b \/
    (Bits a = Bits b /\ value (Addr_of a) < value (Addr_of b)))).

(** Strictly ascending under the comparator. *)
Definition cmp_lt (a b : Prefix) : Prop := prefixCompare a b < 0.

Global Instance cmp_lt_dec a b : Decision (cmp_lt a b).
Proof. unfold cmp_lt. apply _. Defined.


(** Two outcomes agree: the same value, or a panic on both sides. *)
Definition agree {A} (o1 o2 : outcome A) : Prop :=
  match o1, o2 with
  | Done a1, Done a2 => a1 = a2
  | Panic _, Panic _ => True
  | _, _ => False
  end.

(** The [n] blocks of length 24 that start at [a] and advance by 256. *)
Definition blocks24 (a : Z) (n : nat) : list Prefix :=
  (fun i : nat => mkPrefix (IPv4 (a + 256 * Z.of_nat i)) 24) <$> seq 0 n.

(** The text of a prefix file that holds the given prefixes, one per line. *)
Fixpoint linesText (prefixes : list Prefix) : string :=
  match prefixes with
  | [] => ""
  | prefix :: rest => (PrefixString prefix +:+ String newline "") +:+ linesText rest
  end.


(** The port a line gives: it matches the pattern and its number fits 16
    bits. *)
Definition portOfLine (text : string) : option Z :=
  digits ← FindStringSubmatch text;
  match ParseUint16 digits with
  | inl m => Some m
  | inr _ => None
  end.

(** The port of the first line that gives one. *)
Definition firstPort (lines : list string) : option Z :=
  head (omap portOfLine lines).

(** What [os.Open] makes of the sshd configuration in a world. *)
Definition sshdConfig (w : World) : option string :=
  match open_error w sshdConfigPath with
  | Some _ => None
  | None => files w !! sshdConfigPath
  end.

(** The port the setup renders the ruleset with. *)
Definition discoveredPort (w : World) : Z :=
  match sshdConfig w with
  | None => defaultSSHPort
  | Some content => default defaultSSHPort (firstPort (scanLines content).1)
  end.

(** The set of prefixes the setup reads from a prefix file: empty when the
    file cannot be opened or a line of it does not parse. *)
Definition readSet `{Library} (filePath : string) (w : World) : list Prefix :=
  match open_error w filePath with
  | Some _ => []
  | None =>
      match files w !! filePath with
      | None => []
      | Some content =>
          match parseLines (scanLines content).1 with
          | (prefixes, None) => prefixes
          | (_, Some _) => []
          end
      end
  end.

(** The commands a run has added to those of the world it started in. *)
Definition commandsRun (w w' : World) : list (list string) :=
  drop (length (commands w)) (commands w').

(** A world with no files, no upstream, and nothing that fails. *)
Definition quiet : World :=
  mkWorld ∅ [] [] [] (fun _ => None) (fun _ => None) (fun _ _ => None).

(** An IPv4 block at most 24 bits long whose address is the network address
    of the block. *)
Definition network_block (p : Prefix) : Prop :=
  exists a b, p = mkPrefix (IPv4 a) b /\ 0 <= b <= 24 /\ 0 <= a < 2 ^ 32 /\
              a mod 2 ^ (32 - b) = 0.

(** Blocks used in examples. *)
Definition v4_doc_23 : Prefix := mkPrefix (ip4 198 51 100 0) 23.
Definition v4_doc_25 : Prefix := mkPrefix (ip4 192 0 2 128) 25.
Definition v6_doc_32 : Prefix := mkPrefix (IPv6 (Z.shiftl 536939960 96)) 32.
Definition v6_doc_48 : Prefix := mkPrefix (IPv6 (Z.shiftl 536939960 96 + Z.shiftl 1 80)) 48.

(** The port [startSetupNftables] takes from the result of [findSSHPort]. *)
Definition chosenPort (r : Z * error) : Z :=
  match r with
  | (_, Some _) => defaultSSHPort
  | (port, None) => port
  end.

(** The sshd configuration can be opened and one of its lines gives a
    port. *)
Definition portFound (w : World) : Prop :=
  exists content, sshdConfig w = Some content /\
                  is_Some (firstPort (scanLines content).1).

(** [w'] has the environment of [w]: the same failures of [os.Open],
    [os.Create] and of the external commands. *)
Definition env_same (w w' : World) : Prop :=
  open_error w' = open_error w /\ create_error w' = create_error w /\
  command_error w' = command_error w.

(** The log of [w'] is the log of [w] with more records at its end. *)
Definition logs_extend (w w' : World) : Prop :=
  exists extra, logs w' = logs w ++ extra.

(** [w'] is [w] but for more log records. *)
Definition only_logged (w w' : World) : Prop :=
  files w' = files w /\ commands w' = commands w /\ replies w' = replies w /\
  env_same w w' /\ logs_extend w w'.

(** The warning of the fallback to the default port. *)
Definition fallback_warning : Level * string :=
  (WARN, "couldn't find port from sshd configuration file, using default 22").


(** A line matches the pattern and its number does not fit 16 bits. *)
Definition outOfRange (text : string) : Prop :=
  is_Some (FindStringSubmatch text) /\ portOfLine text = None.

Global Instance outOfRange_dec text : Decision (outOfRange text) :=
  and_dec _ _.



(** A computation leaves the records of the log in place and may add to
    them. *)
Definition appends {A} (m : Go A) : Prop := forall w, logs_extend w (m w).2.


(** The records a reply delivers when the attempt succeeds: status 200 and a
    body read to its end; malformed lines are left out. *)
Definition replyRecords (r : HttpReply) : option (list PrefixRecord) :=
  match r with
  | Response status body None =>
      if status =? 200 then Some (omap id body) else None
  | _ => None
  end.

(** The records of the first successful attempt among [n] attempts. *)
Fixpoint fetched (n : nat) (answers : list HttpReply) : option (list PrefixRecord) :=
  match n, answers with
  | S n', r :: rest =>
      match replyRecords r with
      | Some records => Some records
      | None => fetched n' rest
      end
  | _, _ => None
  end.


(** A world with a port line in the sshd configuration and one IPv4 block
    in the prefix file. *)
Definition configured : World :=
  set_files (insert sshdConfigPath ("# sshd" +:+ nl +:+ "Port 2222" +:+ nl))
    (set_files (insert ipv4File ("198.51.100.0/24" +:+ nl)) quiet).

(** The world [configured] when the command that loads the ruleset fails. *)
Definition load_fails : World :=
  mkWorld (files configured) [] [] [] (fun _ => None) (fun _ => None)
    (fun _ command =>
       if decide (command = load_command) then Some "exit status 1" else None).

(** A world in which the upstream answers every request with status 500. *)
Definition upstream_down : World :=
  mkWorld (files configured) [] []
    [Response 500 [] None; Response 500 [] None; Response 500 [] None]
    (fun _ => None) (fun _ => None) (fun _ _ => None).

(** ** The callers: [fetch] and [setup] of [main.go]

    From [src/unnamed/part_004].  [runtime.GOOS] and [exec.LookPath] are
    arguments: the name of the platform, and for each command name the error
    of the lookup ([None] when the command is found). *)

Definition fetch (asnsToFilter : list Z) : Go unit :=
  log INFO "fetching IP prefixes";;
  startFetchPrefixes asnsToFilter.

Section main.
Context `{Library}.

Definition setup (GOOS : string) (LookPath : string -> error)
    (asnsToFilter : list Z) : Go error :=
  if negb (String.eqb GOOS "linux") then mret (Some "setup only works on linux")
  else
    match LookPath "nft" with
    | Some _ => mret (Some "nft command not found")
    | None =>
        match LookPath "systemctl" with
        | Some _ => mret (Some "systemctl command not found")
        | None =>
            log INFO "running fetch operation before setup...";;
            fetch asnsToFilter;;
            _ ← startSetupNftables;
            mret None
        end
    end.

End main.

(** ** An earlier revision: [deduplicatePrefixes]

    From [src/fetch_prefixes.go], second document.  [sort.Slice] orders the
    prefixes by length; the loop then keeps a prefix unless a prefix kept
    before contains its address. *)

Definition bits_le (a b : Prefix) : Prop := Bits a <= Bits b.

Global Instance bits_le_dec a b : Decision (bits_le a b).
Proof. unfold bits_le. apply _. Defined.

(** The inner loop: some prefix of [result] contains the address. *)
Fixpoint overlaps (result : list Prefix) (ip : Addr) : bool :=
  match result with
  | [] => false
  | existing :: rest => if Contains existing ip then true else overlaps rest ip
  end.

(** The outer loop, [result] being the prefixes kept so far. *)
Fixpoint dedupLoop (prefixes result : list Prefix) : list Prefix :=
  match prefixes with
  | [] => result
  | current :: rest =>
      if overlaps result (Addr_of current) then dedupLoop rest result
      else dedupLoop rest (result ++ [current])
  end.

(** [sort.Slice] is not stable; the merge sort here returns one of the
    arrangements it may produce. *)
Definition deduplicatePrefixes (prefixes : list Prefix) : list Prefix :=
  dedupLoop (merge_sort bits_le prefixes) [].

(** ** More notions used to state properties *)

(** The blocks a prefix is decomposed into, none when the decomposition
    panics. *)
Definition blocksOf (p : Prefix) : list Prefix :=
  match processPrefixTo24 p with
  | Done out => out
  | Panic _ => []
  end.

(** The command that lists the ruleset. *)
Definition list_command : list string := ["nft"; "list"; "ruleset"].

(** What [readPrefixes] makes of one line: nothing for a blank line, a
    prefix, or an error. *)
Definition lineValue `{Library} (text : string) : option (Prefix + string) :=
  if String.eqb (TrimSpace text) "" then None
  else Some (ParsePrefix (TrimSpace text)).

(** The prefix of a line that parses. *)
Definition linePrefix `{Library} (text : string) : option Prefix :=
  match lineValue text with
  | Some (inl prefix) => Some prefix
  | _ => None
  end.

(** The number of requests [fetchPrefixesWithRetry] makes that are answered:
    up to the first successful answer, at most [n]. *)
Fixpoint answersUsed (n : nat) (answers : list HttpReply) : nat :=
  match n, answers with
  | S n', r :: rest =>
      match replyRecords r with
      | Some _ => 1
      | None => S (answersUsed n' rest)
      end
  | _, _ => 0
  end.

(** All characters of a string satisfy [f]. *)
Fixpoint all_chars (f : ascii -> bool) (s : string) : bool :=
  match s with
  | EmptyString => true
  | String c rest => f c && all_chars f rest
  end.

(** A platform on which both commands are found. *)
Definition found : string -> error := fun _ => None.

(** A world with prefix files of an earlier run and an upstream that is
    down. *)
Definition stale : World :=
  mkWorld (files configured) [] []
    [DoError "timeout"; Response 503 [] None; Response 200 [] (Some "unexpected EOF")]
    (fun _ => None) (fun _ => None) (fun _ _ => None).

(** The number of malformed lines of a body. *)
Fixpoint malformed (body : list (option PrefixRecord)) : nat :=
  match body with
  | [] => 0
  | None :: rest => S (malformed rest)
  | Some _ :: rest => malformed rest
  end.

(** The warning for a malformed line. *)
Definition skip_warning : Level * string := (WARN, "skipping invalid JSON line").

(** The first character of a string satisfies [f]. *)
Definition head_is (f : ascii -> bool) (s : string) : bool :=
  match s with
  | String c _ => f c
  | EmptyString => false
  end.


(** ** The IPv4 writer when a write to its file can fail

    [writePrefixesToFileV4] above takes every write to succeed.  Here the
    file system can refuse to let a file grow: [write_limit path] is the
    size in bytes that the file at [path] cannot exceed, with the text of the
    error of a write that would exceed it; [None] for a file without such a
    limit.  The functions below stop writing at the first write that fails,
    so that a write that fails for any other reason, after some of its
    bytes, leaves the file as a limit at that place does.  The writer goes
    through a [bufio.Writer], which is followed here as Go's library has it,
    with its buffer of 4096 bytes. *)

(** [s[:n]] and [s[n:]], for [n] up to the length of [s]. *)
Fixpoint slice_to (n : nat) (s : string) : string :=
  match n, s with
  | S n', String c s' => String c (slice_to n' s')
  | _, _ => ""
  end.

Fixpoint slice_from (n : nat) (s : string) : string :=
  match n, s with
  | S n', String _ s' => slice_from n' s'
  | _, _ => s
  end.

Module limited.

(** A [bufio.Writer] on the file at [wr]: [buf] holds the bytes buffered and
    not yet written, [size] is the length of the buffer, [err] the error of
    the write that failed. *)
Record Writer : Type := mkWriter {
  wr : string;
  size : nat;
  buf : string;
  err : error;
}.

Definition defaultBufSize : nat := 4096.

Definition NewWriter (path : string) : Writer :=
  mkWriter path defaultBufSize "" None.

Definition Available (b : Writer) : nat := size b - String.length (buf b).
Definition Buffered (b : Writer) : nat := String.length (buf b).

Section writes.
Variable write_limit : string -> option (nat * string).

(** [Write] and [WriteString] of the file: the bytes that fit are appended;
    the result is their number, and the error when not all of them fit. *)
Definition file_Write (path : string) (p : string) : Go (nat * error) := fun w =>
  let content := default "" (files w !! path) in
  match write_limit path with
  | None => (Done (String.length p, None), set_files (alter (fun c => c +:+ p) path) w)
  | Some (limit, msg) =>
      if decide (String.length content + String.length p <= limit)%nat then
        (Done (String.length p, None), set_files (alter (fun c => c +:+ p) path) w)
      else
        let n := (limit - String.length content)%nat in
        (Done (n, Some msg), set_files (alter (fun c => c +:+ slice_to n p) path) w)
  end.

(** [Flush]: the buffer is written to the file; what the file did not take
    stays in the buffer, and the error stays with the writer. *)
Definition Flush (b : Writer) : Go (Writer * error) :=
  match err b with
  | Some e => mret (b, Some e)
  | None =>
      if decide (Buffered b = 0%nat) then mret (b, None)
      else
        r ← file_Write (wr b) (buf b);
        let e := match r.2 with
                 | None => if decide (r.1 < Buffered b)%nat then Some "short write"
                           else None
                 | Some e => Some e
                 end in
        match e with
        | Some e => mret (mkWriter (wr b) (size b) (slice_from r.1 (buf b)) (Some e), Some e)
        | None => mret (mkWriter (wr b) (size b) "" None, None)
        end
  end.

(** The loop of [WriteString], run while [s] does not fit the free part of
    the buffer and no write has failed: with an empty buffer [s] goes to the
    file directly (the file has a [WriteString] of its own), otherwise the
    buffer is filled up and flushed.  The result is the writer and the part
    of [s] still to be buffered. *)
Fixpoint writeLoop (fuel : nat) (b : Writer) (s : string) : Go (Writer * string) :=
  if decide ((Available b < String.length s)%nat /\ err b = None) then
    match fuel with
    | O => lift (Panic "bufio: loop")
    | S fuel' =>
        if decide (Buffered b = 0%nat) then
          r ← file_Write (wr b) s;
          writeLoop fuel' (mkWriter (wr b) (size b) (buf b) r.2) (slice_from r.1 s)
        else
          let n := Nat.min (Available b) (String.length s) in
          r ← Flush (mkWriter (wr b) (size b) (buf b +:+ slice_to n s) (err b));
          writeLoop fuel' r.1 (slice_from n s)
    end
  else mret (b, s).

(** [WriteString] of the buffered writer.  The loop takes at most two
    rounds, as [WriteString_returns] shows: after a round the buffer is
    empty or the writer has failed, and a text that goes to the file
    directly is written in one piece or fails. *)
Definition WriteString (b : Writer) (s : string) : Go (Writer * error) :=
  r ← writeLoop 2 b s;
  let '(b, s) := r in
  match err b with
  | Some e => mret (b, Some e)
  | None =>
      let n := Nat.min (Available b) (String.length s) in
      mret (mkWriter (wr b) (size b) (buf b +:+ slice_to n s) None, None)
  end.

(** The loop that writes one line per prefix, left at the first error. *)
Fixpoint writeLines (writer : Writer) (sortedPrefixes : list Prefix)
  : Go (Writer * error) :=
  match sortedPrefixes with
  | [] => mret (writer, None)
  | prefix :: rest =>
      r ← WriteString writer (PrefixString prefix +:+ String newline "");
      match r with
      | (writer, Some err) => mret (writer, Some ("writing to file: " +:+ err))
      | (writer, None) => writeLines writer rest
      end
  end.

(** [writePrefixesToFileV4].  The deferred [Flush] runs when the function
    leaves, by either return, and its error is dropped; when a decomposition
    panics nothing has been buffered, and the deferred [Flush] writes
    nothing. *)
Definition writePrefixesToFileV4 (prefixes : list Prefix) (outputFile : string)
  : Go error :=
  if decide (length prefixes = 0%nat) then
    log INFO "no prefixes to write";; mret None
  else
    err ← os_Create outputFile;
    match err with
    | Some err => mret (Some ("creating output file: " +:+ err))
    | None =>
        let writer := NewWriter outputFile in
        sortedPrefixes ← lift (normalizeV4 prefixes);
        r ← writeLines writer sortedPrefixes;
        match r with
        | (writer, Some err) => Flush writer;; mret (Some err)
        | (writer, None) =>
            log INFO "wrote IPv4 /24 prefixes to file";;
            Flush writer;; mret None
        end
    end.

(** [writePrefixesToFileV6], with its deferred [Flush] as above. *)
Definition writePrefixesToFileV6 (prefixes : list Prefix) (outputFile : string)
  : Go error :=
  if decide (length prefixes = 0%nat) then
    log INFO "no prefixes to write";; mret None
  else
    err ← os_Create outputFile;
    match err with
    | Some err => mret (Some ("creating output file: " +:+ err))
    | None =>
        let writer := NewWriter outputFile in
        let sortedPrefixes := normalizeV6 prefixes in
        r ← writeLines writer sortedPrefixes;
        match r with
        | (writer, Some err) => Flush writer;; mret (Some err)
        | (writer, None) =>
            log INFO "wrote IPv6 prefixes to file";;
            Flush writer;; mret None
        end
    end.

End writes.

Section ruleset.
Variable write_limit : string -> option (nat * string).
Context `{Library}.

(** [initializeNftablesConf], whose [WriteString] goes to the file without a
    buffer. *)
Definition initializeNftablesConf (sshdPort : Z) : Go error :=
  log INFO "initializing nftables configuration";;
  r ← readPrefixes ipv4File;
  ipv4Prefixes ← match r with
                 | (_, Some _) => log ERROR "failed to read prefixes file";; mret []
                 | (prefixes, None) => mret prefixes
                 end;
  r ← readPrefixes ipv6File;
  ipv6Prefixes ← match r with
                 | (_, Some _) => log ERROR "failed to read prefixes file";; mret []
                 | (prefixes, None) => mret prefixes
                 end;
  if decide (length ipv4Prefixes = 0%nat ∧ length ipv6Prefixes = 0%nat) then
    mret (Some "prefix lists empty")
  else
    match renderNftablesTemplate sshdPort ipv4Prefixes ipv6Prefixes with
    | (_, Some err) => mret (Some err)
    | (config, None) =>
        err ← os_Create nftablesConf;
        match err with
        | Some err => mret (Some ("error creating nftables.conf: " +:+ err))
        | None =>
            r ← file_Write write_limit nftablesConf config;
            match r.2 with
            | Some err => mret (Some ("failed writing nftables.conf: " +:+ err))
            | None => mret None
            end
        end
    end.

Definition startSetupNftables : Go error :=
  r ← findSSHPort;
  sshdPort ← match r with
             | (_, Some _) =>
                 log WARN ("couldn't find port from sshd configuration file, using default "
                           +:+ pretty defaultSSHPort);;
                 mret defaultSSHPort
             | (port, None) => mret port
             end;
  err ← initializeNftablesConf sshdPort;
  match err with
  | Some err => mret (Some ("failed to initialize nftables configuration: " +:+ err))
  | None =>
      log INFO "nftables configuration initialized";;
      err ← applyNftables;
      match err with
      | Some err => mret (Some ("failed to apply nftables configuration: " +:+ err))
      | None =>
          log INFO "configuration applied and nftables service started";;
          err ← verifyNftables;
          match err with
          | Some err => mret (Some ("failed to verify nftables ruleset: " +:+ err))
          | None =>
              log INFO "nftables setup is complete. Your server is now Iran-Access-Only except for SSH port";;
              log INFO "configuration is saved";;
              mret None
          end
      end
  end.

End ruleset.

End limited.

(** What a file with the limit keeps of a text written to it from its
    start. *)
Definition kept (limit : option (nat * string)) (text : string) : string :=
  match limit with
  | None => text
  | Some (n, _) => slice_to n text
  end.

(** A file system on which no file grows beyond [n] bytes. *)
Definition limit_at (n : nat) : string -> option (nat * string) :=
  fun _ => Some (n, "file too large").

(** A block whose 256 lines fill more than one buffer of the writer. *)
Definition v4_wide : Prefix := mkPrefix (ip4 192 168 0 0) 16.

(** The state of a buffered writer [b] whose file holds [c], after the text
    [T] has been given to it and no write has failed: the file holds a
    number of whole buffers, within its limit, and the rest of [T] waits in
    the buffer. *)
Definition buffering (limit : option (nat * string)) (b : limited.Writer)
    (c T : string) : Prop :=
  limited.err b = None /\ c +:+ limited.buf b = T /\
  (String.length (limited.buf b) <= limited.size b)%nat /\
  (exists k, String.length c = (limited.size b * k)%nat) /\
  (T <> "" -> limited.buf b <> "") /\
  (forall n msg, limit = Some (n, msg) -> (String.length c <= n)%nat).

(** The state after a write of a full buffer did not fit the limit [n]: the
    file holds the first [n] bytes of [T], and the writer keeps the error. *)
Definition failed (limit : option (nat * string)) (b : limited.Writer)
    (c T : string) (n : nat) (msg : string) : Prop :=
  limit = Some (n, msg) /\ limited.err b = Some msg /\ c = slice_to n T /\
  (n < limited.size b * ((String.length T - 1) / limited.size b))%nat.

(** * Theorems *)

#[local] Set Warnings "-clear-no-such-hyp".
(** ** Facts about the byte conversions *)

Lemma be_bytes_length n x : length (big.be_bytes n x) = n.
Proof. induction n as [|n IH]; simpl; [done | by rewrite IH]. Qed.

Lemma byte_of_shift x k :
  0 <= k -> Z.land (Z.shiftr x k) 255 = (x / 2 ^ k) mod 256.
Proof.
  intros Hk. change 255 with (Z.ones 8).
  rewrite Z.land_ones by lia. rewrite Z.shiftr_div_pow2 by lia. done.
Qed.

Lemma fold_be_bytes n x acc :
  fold_left (fun acc b => acc * 256 + b) (big.be_bytes n x) acc
  = acc * 256 ^ Z.of_nat n + x mod 256 ^ Z.of_nat n.
Proof.
  revert acc. induction n as [|n IH]; intros acc.
  - simpl. rewrite Z.mod_1_r. lia.
  - cbn [big.be_bytes fold_left]. rewrite IH.
    rewrite byte_of_shift by lia.
    replace (2 ^ (8 * Z.of_nat n)) with (256 ^ Z.of_nat n)
      by (change 256 with (2 ^ 8); rewrite <- Z.pow_mul_r by lia; done).
    rewrite Nat2Z.inj_succ, Z.pow_succ_r by lia.
    assert (Hpos : 0 < 256 ^ Z.of_nat n) by (apply Z.pow_pos_nonneg; lia).
    rewrite (Z.mul_comm 256 (256 ^ Z.of_nat n)).
    rewrite (Z.rem_mul_r x (256 ^ Z.of_nat n) 256) by lia.
    lia.
Qed.

Lemma SetBytes_be_bytes n x :
  0 <= x < 256 ^ Z.of_nat n -> big.SetBytes (big.be_bytes n x) = x.
Proof.
  intros Hx. unfold big.SetBytes. rewrite fold_be_bytes.
  rewrite Z.mod_small by lia. lia.
Qed.

Lemma ipToInt_IPv4 a : 0 <= a < 2 ^ 32 -> ipToInt (IPv4 a) = a.
Proof.
  intros Ha. unfold ipToInt. change (AsSlice (IPv4 a)) with (big.be_bytes 4 a).
  by apply SetBytes_be_bytes.
Qed.

Lemma intToIP_IPv4 x : 0 <= x < 2 ^ 32 -> intToIP x = Done (IPv4 x).
Proof.
  intros Hx. unfold intToIP, big.FillBytes.
  rewrite Z.abs_eq by lia.
  change (256 ^ Z.of_nat 4) with (2 ^ 32).
  destruct (Z.ltb_spec x (2 ^ 32)) as [_|]; [|lia].
  cbn [mbind outcome_bind mret outcome_ret].
  unfold AddrFromSlice. rewrite be_bytes_length.
  rewrite SetBytes_be_bytes by (change (256 ^ Z.of_nat 4) with (2 ^ 32); lia).
  done.
Qed.

Lemma intToIP_overflow x :
  2 ^ 32 <= x -> intToIP x = Panic "math/big: buffer too small to fit value".
Proof.
  intros Hx. unfold intToIP, big.FillBytes.
  rewrite Z.abs_eq by lia.
  change (256 ^ Z.of_nat 4) with (2 ^ 32).
  destruct (Z.ltb_spec x (2 ^ 32)); [lia | done].
Qed.

(** ** The comparator is a total order on prefixes *)

Ltac cmp_cases :=
  unfold prefixCompare, Compare, cmp_Compare;
  repeat match goal with
         | |- context [?x ?= ?y] => destruct (Z.compare_spec x y); simpl
         end.

Lemma prefixCompare_le a b : prefixCompare a b <= 0 <-> key_le a b.
Proof. unfold key_le. cmp_cases; lia. Qed.

Lemma prefixCompare_lt a b : prefixCompare a b < 0 <-> key_lt a b.
Proof. unfold key_lt. cmp_cases; lia. Qed.

Lemma Addr_key_inj ip ip2 :
  BitLen ip = BitLen ip2 -> value ip = value ip2 -> ip = ip2.
Proof. destruct ip, ip2; simpl; intros H1 H2; try discriminate; congruence. Qed.

Lemma prefixCompare_eq a b : prefixCompare a b = 0 <-> a = b.
Proof.
  split.
  - intros H. destruct a as [ipa ba], b as [ipb bb].
    assert (BitLen ipa = BitLen ipb /\ ba = bb /\ value ipa = value ipb)
      as (H1 & H2 & H3) by (revert H; unfold prefixCompare; cbn [Bits Addr_of]; cmp_cases; lia).
    f_equal; [by apply Addr_key_inj | done].
  - intros ->. cmp_cases; lia.
Qed.

Global Instance cmp_le_total : Total cmp_le.
Proof.
  intros a b. unfold cmp_le. rewrite !prefixCompare_le. unfold key_le. lia.
Qed.

Global Instance cmp_le_trans : Transitive cmp_le.
Proof.
  intros a b c. unfold cmp_le. rewrite !prefixCompare_le. unfold key_le. lia.
Qed.

Global Instance cmp_le_antisymm : AntiSymm (=) cmp_le.
Proof.
  intros [ipa ba] [ipb bb] Hab Hba. unfold cmp_le in *.
  apply prefixCompare_le in Hab. apply prefixCompare_le in Hba.
  unfold key_le in *. cbn [Bits Addr_of] in *.
  assert (BitLen ipa = BitLen ipb /\ ba = bb /\ value ipa = value ipb)
    as (H1 & H2 & H3) by lia.
  f_equal; [by apply Addr_key_inj | done].
Qed.

Lemma cmp_lt_le a b : cmp_lt a b -> cmp_le a b.
Proof. unfold cmp_lt, cmp_le. lia. Qed.

Lemma cmp_le_neq_lt a b : cmp_le a b -> a ≠ b -> cmp_lt a b.
Proof.
  unfold cmp_lt, cmp_le. intros Hle Hne.
  assert (prefixCompare a b ≠ 0) by (by rewrite prefixCompare_eq). lia.
Qed.

Lemma cmp_lt_irrefl a : ~ cmp_lt a a.
Proof.
  unfold cmp_lt. assert (prefixCompare a a = 0) by (by apply prefixCompare_eq).
  lia.
Qed.

(** ** Sorting with [prefixCompare] *)

Lemma SortFunc_Sorted l : Sorted cmp_le (SortFunc l).
Proof. apply (Sorted_merge_sort cmp_le). Qed.

Lemma SortFunc_Permutation l : SortFunc l ≡ₚ l.
Proof. apply (merge_sort_Permutation cmp_le). Qed.

(** Any sorted arrangement of the same elements is the one [SortFunc]
    returns: the result does not depend on the sorting algorithm. *)
Lemma SortFunc_unique l l' : Sorted cmp_le l' -> l' ≡ₚ l -> SortFunc l = l'.
Proof.
  intros Hs Hp. apply (Sorted_unique cmp_le); [apply SortFunc_Sorted | done |].
  by rewrite SortFunc_Permutation.
Qed.


Lemma SortFunc_sorted_id l : Sorted cmp_le l -> SortFunc l = l.
Proof. intros Hs. by apply SortFunc_unique. Qed.

Lemma Sorted_lt_le l : Sorted cmp_lt l -> Sorted cmp_le l.
Proof.
  induction 1 as [|x l Hs IH Hhd]; constructor; [done |].
  destruct Hhd; constructor. by apply cmp_lt_le.
Qed.

Global Instance cmp_lt_trans : Transitive cmp_lt.
Proof.
  intros a b c. unfold cmp_lt. rewrite !prefixCompare_lt. unfold key_lt. lia.
Qed.

Lemma StronglySorted_lt_NoDup l : StronglySorted cmp_lt l -> NoDup l.
Proof.
  induction 1 as [|x l Hs IH Hall]; constructor; [|done].
  intros Hin. rewrite Forall_forall in Hall.
  by apply (cmp_lt_irrefl x), Hall.
Qed.

Lemma Sorted_lt_NoDup l : Sorted cmp_lt l -> NoDup l.
Proof.
  intros Hs. apply StronglySorted_lt_NoDup.
  apply (Sorted_StronglySorted cmp_lt). exact Hs.
Qed.

Lemma StronglySorted_le_NoDup_lt l :
  StronglySorted cmp_le l -> NoDup l -> StronglySorted cmp_lt l.
Proof.
  induction 1 as [|x l Hs IH Hall]; intros Hnd; [constructor |].
  apply NoDup_cons in Hnd as [Hx Hnd]. constructor; [by apply IH |].
  rewrite Forall_forall in Hall. apply Forall_forall. intros y Hy.
  apply cmp_le_neq_lt; [by apply Hall |]. by intros ->.
Qed.

Lemma Sorted_le_NoDup_lt l : Sorted cmp_le l -> NoDup l -> Sorted cmp_lt l.
Proof.
  intros Hs Hnd. apply StronglySorted_Sorted.
  apply StronglySorted_le_NoDup_lt; [|done].
  apply (Sorted_StronglySorted cmp_le). exact Hs.
Qed.

(** ** The decomposition loop *)

Lemma blocks24_S a n :
  blocks24 a (S n) = mkPrefix (IPv4 a) 24 :: blocks24 (a + 256) n.
Proof.
  unfold blocks24. cbn [seq fmap list_fmap]. f_equal.
  - do 2 f_equal. lia.
  - rewrite <- fmap_S_seq, <- list_fmap_compose.
    apply list_fmap_ext. intros _ i _. simpl. do 2 f_equal. lia.
Qed.

Lemma elem_of_blocks24 a n q :
  q ∈ blocks24 a n <->
  exists i, 0 <= i < Z.of_nat n /\ q = mkPrefix (IPv4 (a + 256 * i)) 24.
Proof.
  unfold blocks24. rewrite list_elem_of_fmap. split.
  - intros (i & -> & Hi). apply elem_of_seq in Hi. exists (Z.of_nat i).
    split; [lia | done].
  - intros (i & Hi & ->). exists (Z.to_nat i). split.
    + do 2 f_equal. lia.
    + apply elem_of_seq. lia.
Qed.

Lemma blocks24_length a n : length (blocks24 a n) = n.
Proof. unfold blocks24. by rewrite length_fmap, length_seq. Qed.

Lemma blocks24_Sorted a n : Sorted cmp_lt (blocks24 a n).
Proof.
  revert a. induction n as [|n IH]; intros a; [constructor |].
  rewrite blocks24_S. constructor; [apply IH |].
  destruct n as [|n]; [constructor |].
  rewrite blocks24_S. constructor.
  apply prefixCompare_lt. unfold key_lt. simpl. lia.
Qed.

Lemma splitLoop_blocks24 n a :
  0 <= a -> a + 256 * Z.of_nat n <= 2 ^ 32 -> splitLoop n a = Done (blocks24 a n).
Proof.
  revert a. induction n as [|n IH]; intros a Ha Hn; [done |].
  cbn [splitLoop]. rewrite intToIP_IPv4 by lia.
  cbn [mbind outcome_bind]. unfold incrementIPBy24.
  change (Z.shiftl 1 8) with 256.
  rewrite IH by lia. rewrite blocks24_S. done.
Qed.

Lemma wrap_int_small z : - 2 ^ 63 <= z < 2 ^ 63 -> wrap_int z = z.
Proof. intros Hz. unfold wrap_int. rewrite Z.mod_small; lia. Qed.

(** A masked network address of length [b] leaves room for its whole
    block below [2 ^ 32]. *)
Lemma masked_block_fits a b :
  0 <= b <= 32 -> 0 <= a < 2 ^ 32 -> a mod 2 ^ (32 - b) = 0 ->
  a + 2 ^ (32 - b) <= 2 ^ 32.
Proof.
  intros Hb Ha Hm.
  assert (Hpos : 0 < 2 ^ (32 - b)) by (apply Z.pow_pos_nonneg; lia).
  assert (Hsplit : 2 ^ 32 = 2 ^ (32 - b) * 2 ^ b).
  { rewrite <- Z.pow_add_r by lia. f_equal. lia. }
  pose proof (Z.div_mod a (2 ^ (32 - b)) ltac:(lia)) as Hdm.
  rewrite Hm, Z.add_0_r in Hdm.
  set (m := 2 ^ (32 - b)) in *. set (q := a / m) in *.
  assert (q < 2 ^ b) by nia. nia.
Qed.

Lemma processPrefixTo24_split a b :
  0 <= b < 24 -> 0 <= a < 2 ^ 32 -> a mod 2 ^ (32 - b) = 0 ->
  processPrefixTo24 (mkPrefix (IPv4 a) b)
  = Done (blocks24 a (Z.to_nat (2 ^ (24 - b)))).
Proof.
  intros Hb Ha Hm. unfold processPrefixTo24. cbn [Bits Addr_of].
  destruct (Z.eqb_spec b 24) as [|_]; [lia |].
  unfold shl_int. destruct (Z.ltb_spec (24 - b) 0) as [|_]; [lia |].
  cbn [mbind outcome_bind]. rewrite Z.shiftl_1_l.
  assert (Hpow : 0 < 2 ^ (24 - b) <= 2 ^ 24).
  { split; [apply Z.pow_pos_nonneg; lia | apply Z.pow_le_mono_r; lia]. }
  rewrite wrap_int_small by lia.
  destruct (Z.ltb_spec (2 ^ (24 - b)) 0) as [|_]; [lia |].
  rewrite ipToInt_IPv4 by done.
  apply splitLoop_blocks24; [lia |].
  rewrite Z2Nat.id by lia.
  pose proof (masked_block_fits a b ltac:(lia) Ha Hm) as Hfit.
  replace (2 ^ (32 - b)) with (256 * 2 ^ (24 - b)) in Hfit; [lia |].
  change 256 with (2 ^ 8). rewrite <- Z.pow_add_r by lia. f_equal. lia.
Qed.

Lemma processPrefixTo24_24 ip : processPrefixTo24 (mkPrefix ip 24) = Done [mkPrefix ip 24].
Proof. done. Qed.

(** A length above 24 makes the shift count negative. *)
Lemma processPrefixTo24_long p :
  24 < Bits p ->
  processPrefixTo24 p = Panic "runtime error: negative shift amount".
Proof.
  intros Hb. unfold processPrefixTo24.
  destruct (Z.eqb_spec (Bits p) 24) as [|_]; [lia |].
  unfold shl_int. destruct (Z.ltb_spec (24 - Bits p) 0) as [_|]; [done | lia].
Qed.

(** ** Address ranges *)

Lemma Contains_IPv4_range a b x :
  0 <= b <= 32 -> a mod 2 ^ (32 - b) = 0 ->
  Contains (mkPrefix (IPv4 a) b) (IPv4 x) = true <-> a <= x < a + 2 ^ (32 - b).
Proof.
  intros Hb Hm. unfold Contains. cbn [Bits Addr_of BitLen value].
  assert (Hpos : 0 < 2 ^ (32 - b)) by (apply Z.pow_pos_nonneg; lia).
  destruct (Z.leb_spec 0 b); [|lia]. destruct (Z.leb_spec b 32); [|lia].
  change (32 =? 0) with false. change (32 =? 32) with true. cbn [andb negb].
  rewrite Z.eqb_eq, Z.shiftr_lxor, Z.lxor_eq_0_iff.
  rewrite !Z.shiftr_div_pow2 by lia.
  pose proof (Z.div_mod a (2 ^ (32 - b)) ltac:(lia)) as Hda.
  rewrite Hm, Z.add_0_r in Hda.
  pose proof (Z.div_mod x (2 ^ (32 - b)) ltac:(lia)) as Hdx.
  pose proof (Z.mod_pos_bound x (2 ^ (32 - b)) Hpos) as Hbx.
  set (m := 2 ^ (32 - b)) in *. split.
  - intros Heq. rewrite <- Heq in Hda. lia.
  - intros Hx. symmetry. apply (Z.div_unique x m (a / m) (x - a)); lia.
Qed.

Lemma Contains_is_IPv4 a b ip :
  Contains (mkPrefix (IPv4 a) b) ip = true -> exists x, ip = IPv4 x.
Proof.
  unfold Contains. cbn [Bits Addr_of BitLen value].
  destruct ip; simpl; rewrite ?andb_false_r; try done. eauto.
Qed.

(** ** What [processPrefixTo24] can return *)

Lemma intToIP_Done x ip : intToIP x = Done ip -> exists v, ip = IPv4 v.
Proof.
  unfold intToIP, big.FillBytes.
  destruct (Z.abs x <? 256 ^ Z.of_nat 4); [|done].
  cbn [mbind outcome_bind mret outcome_ret].
  unfold AddrFromSlice. rewrite be_bytes_length. simpl. intros [= <-]. eauto.
Qed.

Lemma splitLoop_Bits n x out :
  splitLoop n x = Done out -> Forall (fun q => Bits q = 24) out.
Proof.
  revert x out. induction n as [|n IH]; intros x out.
  - intros [= <-]. constructor.
  - cbn [splitLoop]. destruct (intToIP x) as [ip|] eqn:Hip; [|done].
    apply intToIP_Done in Hip as [v ->].
    cbn [mbind outcome_bind].
    destruct (splitLoop n (incrementIPBy24 x)) as [rest|] eqn:Hrest; [|done].
    cbn [mbind outcome_bind mret outcome_ret]. intros [= <-].
    constructor; [done | by eapply IH].
Qed.

Lemma processPrefixTo24_Bits p out :
  processPrefixTo24 p = Done out -> Forall (fun q => Bits q = 24) out.
Proof.
  unfold processPrefixTo24. destruct (Z.eqb_spec (Bits p) 24) as [Hb|_].
  - intros [= <-]. by constructor.
  - destruct (shl_int 1 (24 - Bits p)) as [n|]; [|done].
    cbn [mbind outcome_bind]. destruct (n <? 0); [done |].
    apply splitLoop_Bits.
Qed.

Lemma processPrefixTo24_id p :
  Bits p = 24 -> processPrefixTo24 p = Done [p].
Proof.
  intros Hb. unfold processPrefixTo24. by rewrite Hb.
Qed.

(** ** The map of unique prefixes *)

Lemma collectUnique_Bits l S S' :
  collectUnique l S = Done S' ->
  (forall q, q ∈ S -> Bits q = 24) -> forall q, q ∈ S' -> Bits q = 24.
Proof.
  revert S. induction l as [|p l IH]; intros S.
  - intros [= <-]. done.
  - cbn [collectUnique].
    destruct (processPrefixTo24 p) as [split|] eqn:Hp; [|done].
    cbn [mbind outcome_bind]. intros Hl HS. apply (IH _ Hl).
    intros q [Hq|Hq]%elem_of_union; [|by apply HS].
    apply processPrefixTo24_Bits in Hp. rewrite Forall_forall in Hp.
    apply Hp. by apply elem_of_list_to_set in Hq.
Qed.

Lemma collectUnique_all24 l S :
  Forall (fun q => Bits q = 24) l ->
  collectUnique l S = Done (list_to_set l ∪ S).
Proof.
  revert S. induction l as [|p l IH]; intros S Hl.
  - cbn. f_equal. set_solver.
  - apply Forall_cons in Hl as [Hp Hl]. cbn [collectUnique].
    rewrite processPrefixTo24_id by done. cbn [mbind outcome_bind].
    rewrite IH by done. f_equal. set_solver.
Qed.

Lemma collectUnique_panics l S p :
  p ∈ l -> 24 < Bits p -> exists msg, collectUnique l S = Panic msg.
Proof.
  revert S. induction l as [|p' l IH]; intros S Hin Hb; [by inv Hin |].
  cbn [collectUnique].
  destruct (processPrefixTo24 p') as [split|msg] eqn:Hp'; [|by eexists].
  cbn [mbind outcome_bind]. apply elem_of_cons in Hin as [->|Hin].
  - rewrite processPrefixTo24_long in Hp' by done. done.
  - by apply IH.
Qed.


(** ** The sequence written for IPv4 *)

Lemma normalizeV4_Sorted l out : normalizeV4 l = Done out -> Sorted cmp_lt out.
Proof.
  unfold normalizeV4. destruct (collectUnique l ∅) as [S|]; [|done].
  cbn [mbind outcome_bind mret outcome_ret]. intros [= <-].
  apply Sorted_le_NoDup_lt; [apply SortFunc_Sorted |].
  rewrite SortFunc_Permutation. apply NoDup_elements.
Qed.

Lemma normalizeV4_Bits l out :
  normalizeV4 l = Done out -> Forall (fun q => Bits q = 24) out.
Proof.
  unfold normalizeV4. destruct (collectUnique l ∅) as [S|] eqn:HS; [|done].
  cbn [mbind outcome_bind mret outcome_ret]. intros [= <-].
  apply Forall_forall. intros q Hq.
  rewrite SortFunc_Permutation in Hq. apply elem_of_elements in Hq.
  eapply collectUnique_Bits; [done | set_solver | done].
Qed.

Lemma normalizeV4_fixed out :
  Forall (fun q => Bits q = 24) out -> Sorted cmp_lt out ->
  normalizeV4 out = Done out.
Proof.
  intros Hb Hs. unfold normalizeV4. rewrite collectUnique_all24 by done.
  cbn [mbind outcome_bind mret outcome_ret]. f_equal.
  apply SortFunc_unique; [by apply Sorted_lt_le |].
  rewrite (right_id_L ∅ (∪)). symmetry. apply elements_list_to_set.
  by apply Sorted_lt_NoDup.
Qed.


(** ** Running in a world *)

Lemma append_nil_r (s : string) : s +:+ "" = s.
Proof.
  induction s as [|c s IH]; [done |].
  change (String c (s +:+ "") = String c s). by rewrite IH.
Qed.

Lemma append_assoc (s1 s2 s3 : string) : (s1 +:+ s2) +:+ s3 = s1 +:+ (s2 +:+ s3).
Proof.
  induction s1 as [|c s1 IH]; [done |].
  change (String c ((s1 +:+ s2) +:+ s3) = String c (s1 +:+ (s2 +:+ s3))).
  by rewrite IH.
Qed.

Lemma bind_Done {A B} (m : Go A) (f : A -> Go B) w a w' :
  m w = (Done a, w') -> (m ≫= f) w = f a w'.
Proof. intros Hm. unfold mbind, Go_bind. by rewrite Hm. Qed.

Lemma bind_Panic {A B} (m : Go A) (f : A -> Go B) w msg w' :
  m w = (Panic msg, w') -> (m ≫= f) w = (Panic msg, w').
Proof. intros Hm. unfold mbind, Go_bind. by rewrite Hm. Qed.

(** Unfolds one layer of sequencing and the primitive operations. *)
Ltac go :=
  repeat (unfold mbind, Go_bind, mret, Go_ret, lift, log, os_Create, os_Open,
            WriteString, runCommand, set_files;
          cbn [fst snd files logs commands replies open_error create_error
                 command_error]).

Lemma writeLines_spec l path c w :
  writeLines path l (set_files (insert path c) w)
  = (Done (), set_files (insert path (c +:+ linesText l)) w).
Proof.
  revert c. induction l as [|p l IH]; intros c.
  - cbn [writeLines linesText]. by rewrite append_nil_r.
  - cbn [writeLines linesText].
    rewrite <- (append_assoc c (PrefixString p +:+ String newline "") (linesText l)).
    erewrite bind_Done; last first.
    { unfold WriteString, set_files. cbn [files logs commands replies
        open_error create_error command_error].
      rewrite alter_insert_eq. reflexivity. }
    apply (IH (c +:+ (PrefixString p +:+ String newline ""))).
Qed.

(** The IPv4 writer on a non-empty input whose decomposition returns. *)
Lemma writePrefixesToFileV4_Done l path w out :
  l ≠ [] -> create_error w path = None -> normalizeV4 l = Done out ->
  exists w', writePrefixesToFileV4 l path w = (Done None, w') /\
             files w' = <[path := linesText out]> (files w) /\
             commands w' = commands w /\ env_same w w'.
Proof.
  intros Hl Hc Hn. unfold writePrefixesToFileV4.
  destruct (decide (length l = 0%nat)) as [H0|_];
    [by destruct l |].
  go. rewrite Hc, Hn.
  pose proof (writeLines_spec out path "" w) as Hw.
  unfold set_files in Hw. cbn [files logs commands replies open_error
    create_error command_error] in Hw.
  go. rewrite Hw. go. eexists. split; [reflexivity |]. done.
Qed.

(** The IPv4 writer on an input whose decomposition panics: the file has
    been truncated by then. *)
Lemma writePrefixesToFileV4_Panic l path w msg :
  create_error w path = None -> normalizeV4 l = Panic msg ->
  exists w', writePrefixesToFileV4 l path w = (Panic msg, w') /\
             files w' = <[path := ""]> (files w) /\ env_same w w'.
Proof.
  intros Hc Hn. unfold writePrefixesToFileV4.
  destruct (decide (length l = 0%nat)) as [H0|_].
  { destruct l; [done | done]. }
  go. rewrite Hc, Hn. eexists. split; [reflexivity | done].
Qed.

Lemma writePrefixesToFileV6_Done l path w :
  l ≠ [] -> create_error w path = None ->
  exists w', writePrefixesToFileV6 l path w = (Done None, w') /\
             files w' = <[path := linesText (normalizeV6 l)]> (files w) /\
             commands w' = commands w /\ env_same w w'.
Proof.
  intros Hl Hc. unfold writePrefixesToFileV6.
  destruct (decide (length l = 0%nat)) as [H0|_];
    [by destruct l |].
  go. rewrite Hc.
  pose proof (writeLines_spec (normalizeV6 l) path "" w) as Hw.
  unfold set_files in Hw. cbn [files logs commands replies open_error
    create_error command_error] in Hw.
  go. rewrite Hw. go. eexists. split; [reflexivity |]. done.
Qed.

(** On an empty input a writer only logs. *)
Lemma writePrefixesToFileV4_nil path w :
  exists w', writePrefixesToFileV4 [] path w = (Done None, w') /\
             files w' = files w /\ commands w' = commands w /\
             env_same w w'.
Proof. eexists. split; [reflexivity | done]. Qed.

Lemma writePrefixesToFileV6_nil path w :
  exists w', writePrefixesToFileV6 [] path w = (Done None, w') /\
             files w' = files w /\ commands w' = commands w /\
             env_same w w'.
Proof. eexists. split; [reflexivity | done]. Qed.

(** ** Decomposition of one block *)

Lemma normalizeV4_single p out :
  processPrefixTo24 p = Done out -> Sorted cmp_lt out -> normalizeV4 [p] = Done out.
Proof.
  intros Hp Hs. unfold normalizeV4. cbn [collectUnique]. rewrite Hp.
  cbn [mbind outcome_bind mret outcome_ret]. f_equal.
  apply SortFunc_unique; [by apply Sorted_lt_le |].
  rewrite (right_id_L ∅ (∪)). symmetry. apply elements_list_to_set.
  by apply Sorted_lt_NoDup.
Qed.

Lemma masked_mod_256 a b :
  0 <= b <= 24 -> a mod 2 ^ (32 - b) = 0 -> a mod 256 = 0.
Proof.
  intros Hb Hm.
  assert (Hpos : 0 < 2 ^ (32 - b)) by (apply Z.pow_pos_nonneg; lia).
  pose proof (Z.div_mod a (2 ^ (32 - b)) ltac:(lia)) as Hdm.
  rewrite Hm, Z.add_0_r in Hdm.
  replace (2 ^ (32 - b)) with (256 * 2 ^ (24 - b)) in Hdm.
  - rewrite Hdm, <- Z.mul_assoc, Z.mul_comm. apply Z.mod_mul. lia.
  - change 256 with (2 ^ 8). rewrite <- Z.pow_add_r by lia. f_equal. lia.
Qed.

Lemma block24_range a i v :
  a mod 256 = 0 ->
  Contains (mkPrefix (IPv4 (a + 256 * i)) 24) (IPv4 v) = true
  <-> a + 256 * i <= v < a + 256 * i + 256.
Proof.
  intros Ha. rewrite Contains_IPv4_range; [done | lia |].
  change (2 ^ (32 - 24)) with 256.
  rewrite (Z.mul_comm 256 i), Z.mod_add by lia. done.
Qed.

Lemma pow_split b : 0 <= b <= 24 -> 2 ^ (32 - b) = 256 * 2 ^ (24 - b).
Proof.
  intros Hb. change 256 with (2 ^ 8). rewrite <- Z.pow_add_r by lia.
  f_equal. lia.
Qed.

(** C1. Every IPv4 block shorter than 24 bits whose address is its network
    address is normalized to exactly [2 ^ (24 - b)] distinct blocks of length
    24, the [i]-th one at the network address plus [256 * i]; an address lies
    in the input block exactly when it lies in one of them, and in no two of
    them.  A block of length 24 is returned unchanged. *)
Theorem decomposition_completeness :
  (forall a b, 0 <= b < 24 -> 0 <= a < 2 ^ 32 -> a mod 2 ^ (32 - b) = 0 ->
     let p := mkPrefix (IPv4 a) b in
     let out := blocks24 a (Z.to_nat (2 ^ (24 - b))) in
     processPrefixTo24 p = Done out /\
     normalizeV4 [p] = Done out /\
     Z.of_nat (length out) = 2 ^ (24 - b) /\
     NoDup out /\
     (forall q, q ∈ out <->
        exists i, 0 <= i < 2 ^ (24 - b) /\ q = mkPrefix (IPv4 (a + 256 * i)) 24) /\
     (forall x, Contains p x = true <-> exists q, q ∈ out /\ Contains q x = true) /\
     (forall x q1 q2, q1 ∈ out -> q2 ∈ out ->
        Contains q1 x = true -> Contains q2 x = true -> q1 = q2)) /\
  (forall ip, processPrefixTo24 (mkPrefix ip 24) = Done [mkPrefix ip 24] /\
              normalizeV4 [mkPrefix ip 24] = Done [mkPrefix ip 24]).
Proof.
  split.
  - intros a b Hb Ha Hm p out.
    assert (Hpow : 0 < 2 ^ (24 - b)) by (apply Z.pow_pos_nonneg; lia).
    assert (Hp : processPrefixTo24 p = Done out)
      by (by apply processPrefixTo24_split).
    assert (Hs : Sorted cmp_lt out) by apply blocks24_Sorted.
    assert (Hin : forall q, q ∈ out <->
      exists i, 0 <= i < 2 ^ (24 - b) /\ q = mkPrefix (IPv4 (a + 256 * i)) 24).
    { intros q. unfold out. rewrite elem_of_blocks24, Z2Nat.id by lia. done. }
    assert (Ha256 : a mod 256 = 0) by (apply (masked_mod_256 a b); [lia | done]).
    split; [done |]. split; [by apply normalizeV4_single |].
    split; [unfold out; rewrite blocks24_length; lia |].
    split; [by apply Sorted_lt_NoDup |]. split; [done |]. split.
    + intros x. split.
      * intros Hx. destruct (Contains_is_IPv4 _ _ _ Hx) as [v ->].
        apply Contains_IPv4_range in Hx; [|lia | done].
        rewrite pow_split in Hx by lia.
        exists (mkPrefix (IPv4 (a + 256 * ((v - a) / 256))) 24). split.
        -- apply Hin. exists ((v - a) / 256). split; [|done].
           split; [apply Z.div_pos; lia | apply Z.div_lt_upper_bound; lia].
        -- apply block24_range; [done |].
           pose proof (Z.div_mod (v - a) 256 ltac:(lia)).
           pose proof (Z.mod_pos_bound (v - a) 256 ltac:(lia)). lia.
      * intros (q & Hq & Hx). apply Hin in Hq as (i & Hi & ->).
        destruct (Contains_is_IPv4 _ _ _ Hx) as [v ->].
        apply block24_range in Hx; [|done].
        apply Contains_IPv4_range; [lia | done |].
        rewrite pow_split by lia. nia.
    + intros x q1 q2 Hq1 Hq2 Hx1 Hx2.
      apply Hin in Hq1 as (i & Hi & ->). apply Hin in Hq2 as (j & Hj & ->).
      destruct (Contains_is_IPv4 _ _ _ Hx1) as [v ->].
      apply block24_range in Hx1; [|done]. apply block24_range in Hx2; [|done].
      do 2 f_equal. lia.
  - intros ip. split; [done |].
    apply normalizeV4_single; [done |]. repeat constructor.
Qed.

Lemma decomposition_completeness_witness :
  (0 <= 23 < 24 /\ 0 <= 3325256704 < 2 ^ 32 /\ 3325256704 mod 2 ^ (32 - 23) = 0) /\
  normalizeV4 [v4_doc_23]
  = Done [mkPrefix (ip4 198 51 100 0) 24; mkPrefix (ip4 198 51 101 0) 24].
Proof.
  assert (H1 : 0 <= 23 < 24) by lia.
  assert (H2 : 0 <= 3325256704 < 2 ^ 32) by lia.
  assert (H3 : 3325256704 mod 2 ^ (32 - 23) = 0) by reflexivity.
  split; [exact (conj H1 (conj H2 H3)) |].
  exact (proj1 (proj2 (proj1 decomposition_completeness 3325256704 23 H1 H2 H3))).
Defined.

(** ** Blocks longer than 24 bits *)

(** C2 (what the code does). A block longer than 24 bits makes
    [processPrefixTo24] panic on a negative shift count; the IPv4 writer has
    truncated its file by then and writes nothing. *)
Theorem long_prefix_panics :
  forall l p path w, p ∈ l -> 24 < Bits p -> create_error w path = None ->
    processPrefixTo24 p = Panic "runtime error: negative shift amount" /\
    exists msg w', writePrefixesToFileV4 l path w = (Panic msg, w') /\
                   files w' !! path = Some "".
Proof.
  intros l p path w Hin Hb Hc. split; [by apply processPrefixTo24_long |].
  destruct (collectUnique_panics l ∅ p Hin Hb) as [msg Hmsg].
  destruct (writePrefixesToFileV4_Panic l path w msg Hc) as (w' & Hw & Hf & _).
  { unfold normalizeV4. by rewrite Hmsg. }
  exists msg, w'. split; [done |]. rewrite Hf. apply lookup_insert_eq.
Qed.

Lemma long_prefix_panics_witness :
  (v4_doc_25 ∈ [v4_doc_25] /\ 24 < Bits v4_doc_25 /\
   create_error quiet outputFileV4 = None) /\
  processPrefixTo24 v4_doc_25 = Panic "runtime error: negative shift amount" /\
  exists msg w', writePrefixesToFileV4 [v4_doc_25] outputFileV4 quiet = (Panic msg, w') /\
                 files w' !! outputFileV4 = Some "".
Proof.
  assert (H1 : v4_doc_25 ∈ [v4_doc_25]) by apply list_elem_of_here.
  assert (H2 : 24 < Bits v4_doc_25) by reflexivity.
  assert (H3 : create_error quiet outputFileV4 = None) by reflexivity.
  split; [exact (conj H1 (conj H2 H3)) |].
  exact (long_prefix_panics [v4_doc_25] v4_doc_25 outputFileV4 quiet H1 H2 H3).
Defined.

(** ** The decomposition returns on network blocks *)




(** ** Order of the persisted lines *)




(** ** IPv6 blocks *)

(** C4 (as the code has it). The sequence written for IPv6 is the input
    rearranged in ascending order: every block is kept unchanged and as often
    as it occurs in the input; nothing is decomposed and nothing is removed.
    The IPv6 writer writes that sequence, one block per line. *)
Theorem v6_blocks_kept_as_given :
  forall l,
    normalizeV6 l ≡ₚ l /\
    (forall p, count_occ Prefix_eq_dec (normalizeV6 l) p = count_occ Prefix_eq_dec l p) /\
    Sorted cmp_le (normalizeV6 l) /\
    (forall path w, l ≠ [] -> create_error w path = None ->
       exists w', writePrefixesToFileV6 l path w = (Done None, w') /\
                  files w' !! path = Some (linesText (normalizeV6 l))).
Proof.
  intros l. split; [apply SortFunc_Permutation |]. split.
  - intros p. apply Permutation_count_occ. apply SortFunc_Permutation.
  - split; [apply SortFunc_Sorted |]. intros path w Hl Hc.
    destruct (writePrefixesToFileV6_Done l path w Hl Hc) as (w' & Hw & Hf & _).
    exists w'. split; [done |]. rewrite Hf. apply lookup_insert_eq.
Qed.

Lemma v6_blocks_kept_as_given_witness :
  ([v6_doc_48; v6_doc_32] ≠ [] /\ create_error quiet outputFileV6 = None) /\
  exists w', writePrefixesToFileV6 [v6_doc_48; v6_doc_32] outputFileV6 quiet
             = (Done None, w') /\
             files w' !! outputFileV6
             = Some (linesText (normalizeV6 [v6_doc_48; v6_doc_32])).
Proof.
  assert (H1 : [v6_doc_48; v6_doc_32] ≠ []) by discriminate.
  assert (H2 : create_error quiet outputFileV6 = None) by reflexivity.
  split; [exact (conj H1 H2) |].
  exact (proj2 (proj2 (proj2 (v6_blocks_kept_as_given [v6_doc_48; v6_doc_32])))
           outputFileV6 quiet H1 H2).
Defined.

(** A block that is given twice is written twice. *)
Lemma v6_duplicates_kept :
  normalizeV6 [v6_doc_48; v6_doc_48] = [v6_doc_48; v6_doc_48] /\
  ~ NoDup (normalizeV6 [v6_doc_48; v6_doc_48]).
Proof.
  assert (H : normalizeV6 [v6_doc_48; v6_doc_48] = [v6_doc_48; v6_doc_48])
    by (vm_compute; reflexivity).
  split; [exact H |]. rewrite H. intros Hnd.
  apply NoDup_cons in Hnd as [Hnin _]. apply Hnin. apply list_elem_of_here.
Qed.

(** ** Idempotence *)

(** C8. What the IPv4 normalization returns consists of blocks of length 24,
    strictly ascending, and normalizing it again returns it unchanged; so does
    every strictly ascending sequence of blocks of length 24.  Normalizing the
    IPv6 result again returns it unchanged. *)
Theorem normalization_idempotent :
  (forall l out, normalizeV4 l = Done out ->
     Forall (fun q => Bits q = 24) out /\ Sorted cmp_lt out /\
     normalizeV4 out = Done out) /\
  (forall s, Forall (fun q => Bits q = 24) s -> Sorted cmp_lt s ->
     normalizeV4 s = Done s) /\
  (forall l, normalizeV6 (normalizeV6 l) = normalizeV6 l).
Proof.
  split; [|split].
  - intros l out Hn.
    pose proof (normalizeV4_Bits l out Hn) as Hb.
    pose proof (normalizeV4_Sorted l out Hn) as Hs.
    split; [done |]. split; [done |]. by apply normalizeV4_fixed.
  - apply normalizeV4_fixed.
  - intros l. apply SortFunc_sorted_id. apply SortFunc_Sorted.
Qed.

Lemma normalization_idempotent_witness :
  normalizeV4 [v4_doc_23; mkPrefix (ip4 198 51 100 0) 24]
  = Done [mkPrefix (ip4 198 51 100 0) 24; mkPrefix (ip4 198 51 101 0) 24] /\
  normalizeV4 [mkPrefix (ip4 198 51 100 0) 24; mkPrefix (ip4 198 51 101 0) 24]
  = Done [mkPrefix (ip4 198 51 100 0) 24; mkPrefix (ip4 198 51 101 0) 24].
Proof.
  assert (H : normalizeV4 [v4_doc_23; mkPrefix (ip4 198 51 100 0) 24]
              = Done [mkPrefix (ip4 198 51 100 0) 24; mkPrefix (ip4 198 51 101 0) 24])
    by (vm_compute; reflexivity).
  split; [exact H |].
  exact (proj2 (proj2 (proj1 normalization_idempotent _ _ H))).
Defined.

(** ** Frames *)

Lemma only_logged_refl w : only_logged w w.
Proof.
  repeat split. exists []. by rewrite app_nil_r.
Qed.

Lemma only_logged_trans w1 w2 w3 :
  only_logged w1 w2 -> only_logged w2 w3 -> only_logged w1 w3.
Proof.
  intros (Hf1 & Hc1 & Hr1 & (Ho1 & Hcr1 & Hce1) & [e1 Hl1])
         (Hf2 & Hc2 & Hr2 & (Ho2 & Hcr2 & Hce2) & [e2 Hl2]).
  repeat split; try congruence.
  exists (e1 ++ e2). rewrite Hl2, Hl1. by rewrite app_assoc.
Qed.

Lemma log_only_logged lvl msg w : only_logged w (log lvl msg w).2.
Proof. repeat split. by exists [(lvl, msg)]. Qed.

Lemma logs_extend_elem w w' x : logs_extend w w' -> x ∈ logs w -> x ∈ logs w'.
Proof. intros [extra ->] Hx. apply elem_of_app. by left. Qed.

Lemma logs_extend_trans w1 w2 w3 :
  logs_extend w1 w2 -> logs_extend w2 w3 -> logs_extend w1 w3.
Proof.
  intros [e1 H1] [e2 H2]. exists (e1 ++ e2). rewrite H2, H1. by rewrite app_assoc.
Qed.

Lemma env_same_trans w1 w2 w3 : env_same w1 w2 -> env_same w2 w3 -> env_same w1 w3.
Proof. intros (?&?&?) (?&?&?). repeat split; congruence. Qed.

Lemma logs_extend_refl w : logs_extend w w.
Proof. exists []. by rewrite app_nil_r. Qed.

Lemma env_same_refl w : env_same w w.
Proof. by repeat split. Qed.

(** Closes the frame conditions that hold by computation. *)
Ltac frame :=
  repeat match goal with |- _ /\ _ => split end;
  cbn [fst snd files logs commands replies open_error create_error
         command_error head tail];
  try reflexivity; try assumption;
  try apply logs_extend_refl;
  try (exists []; cbn [logs]; symmetry; apply app_nil_r);
  try (eapply mk_is_Some; reflexivity);
  try (by repeat split).

Lemma log_Done lvl msg w : log lvl msg w = (Done (), (log lvl msg w).2).
Proof. done. Qed.

(** ** Port discovery *)

Lemma firstPort_cons text rest :
  firstPort (text :: rest)
  = match portOfLine text with Some m => Some m | None => firstPort rest end.
Proof. unfold firstPort. cbn [omap list_omap]. by destruct (portOfLine text). Qed.

Lemma scanPort_spec lines w :
  exists w', scanPort lines w = (Done (firstPort lines), w') /\ only_logged w w'.
Proof.
  revert w. induction lines as [|text rest IH]; intros w.
  - exists w. split; [done | apply only_logged_refl].
  - rewrite firstPort_cons. unfold portOfLine. cbn [scanPort].
    destruct (FindStringSubmatch text) as [digits|]; cbn [mbind option_bind].
    + destruct (ParseUint16 digits) as [m|err].
      * exists w. split; [done | apply only_logged_refl].
      * destruct (IH (log WARN "fail to parse Port" w).2) as (w' & Hs & Hf).
        exists w'. split.
        -- unfold mbind at 1, Go_bind. cbn [log]. exact Hs.
        -- eapply only_logged_trans; [apply log_only_logged | done].
    + apply IH.
Qed.

Lemma os_Open_spec path w :
  os_Open path w
  = (Done match open_error w path with
          | Some err => inr err
          | None =>
              match files w !! path with
              | Some content => inl content
              | None => inr ("open " +:+ path +:+ ": no such file or directory")
              end
          end, w).
Proof.
  unfold os_Open. destruct (open_error w path); [done |].
  by destruct (files w !! path).
Qed.

Lemma findSSHPort_spec w :
  exists r w', findSSHPort w = (Done r, w') /\ only_logged w w' /\
               chosenPort r = discoveredPort w /\ (r.2 = None <-> portFound w).
Proof.
  unfold findSSHPort, discoveredPort, portFound, sshdConfig.
  rewrite (bind_Done _ _ _ _ _ (log_Done _ _ _)).
  set (w0 := (log INFO "finding SSH port" w).2).
  assert (H0 : only_logged w w0) by apply log_only_logged.
  rewrite (bind_Done _ _ _ _ _ (os_Open_spec _ _)).
  change (open_error w0) with (open_error w). change (files w0) with (files w).
  destruct (open_error w sshdConfigPath) as [err|].
  { eexists _, w0. split; [reflexivity |]. split; [exact H0 |].
    split; [reflexivity |]. split; [discriminate |]. by intros (c & ? & _). }
  destruct (files w !! sshdConfigPath) as [content|].
  2:{ eexists _, w0. split; [reflexivity |]. split; [exact H0 |].
      split; [reflexivity |]. split; [discriminate |]. by intros (c & ? & _). }
  destruct (scanPort_spec (scanLines content).1 w0) as (w' & Hs & Hf).
  rewrite (bind_Done _ _ _ _ _ Hs).
  assert (Hww' : only_logged w w') by (by eapply only_logged_trans).
  destruct (firstPort (scanLines content).1) as [port|] eqn:Hp.
  - eexists _, w'. split; [reflexivity |]. split; [exact Hww' |].
    split; [reflexivity |].
    split; [|reflexivity]. intros _. exists content.
    split; [reflexivity | by rewrite Hp; eexists].
  - eexists _, w'. split; [reflexivity |]. split; [exact Hww' |].
    split; [reflexivity |].
    split; [discriminate |]. intros (c & [= <-] & [? Hsome]).
    rewrite Hp in Hsome. discriminate.
Qed.





(** ** The setup pipeline *)

Section setup_facts.
Context `{Library}.

Lemma readSet_only_logged path w w' :
  only_logged w w' -> readSet path w' = readSet path w.
Proof.
  intros (Hf & _ & _ & (Ho & _ & _) & _). unfold readSet. by rewrite Hf, Ho.
Qed.

Lemma readPrefixes_spec path w :
  exists r, readPrefixes path w = (Done r, w) /\
            match r with
            | (prefixes, None) => prefixes = readSet path w
            | (_, Some _) => readSet path w = []
            end.
Proof.
  unfold readPrefixes, readSet, mbind, Go_bind, os_Open.
  destruct (open_error w path); [by eexists |].
  destruct (files w !! path) as [content|]; [|by eexists].
  eexists. split; [reflexivity |].
  by destruct (parseLines (scanLines content).1) as [prefixes [err|]].
Qed.

(** Reading a prefix file and falling back to the empty list, as
    [initializeNftablesConf] does for each family, before it goes on. *)
Lemma read_or_empty path w :
  exists w',
    only_logged w w' /\
    forall B (k : list Prefix -> Go B),
      (r ← readPrefixes path;
       prefixes ← match r with
                  | (_, Some _) => log ERROR "failed to read prefixes file";; mret []
                  | (prefixes, None) => mret prefixes
                  end;
       k prefixes) w = k (readSet path w) w'.
Proof.
  destruct (readPrefixes_spec path w) as ([prefixes [err|]] & Hr & Hs).
  - exists (log ERROR "failed to read prefixes file" w).2.
    split; [apply log_only_logged |]. intros B k.
    rewrite (bind_Done _ _ _ _ _ Hr). rewrite Hs. reflexivity.
  - exists w. split; [apply only_logged_refl |]. intros B k.
    rewrite (bind_Done _ _ _ _ _ Hr). rewrite <- Hs. reflexivity.
Qed.

Lemma initializeNftablesConf_spec sshdPort w :
  let v4 := readSet ipv4File w in
  let v6 := readSet ipv6File w in
  exists r w',
    initializeNftablesConf sshdPort w = (Done r, w') /\
    commands w' = commands w /\ env_same w w' /\ logs_extend w w' /\
    match decide (v4 = [] /\ v6 = []), create_error w nftablesConf with
    | left _, _ => r = Some "prefix lists empty" /\ files w' = files w
    | right _, Some err =>
        r = Some ("error creating nftables.conf: " +:+ err) /\ files w' = files w
    | right _, None =>
        r = None /\
        files w' = <[nftablesConf := (renderNftablesTemplate sshdPort v4 v6).1]> (files w)
    end.
Proof.
  intros v4 v6. unfold initializeNftablesConf.
  set (w0 := (log INFO "initializing nftables configuration" w).2).
  assert (H0 : only_logged w w0) by apply log_only_logged.
  rewrite (bind_Done _ _ _ _ _ (log_Done _ _ _)). fold w0.
  destruct (read_or_empty ipv4File w0) as (w1 & H1 & Hr1). rewrite Hr1.
  destruct (read_or_empty ipv6File w1) as (w2 & H2 & Hr2). rewrite Hr2.
  assert (H01 : only_logged w w1) by (by eapply only_logged_trans).
  assert (H02 : only_logged w w2) by (by eapply only_logged_trans).
  rewrite (readSet_only_logged _ _ _ H0).
  rewrite (readSet_only_logged _ _ _ H01).
  fold v4 v6.
  destruct H02 as (Hf & Hc & _ & Henv & Hl).
  destruct (decide (length v4 = 0%nat ∧ length v6 = 0%nat)) as [[E4 E6]|Hne].
  - apply length_zero_iff_nil in E4, E6.
    exists (Some "prefix lists empty"), w2. split; [done |].
    split; [done |]. split; [done |]. split; [done |].
    by destruct (decide (v4 = [] /\ v6 = [])) as [_|[]].
  - destruct (decide (v4 = [] /\ v6 = [])) as [[E4 E6]|_].
    { destruct Hne. by rewrite E4, E6. }
    cbn [renderNftablesTemplate].
    unfold mbind, Go_bind, os_Create.
    destruct Henv as (Ho & Hcr & Hce). rewrite Hcr.
    destruct (create_error w nftablesConf) as [err|].
    + eexists _, w2. split; [reflexivity |]. by repeat split.
    + eexists _, _. split; [reflexivity |].
      unfold WriteString, set_files. cbn [files logs commands replies
        open_error create_error command_error fst].
      split; [done |]. split; [by repeat split |]. split; [done |].
      split; [done |]. rewrite alter_insert_eq, Hf. done.
Qed.

Lemma applyNftables_spec w :
  exists r w',
    applyNftables w = (Done r, w') /\ files w' = files w /\
    env_same w w' /\ logs_extend w w' /\
    match command_error w (commands w) load_command with
    | Some err =>
        r = Some ("failed to apply nftables configuration: " +:+ err) /\
        commands w' = commands w ++ [load_command]
    | None =>
        commands w' = commands w ++ [load_command; enable_command] /\
        match command_error w (commands w ++ [load_command]) enable_command with
        | Some err =>
            r = Some ("failed to enable and start nftables services: " +:+ err)
        | None => r = None
        end
    end.
Proof.
  unfold applyNftables, mbind, Go_bind, mret, Go_ret, log, runCommand.
  cbn [files logs commands replies open_error create_error command_error].
  change ["nft"; "-f"; nftablesConf] with load_command.
  change ["systemctl"; "enable"; "--now"; "nftables"] with enable_command.
  destruct (command_error w (commands w) load_command) as [err|].
  - eexists _, _. split; [reflexivity |].
    cbn [files logs commands replies open_error create_error command_error].
    split; [done |]. split; [done |]. split; [by eexists |]. done.
  - cbn [files logs commands replies open_error create_error command_error].
    destruct (command_error w (commands w ++ [load_command]) enable_command) as [err|].
    + eexists _, _. split; [reflexivity |].
      cbn [files logs commands replies open_error create_error command_error].
      split; [done |]. split; [done |]. split; [by eexists |].
      by rewrite <- app_assoc.
    + eexists _, _. split; [reflexivity |].
      cbn [files logs commands replies open_error create_error command_error].
      split; [done |]. split; [done |]. split; [by eexists |].
      by rewrite <- app_assoc.
Qed.

Lemma verifyNftables_spec w :
  exists r w',
    verifyNftables w = (Done r, w') /\ files w' = files w /\
    env_same w w' /\ logs_extend w w' /\
    commands w' = commands w ++ [["nft"; "list"; "ruleset"]].
Proof.
  eexists _, _. split; [reflexivity |].
  cbn [files logs commands replies open_error create_error command_error].
  split; [done |]. split; [done |]. split; [by eexists |]. done.
Qed.

Lemma fallback_text :
  (WARN, "couldn't find port from sshd configuration file, using default "
         +:+ pretty defaultSSHPort) = fallback_warning.
Proof. vm_compute. reflexivity. Qed.

(** What a run of [startSetupNftables] does, by cases on what it finds. *)
Lemma startSetupNftables_spec w :
  let port := discoveredPort w in
  let v4 := readSet ipv4File w in
  let v6 := readSet ipv6File w in
  exists r w',
    startSetupNftables w = (Done r, w') /\
    env_same w w' /\ logs_extend w w' /\
    (~ portFound w -> fallback_warning ∈ logs w') /\
    match decide (v4 = [] /\ v6 = []), create_error w nftablesConf with
    | left _, _ =>
        r = Some "failed to initialize nftables configuration: prefix lists empty" /\
        files w' = files w /\ commands w' = commands w
    | right _, Some err =>
        r = Some ("failed to initialize nftables configuration: " +:+
                  ("error creating nftables.conf: " +:+ err)) /\
        files w' = files w /\ commands w' = commands w
    | right _, None =>
        files w' = <[nftablesConf := (renderNftablesTemplate port v4 v6).1]> (files w) /\
        match command_error w (commands w) load_command with
        | Some err =>
            r = Some ("failed to apply nftables configuration: " +:+
                      ("failed to apply nftables configuration: " +:+ err)) /\
            commands w' = commands w ++ [load_command]
        | None =>
            exists more,
              commands w' = commands w ++ [load_command; enable_command] ++ more
        end
    end.
Proof.
  intros port v4 v6. unfold startSetupNftables.
  destruct (findSSHPort_spec w) as (r0 & w1 & Hfind & H1 & Hport & Hfound).
  rewrite (bind_Done _ _ _ _ _ Hfind).
  match goal with
  | |- context [(?m ≫= _) w1] =>
      assert (exists w2, m w1 = (Done port, w2) /\ only_logged w w2 /\
                         (~ portFound w -> fallback_warning ∈ logs w2))
        as (w2 & Hsel & H2 & Hwarn)
  end.
  { destruct r0 as [p [e|]]; cbn [chosenPort] in Hport.
    - eexists. split; [unfold port; rewrite <- Hport; reflexivity |]. split.
      + eapply only_logged_trans; [done | apply log_only_logged].
      + intros _. cbn [log logs snd]. rewrite fallback_text.
        apply elem_of_app. right. apply list_elem_of_here.
    - exists w1. split; [unfold port; rewrite <- Hport; reflexivity |]. split; [done |].
      intros Hnf. destruct Hnf. by apply Hfound. }
  rewrite (bind_Done _ _ _ _ _ Hsel).
  destruct (initializeNftablesConf_spec port w2)
    as (r3 & w3 & Hinit & Hc3 & Henv3 & Hl3 & Hcase).
  rewrite (bind_Done _ _ _ _ _ Hinit).
  rewrite !(readSet_only_logged _ _ _ H2) in Hcase. fold v4 v6 in Hcase.
  destruct H2 as (Hf2 & Hc2 & _ & Henv2 & Hl2).
  assert (Henv : env_same w w3) by (eapply env_same_trans; [exact Henv2 | exact Henv3]).
  assert (Hl : logs_extend w w3) by (eapply logs_extend_trans; [exact Hl2 | exact Hl3]).
  assert (Hw3 : ~ portFound w -> fallback_warning ∈ logs w3).
  { intros Hnf. apply (logs_extend_elem w2 w3); [exact Hl3 | by apply Hwarn]. }
  replace (create_error w2 nftablesConf) with (create_error w nftablesConf)
    in Hcase by (by destruct Henv2 as (_ & -> & _)).
  destruct (decide (v4 = [] /\ v6 = [])) as [He|Hne].
  { destruct Hcase as [-> Hf3]. eexists _, w3. split; [reflexivity |].
    split; [done |]. split; [done |]. split; [done |].
    split; [done |]. split; congruence. }
  destruct (create_error w nftablesConf) as [cerr|].
  { destruct Hcase as [-> Hf3]. eexists _, w3. split; [reflexivity |].
    split; [done |]. split; [done |]. split; [done |].
    split; [done |]. split; congruence. }
  destruct Hcase as [-> Hf3]. rewrite Hf2 in Hf3.
  rewrite (bind_Done _ _ _ _ _ (log_Done _ _ _)).
  set (w4 := (log INFO "nftables configuration initialized" w3).2).
  destruct (applyNftables_spec w4) as (r5 & w5 & Happly & Hf5 & Henv5 & Hl5 & Hcmd).
  rewrite (bind_Done _ _ _ _ _ Happly).
  assert (Henv' : env_same w w5).
  { eapply env_same_trans; [exact Henv | exact Henv5]. }
  assert (Hl' : logs_extend w w5).
  { eapply logs_extend_trans; [exact Hl |].
    eapply logs_extend_trans; [|exact Hl5]. by exists [(INFO, "nftables configuration initialized")]. }
  assert (Hw5 : ~ portFound w -> fallback_warning ∈ logs w5).
  { intros Hnf. apply (logs_extend_elem w4 w5); [exact Hl5 |].
    cbn [w4 log logs snd]. apply elem_of_app. left. by apply Hw3. }
  change (commands w4) with (commands w3) in Hcmd.
  change (command_error w4) with (command_error w3) in Hcmd.
  replace (command_error w3) with (command_error w) in Hcmd
    by (by destruct Henv as (_ & _ & ->)).
  rewrite Hc3, Hc2 in Hcmd.
  destruct (command_error w (commands w) load_command) as [lerr|].
  { destruct Hcmd as [-> Hc5]. eexists _, w5. split; [reflexivity |].
    split; [done |]. split; [done |]. split; [done |].
    split; [by rewrite Hf5 |]. done. }
  destruct Hcmd as [Hc5 Hr5].
  assert (Hdone : exists r w',
    (match r5 with
     | Some err => mret (Some ("failed to apply nftables configuration: " +:+ err))
     | None =>
         log INFO "configuration applied and nftables service started";;
         err ← verifyNftables;
         match err with
         | Some err => mret (Some ("failed to verify nftables ruleset: " +:+ err))
         | None =>
             log INFO "nftables setup is complete. Your server is now Iran-Access-Only except for SSH port";;
             log INFO "configuration is saved";;
             mret None
         end
     end) w5 = (Done r, w') /\ files w' = files w5 /\ env_same w5 w' /\
    logs_extend w5 w' /\ exists more, commands w' = commands w5 ++ more).
  { destruct r5 as [e5|].
    - eexists _, w5. split; [reflexivity |]. split; [done |]. split; [done |].
      split; [by exists []; rewrite app_nil_r |]. exists []. by rewrite app_nil_r.
    - rewrite (bind_Done _ _ _ _ _ (log_Done _ _ _)).
      destruct (verifyNftables_spec
                  (log INFO "configuration applied and nftables service started" w5).2)
        as (r6 & w6 & Hver & Hf6 & Henv6 & Hl6 & Hc6).
      rewrite (bind_Done _ _ _ _ _ Hver).
      destruct r6 as [e6|].
      + eexists _, w6. split; [reflexivity |]. split; [done |]. split; [done |].
        split; [|by eexists].
        eapply logs_extend_trans; [|exact Hl6]. by eexists.
      + eexists _, _. split; [reflexivity |].
        cbn [log files logs commands open_error create_error command_error snd].
        split; [done |]. split; [done |]. split; [|by eexists].
        destruct Hl6 as [e Hl6]. rewrite Hl6. cbn [log logs snd].
        eexists. rewrite <- !app_assoc. reflexivity. }
  destruct Hdone as (r & w' & Hrun & Hf' & Henv'' & Hl'' & [more Hc']).
  exists r, w'. split; [exact Hrun |].
  split; [eapply env_same_trans; [exact Henv' | exact Henv''] |].
  split; [eapply logs_extend_trans; [exact Hl' | exact Hl''] |].
  split. { intros Hnf. apply (logs_extend_elem w5 w'); [exact Hl'' | by apply Hw5]. }
  split; [by rewrite Hf', Hf5 |].
  exists more. rewrite Hc', Hc5. by rewrite <- app_assoc.
Qed.

(** *** The log of the setup *)


Lemma logs_extend_same w w' : logs w' = logs w -> logs_extend w w'.
Proof. intros Hl. exists []. by rewrite app_nil_r. Qed.

Lemma appends_ret {A} (a : A) : appends (mret a).
Proof. intros w. apply logs_extend_refl. Qed.

Lemma appends_bind {A B} (m : Go A) (f : A -> Go B) :
  appends m -> (forall a, appends (f a)) -> appends (m ≫= f).
Proof.
  intros Hm Hf w. unfold mbind, Go_bind. specialize (Hm w).
  destruct (m w) as [[a|msg] w1]; cbn [snd] in *; [|exact Hm].
  eapply logs_extend_trans; [exact Hm | apply Hf].
Qed.

Lemma appends_log lvl msg : appends (log lvl msg).
Proof. intros w. by exists [(lvl, msg)]. Qed.

Lemma appends_os_Open path : appends (os_Open path).
Proof. intros w. unfold os_Open. by repeat case_match; apply logs_extend_same. Qed.

Lemma appends_os_Create path : appends (os_Create path).
Proof. intros w. unfold os_Create. by case_match; apply logs_extend_same. Qed.

Lemma appends_WriteString path s : appends (WriteString path s).
Proof. intros w. by apply logs_extend_same. Qed.

Lemma appends_runCommand name args : appends (runCommand name args).
Proof. intros w. by apply logs_extend_same. Qed.

(** Proves [appends] of a computation built from the operations above. *)
Ltac appends :=
  repeat first
    [ simple apply @appends_ret | simple apply appends_log
    | simple apply appends_os_Open | simple apply appends_os_Create
    | simple apply appends_WriteString | simple apply appends_runCommand
    | simple apply @appends_bind; [|intros ?]
    | progress cbv beta
    | progress unfold readPrefixes, applyNftables, verifyNftables
    | match goal with
      | |- appends (match ?x with _ => _ end) => destruct x
      end ].


End setup_facts.

Lemma commandsRun_app w w' extra :
  commands w' = commands w ++ extra -> commandsRun w w' = extra.
Proof. intros Hc. unfold commandsRun. rewrite Hc. apply drop_app_length. Qed.

Lemma commandsRun_same w w' : commands w' = commands w -> commandsRun w w' = [].
Proof.
  intros Hc. apply commandsRun_app. by rewrite app_nil_r.
Qed.

Lemma firstPort_first lines port :
  firstPort lines = Some port <->
  exists i text, lines !! i = Some text /\ portOfLine text = Some port /\
                 forall j other, (j < i)%nat -> lines !! j = Some other ->
                                 portOfLine other = None.
Proof.
  induction lines as [|text rest IH].
  - split; [done |]. by intros (i & t & Hi & _).
  - rewrite firstPort_cons. destruct (portOfLine text) as [m|] eqn:Hm.
    + split.
      * intros [= <-]. exists 0%nat, text. split; [done |]. split; [done |]. lia.
      * intros ([|i] & t & Hi & Ht & Hbefore).
        -- cbn in Hi. congruence.
        -- specialize (Hbefore 0%nat text ltac:(lia) eq_refl). congruence.
    + rewrite IH. split.
      * intros (i & t & Hi & Ht & Hbefore). exists (S i), t.
        split; [done |]. split; [done |].
        intros [|j] other Hj Ho; [cbn in Ho; congruence |].
        apply (Hbefore j); [lia | done].
      * intros ([|i] & t & Hi & Ht & Hbefore).
        -- cbn in Hi. congruence.
        -- exists i, t. split; [done |]. split; [done |].
           intros j other Hj Ho. apply (Hbefore (S j)); [lia | done].
Qed.


Section setup_claims.
Context `{Library}.

(** C5. When the prefix sets read from both prefix files are empty (a file
    that is missing or empty gives the empty set), the render phase returns
    the error [prefix lists empty], and so does the whole setup; no file is
    created or changed and no command is run. *)
Theorem empty_sets_are_fatal :
  (forall path w,
     files w !! path = None \/ files w !! path = Some "" -> readSet path w = []) /\
  (forall sshdPort w,
     readSet ipv4File w = [] -> readSet ipv6File w = [] ->
     (exists w', initializeNftablesConf sshdPort w
                 = (Done (Some "prefix lists empty"), w') /\
                 files w' = files w /\ commands w' = commands w) /\
     (exists w', startSetupNftables w
                 = (Done (Some "failed to initialize nftables configuration: prefix lists empty"), w') /\
                 files w' = files w /\ commands w' = commands w)).
Proof.
  split.
  - intros path w Hf. unfold readSet. destruct (open_error w path); [done |].
    destruct Hf as [-> | ->]; done.
  - intros sshdPort w E4 E6. split.
    + destruct (initializeNftablesConf_spec sshdPort w)
        as (r & w' & Hi & Hc & _ & _ & Hcase).
      rewrite E4, E6 in Hcase.
      destruct (decide (@nil Prefix = [] /\ @nil Prefix = [])) as [_|[]]; [|done].
      destruct Hcase as [-> Hf]. by exists w'.
    + destruct (startSetupNftables_spec w) as (r & w' & Hs & _ & _ & _ & Hcase).
      rewrite E4, E6 in Hcase.
      destruct (decide (@nil Prefix = [] /\ @nil Prefix = [])) as [_|[]]; [|done].
      destruct Hcase as (-> & Hf & Hc). by exists w'.
Qed.

(** C6. When the command that loads the ruleset fails, [applyNftables]
    returns an error and has run that command only; in every run of
    [applyNftables] the enable command runs, if at all, after a load that
    succeeded; a run of the whole setup in which the load fails never runs
    the enable command and ends with an error. *)
Theorem load_failure_stops_before_enable :
  (forall w err,
     command_error w (commands w) load_command = Some err ->
     exists w', applyNftables w
                = (Done (Some ("failed to apply nftables configuration: " +:+ err)), w') /\
                commandsRun w w' = [load_command] /\
                (enable_command ∉ commandsRun w w')) /\
  (forall w r w',
     applyNftables w = (r, w') ->
     commandsRun w w' = [load_command] \/
     (commandsRun w w' = [load_command; enable_command] /\
      command_error w (commands w) load_command = None)) /\
  (forall w r w',
     startSetupNftables w = (r, w') ->
     is_Some (command_error w (commands w) load_command) ->
     (enable_command ∉ commandsRun w w') /\ exists err, r = Done (Some err)).
Proof.
  split; [|split].
  - intros w err Herr.
    destruct (applyNftables_spec w) as (r & w' & Ha & _ & _ & _ & Hcase).
    rewrite Herr in Hcase. destruct Hcase as [-> Hc].
    exists w'. split; [done |].
    rewrite (commandsRun_app _ _ _ Hc). split; [done |].
    intros Hin. apply list_elem_of_singleton in Hin. discriminate.
  - intros w r w' Hrun.
    destruct (applyNftables_spec w) as (r0 & w0 & Ha & _ & _ & _ & Hcase).
    rewrite Ha in Hrun. injection Hrun as <- <-.
    destruct (command_error w (commands w) load_command) as [err|].
    + left. destruct Hcase as [_ Hc]. by apply commandsRun_app.
    + right. destruct Hcase as [Hc _]. split; [by apply commandsRun_app | done].
  - intros w r w' Hrun [err Herr].
    destruct (startSetupNftables_spec w) as (r0 & w0 & Hs & _ & _ & _ & Hcase).
    rewrite Hs in Hrun. injection Hrun as <- <-.
    destruct (decide (readSet ipv4File w = [] /\ readSet ipv6File w = [])).
    { destruct Hcase as (-> & _ & Hc). rewrite (commandsRun_same _ _ Hc).
      split; [by intros ?%elem_of_nil | by eexists]. }
    destruct (create_error w nftablesConf).
    { destruct Hcase as (-> & _ & Hc). rewrite (commandsRun_same _ _ Hc).
      split; [by intros ?%elem_of_nil | by eexists]. }
    destruct Hcase as [_ Hcase]. rewrite Herr in Hcase.
    destruct Hcase as [-> Hc]. rewrite (commandsRun_app _ _ _ Hc).
    split; [|by eexists].
    intros Hin. apply list_elem_of_singleton in Hin. discriminate.
Qed.

(** C7. Rendering never fails and its result is determined by the port and
    the two prefix lists; two runs of the render phase that read the same
    prefix sets, in whatever worlds, leave the same document. *)
Theorem render_deterministic :
  (forall sshdPort v4 v6, (renderNftablesTemplate sshdPort v4 v6).2 = None) /\
  (forall sshdPort v4 v6 sshdPort' v4' v6',
     sshdPort' = sshdPort -> v4' = v4 -> v6' = v6 ->
     renderNftablesTemplate sshdPort' v4' v6' = renderNftablesTemplate sshdPort v4 v6) /\
  (forall sshdPort w1 w2 w1' w2',
     readSet ipv4File w1 = readSet ipv4File w2 ->
     readSet ipv6File w1 = readSet ipv6File w2 ->
     initializeNftablesConf sshdPort w1 = (Done None, w1') ->
     initializeNftablesConf sshdPort w2 = (Done None, w2') ->
     files w1' !! nftablesConf = files w2' !! nftablesConf /\
     files w1' !! nftablesConf
     = Some (renderNftablesTemplate sshdPort (readSet ipv4File w1)
                                    (readSet ipv6File w1)).1).
Proof.
  split; [done |]. split; [by intros; subst |].
  intros sshdPort w1 w2 w1' w2' E4 E6 H1 H2.
  assert (Hdoc : forall w w',
    initializeNftablesConf sshdPort w = (Done None, w') ->
    files w' !! nftablesConf
    = Some (renderNftablesTemplate sshdPort (readSet ipv4File w)
                                   (readSet ipv6File w)).1).
  { intros w w' Hi.
    destruct (initializeNftablesConf_spec sshdPort w)
      as (r & w0 & Hi0 & _ & _ & _ & Hcase).
    rewrite Hi in Hi0. injection Hi0 as <- <-.
    destruct (decide _); [by destruct Hcase |].
    destruct (create_error w nftablesConf); [by destruct Hcase |].
    destruct Hcase as [_ ->]. apply lookup_insert_eq. }
  rewrite (Hdoc _ _ H1), (Hdoc _ _ H2), E4, E6. done.
Qed.


End setup_claims.

(** ** Fetching *)

Lemma decodeLines_spec body w :
  exists w', decodeLines body w = (Done (omap id body), w') /\ only_logged w w'.
Proof.
  revert w. induction body as [|[record|] rest IH]; intros w.
  - exists w. split; [done | apply only_logged_refl].
  - destruct (IH w) as (w' & Hd & Hf). exists w'. split; [|done].
    cbn [decodeLines omap list_omap id]. by rewrite (bind_Done _ _ _ _ _ Hd).
  - destruct (IH (log WARN "skipping invalid JSON line" w).2) as (w' & Hd & Hf).
    exists w'. split.
    + cbn [decodeLines omap list_omap]. by rewrite (bind_Done _ _ _ _ _ (log_Done _ _ _)).
    + eapply only_logged_trans; [apply log_only_logged | done].
Qed.

Lemma fetched_nil n : fetched n [] = None.
Proof. by destruct n. Qed.

(** One attempt: it takes the next answer, and changes nothing but the
    log. *)
Lemma fetchPrefixes_spec w :
  exists r w',
    fetchPrefixes w = (Done r, w') /\ files w' = files w /\
    commands w' = commands w /\ env_same w w' /\ logs_extend w w' /\
    replies w' = tail (replies w) /\
    match head (replies w) ≫= replyRecords with
    | Some records => r = (records, None)
    | None => r.1 = [] /\ is_Some r.2
    end.
Proof.
  unfold fetchPrefixes. unfold mbind at 1, Go_bind, client_Do.
  destruct w as [fs lg cmds [|a rest] oe ce cmde];
    cbn [files logs commands replies open_error create_error command_error].
  { eexists _, _. split; [reflexivity |]. frame. }
  destruct a as [msg|status body read_err]; cbn [head mbind option_bind replyRecords].
  { eexists _, _. split; [reflexivity |]. frame. }
  destruct (Z.eqb_spec status 200) as [->|Hne]; cbn [negb].
  2:{ eexists _, _. split; [reflexivity |]. destruct read_err; frame. }
  destruct (decodeLines_spec body (mkWorld fs lg cmds rest oe ce cmde))
    as (w1 & Hd & Hf1 & Hc1 & Hr1 & (Ho1 & Hce1 & Hcmd1) & Hl1).
  cbn [files logs commands replies open_error create_error command_error] in *.
  rewrite (bind_Done _ _ _ _ _ Hd).
  destruct read_err as [err|].
  - eexists _, w1. split; [reflexivity |]. frame.
  - eexists _, w1. split; [reflexivity |]. frame.
Qed.

Lemma retryLoop_spec n err w :
  exists r w',
    retryLoop n err w = (Done r, w') /\ files w' = files w /\
    commands w' = commands w /\ env_same w w' /\ logs_extend w w' /\
    match fetched n (replies w) with
    | Some records => r = (records, None)
    | None => r.1 = [] /\ is_Some r.2
    end.
Proof.
  revert err w. induction n as [|n IH]; intros err w.
  { eexists _, w. split; [reflexivity |]. frame. }
  cbn [retryLoop].
  destruct (fetchPrefixes_spec w)
    as ([prefixes e] & w1 & Hf & Hfiles & Hcmds & Henv & Hlogs & Hrep & Hcase).
  rewrite (bind_Done _ _ _ _ _ Hf).
  assert (Hfetched : fetched (S n) (replies w)
                     = match head (replies w) ≫= replyRecords with
                       | Some records => Some records
                       | None => fetched n (tail (replies w))
                       end).
  { destruct (replies w) as [|a rest]; cbn; [by rewrite fetched_nil |].
    by destruct (replyRecords a). }
  rewrite Hfetched.
  destruct (head (replies w) ≫= replyRecords) as [records|].
  { injection Hcase as -> ->. eexists _, w1. split; [reflexivity |]. frame. }
  destruct Hcase as [_ [e' He]]. cbn [snd] in He. subst e.
  rewrite (bind_Done _ _ _ _ _ (log_Done _ _ _)).
  destruct (IH e' (log WARN "fetch failed" w1).2)
    as (r & w2 & Hloop & Hfiles2 & Hcmds2 & Henv2 & Hlogs2 & Hcase2).
  exists r, w2. split; [exact Hloop |].
  split; [by rewrite Hfiles2 |]. split; [by rewrite Hcmds2 |].
  split; [eapply env_same_trans; [exact Henv | exact Henv2] |].
  split.
  { eapply logs_extend_trans; [exact Hlogs |].
    eapply logs_extend_trans; [|exact Hlogs2]. by eexists. }
  cbn [log replies snd] in Hcase2. by rewrite Hrep in Hcase2.
Qed.

(** ** What a writer touches *)

Lemma writePrefixesToFileV4_create_fails l path w err :
  l ≠ [] -> create_error w path = Some err ->
  writePrefixesToFileV4 l path w = (Done (Some ("creating output file: " +:+ err)), w).
Proof.
  intros Hl Hc. unfold writePrefixesToFileV4.
  destruct (decide (length l = 0%nat)) as [H0|_]; [by destruct l |].
  unfold mbind, Go_bind, os_Create. by rewrite Hc.
Qed.

Lemma writePrefixesToFileV6_create_fails l path w err :
  l ≠ [] -> create_error w path = Some err ->
  writePrefixesToFileV6 l path w = (Done (Some ("creating output file: " +:+ err)), w).
Proof.
  intros Hl Hc. unfold writePrefixesToFileV6.
  destruct (decide (length l = 0%nat)) as [H0|_]; [by destruct l |].
  unfold mbind, Go_bind, os_Create. by rewrite Hc.
Qed.

Lemma writePrefixesToFileV4_effect l path w :
  exists r w',
    writePrefixesToFileV4 l path w = (r, w') /\ env_same w w' /\
    (forall other, other ≠ path -> files w' !! other = files w !! other) /\
    (l = [] -> r = Done None /\ files w' = files w).
Proof.
  destruct l as [|p l].
  { destruct (writePrefixesToFileV4_nil path w) as (w' & Hw & Hf & _ & Henv).
    exists (Done None), w'. split; [done |]. split; [done |].
    split; [by intros; rewrite Hf | done]. }
  destruct (create_error w path) as [err|] eqn:Hc.
  { eexists _, w. split.
    - apply (writePrefixesToFileV4_create_fails (p :: l) path w err); done.
    - frame; done. }
  destruct (normalizeV4 (p :: l)) as [out|msg] eqn:Hn.
  - destruct (writePrefixesToFileV4_Done (p :: l) path w out ltac:(done) Hc Hn)
      as (w' & Hw & Hf & _ & Henv).
    eexists _, w'. split; [exact Hw |]. split; [done |]. split; [|done].
    intros other Hne. rewrite Hf. by apply lookup_insert_ne.
  - destruct (writePrefixesToFileV4_Panic (p :: l) path w msg Hc Hn)
      as (w' & Hw & Hf & Henv).
    eexists _, w'. split; [exact Hw |]. split; [done |]. split; [|done].
    intros other Hne. rewrite Hf. by apply lookup_insert_ne.
Qed.

Lemma writePrefixesToFileV6_effect l path w :
  exists err w',
    writePrefixesToFileV6 l path w = (Done err, w') /\ env_same w w' /\
    (forall other, other ≠ path -> files w' !! other = files w !! other) /\
    (l = [] -> err = None /\ files w' = files w).
Proof.
  destruct l as [|p l].
  { destruct (writePrefixesToFileV6_nil path w) as (w' & Hw & Hf & _ & Henv).
    exists None, w'. split; [done |]. split; [done |].
    split; [by intros; rewrite Hf | done]. }
  destruct (create_error w path) as [err|] eqn:Hc.
  { eexists _, w. split.
    - apply (writePrefixesToFileV6_create_fails (p :: l) path w err); done.
    - frame; done. }
  destruct (writePrefixesToFileV6_Done (p :: l) path w ltac:(done) Hc)
    as (w' & Hw & Hf & _ & Henv).
  eexists _, w'. split; [exact Hw |]. split; [done |]. split; [|done].
  intros other Hne. rewrite Hf. by apply lookup_insert_ne.
Qed.

(** What a run of [startFetchPrefixes] leaves of the two prefix files. *)
Lemma startFetchPrefixes_spec asns w :
  exists r w',
    startFetchPrefixes asns w = (r, w') /\
    match fetched retries (replies w) with
    | None => r = Done () /\ files w' = files w
    | Some records =>
        ((filterPrefixesByASN records asns).1 = [] ->
         files w' !! outputFileV4 = files w !! outputFileV4) /\
        ((filterPrefixesByASN records asns).2 = [] ->
         files w' !! outputFileV6 = files w !! outputFileV6)
    end.
Proof.
  unfold startFetchPrefixes, fetchPrefixesWithRetry.
  rewrite (bind_Done _ _ _ _ _ (log_Done _ _ _)).
  set (w0 := (log INFO "starting processing for ASNs" w).2).
  destruct (retryLoop_spec retries "%!w(<nil>)" w0)
    as ([prefixes e] & w1 & Hloop & Hf1 & _ & _ & _ & Hcase).
  rewrite (bind_Done _ _ _ _ _ Hloop).
  change (replies w0) with (replies w) in Hcase.
  change (files w0) with (files w) in Hf1.
  destruct (fetched retries (replies w)) as [records|].
  2:{ destruct Hcase as [_ [e' Hsome]]. cbn [snd] in Hsome. subst e.
      eexists _, _. split; [reflexivity |]. done. }
  injection Hcase as -> ->.
  destruct (filterPrefixesByASN records asns) as [v4 v6]. cbn [fst snd].
  destruct (writePrefixesToFileV4_effect v4 outputFileV4 w1)
    as (r4 & w4 & H4 & _ & Hother4 & Hnil4).
  destruct r4 as [e4|msg].
  2:{ rewrite (bind_Panic _ _ _ _ _ H4). eexists _, w4. split; [reflexivity |].
      split; [by intros [? _]%Hnil4 |].
      intros _. rewrite Hother4 by done. by rewrite Hf1. }
  rewrite (bind_Done _ _ _ _ _ H4).
  match goal with
  | |- context [(?m ≫= _) w4] =>
      assert (exists w5, m w4 = (Done (), w5) /\ files w5 = files w4)
        as (w5 & H5 & Hf5) by (destruct e4; by eexists)
  end.
  rewrite (bind_Done _ _ _ _ _ H5).
  destruct (writePrefixesToFileV6_effect v6 outputFileV6 w5)
    as (e6 & w6 & H6 & _ & Hother6 & Hnil6).
  rewrite (bind_Done _ _ _ _ _ H6).
  match goal with
  | |- context [(?m ≫= _) w6] =>
      assert (exists w7, m w6 = (Done (), w7) /\ files w7 = files w6)
        as (w7 & H7 & Hf7) by (destruct e6; by eexists)
  end.
  rewrite (bind_Done _ _ _ _ _ H7).
  eexists _, _. split; [reflexivity |]. cbn [log files snd]. split.
  - intros Hv4. destruct (Hnil4 Hv4) as [_ Hf4].
    rewrite Hf7, Hother6 by done. by rewrite Hf5, Hf4, Hf1.
  - intros Hv6. destruct (Hnil6 Hv6) as [_ Hf6].
    rewrite Hf7, Hf6, Hf5, Hother4 by done. by rewrite Hf1.
Qed.

(** C10. On an empty input each writer returns success and leaves every file
    as it is; within [startFetchPrefixes] an address family without blocks
    leaves the prefix file of that family as it is; and when every attempt to
    fetch fails, [startFetchPrefixes] leaves every file as it is. *)
Theorem untouched_prefix_files :
  (forall path w,
     exists w', writePrefixesToFileV4 [] path w = (Done None, w') /\
                files w' = files w) /\
  (forall path w,
     exists w', writePrefixesToFileV6 [] path w = (Done None, w') /\
                files w' = files w) /\
  (forall asns w records,
     fetched retries (replies w) = Some records ->
     exists r w',
       startFetchPrefixes asns w = (r, w') /\
       ((filterPrefixesByASN records asns).1 = [] ->
        files w' !! outputFileV4 = files w !! outputFileV4) /\
       ((filterPrefixesByASN records asns).2 = [] ->
        files w' !! outputFileV6 = files w !! outputFileV6)) /\
  (forall asns w,
     fetched retries (replies w) = None ->
     exists w', startFetchPrefixes asns w = (Done (), w') /\ files w' = files w).
Proof.
  split; [|split; [|split]].
  - intros path w. destruct (writePrefixesToFileV4_nil path w) as (w' & ? & ? & _).
    by exists w'.
  - intros path w. destruct (writePrefixesToFileV6_nil path w) as (w' & ? & ? & _).
    by exists w'.
  - intros asns w records Hrec.
    destruct (startFetchPrefixes_spec asns w) as (r & w' & Hs & Hcase).
    rewrite Hrec in Hcase. by exists r, w'.
  - intros asns w Hnone.
    destruct (startFetchPrefixes_spec asns w) as (r & w' & Hs & Hcase).
    rewrite Hnone in Hcase. destruct Hcase as [-> Hf]. by exists w'.
Qed.

(** ** The setup properties on concrete worlds *)

Lemma empty_sets_are_fatal_witness :
  (@readSet ascii_library ipv4File quiet = [] /\
   @readSet ascii_library ipv6File quiet = []) /\
  exists w',
    @startSetupNftables ascii_library quiet
    = (Done (Some "failed to initialize nftables configuration: prefix lists empty"), w') /\
    files w' = files quiet /\ commands w' = commands quiet.
Proof.
  assert (H4 : @readSet ascii_library ipv4File quiet = []) by reflexivity.
  assert (H6 : @readSet ascii_library ipv6File quiet = []) by reflexivity.
  split; [exact (conj H4 H6) |].
  exact (proj2 (proj2 (@empty_sets_are_fatal ascii_library) 22 quiet H4 H6)).
Defined.

Lemma load_failure_stops_before_enable_witness :
  command_error load_fails (commands load_fails) load_command = Some "exit status 1" /\
  exists w',
    applyNftables load_fails
    = (Done (Some ("failed to apply nftables configuration: " +:+ "exit status 1")), w') /\
    commandsRun load_fails w' = [load_command] /\
    enable_command ∉ commandsRun load_fails w'.
Proof.
  assert (H1 : command_error load_fails (commands load_fails) load_command
               = Some "exit status 1") by reflexivity.
  split; [exact H1 |].
  exact (proj1 (@load_failure_stops_before_enable ascii_library)
           load_fails "exit status 1" H1).
Defined.

Lemma render_deterministic_witness :
  (@readSet ascii_library ipv4File configured = @readSet ascii_library ipv4File load_fails /\
   @readSet ascii_library ipv6File configured = @readSet ascii_library ipv6File load_fails /\
   (@initializeNftablesConf ascii_library 2222 configured).1 = Done None /\
   (@initializeNftablesConf ascii_library 2222 load_fails).1 = Done None) /\
  files (@initializeNftablesConf ascii_library 2222 configured).2 !! nftablesConf
  = files (@initializeNftablesConf ascii_library 2222 load_fails).2 !! nftablesConf.
Proof.
  assert (E4 : @readSet ascii_library ipv4File configured
               = @readSet ascii_library ipv4File load_fails) by reflexivity.
  assert (E6 : @readSet ascii_library ipv6File configured
               = @readSet ascii_library ipv6File load_fails) by reflexivity.
  assert (H1 : (@initializeNftablesConf ascii_library 2222 configured).1 = Done None)
    by (vm_compute; reflexivity).
  assert (H2 : (@initializeNftablesConf ascii_library 2222 load_fails).1 = Done None)
    by (vm_compute; reflexivity).
  split; [exact (conj E4 (conj E6 (conj H1 H2))) |].
  refine (proj1 (proj2 (proj2 (@render_deterministic ascii_library))
                   2222 configured load_fails _ _ E4 E6 _ _)).
  - rewrite <- H1. apply surjective_pairing.
  - rewrite <- H2. apply surjective_pairing.
Defined.



Lemma untouched_prefix_files_witness :
  fetched retries (replies upstream_down) = None /\
  exists w', startFetchPrefixes [64500] upstream_down = (Done (), w') /\
             files w' = files upstream_down.
Proof.
  assert (H1 : fetched retries (replies upstream_down) = None) by reflexivity.
  split; [exact H1 |].
  exact (proj2 (proj2 (proj2 untouched_prefix_files)) [64500] upstream_down H1).
Defined.

(** ** The scenarios of the specification, run on the model *)

Example scenario_A :
  filterPrefixesByASN [mkRecord v4_doc_23 64500] [64500] = ([v4_doc_23], []) /\
  normalizeV4 [v4_doc_23]
  = Done [mkPrefix (ip4 198 51 100 0) 24; mkPrefix (ip4 198 51 101 0) 24] /\
  linesText [mkPrefix (ip4 198 51 100 0) 24; mkPrefix (ip4 198 51 101 0) 24]
  = "198.51.100.0/24" +:+ nl +:+ "198.51.101.0/24" +:+ nl.
Proof. repeat split; vm_compute; reflexivity. Qed.

Example scenario_D :
  discoveredPort configured = 2222 /\
  exists w', findSSHPort configured = (Done (2222, None), w').
Proof. split; [vm_compute; reflexivity |]. eexists. vm_compute. reflexivity. Qed.

(** * Further properties of the code *)

(** ** Classification by ASN *)

(** X1. [filterPrefixesByASN] returns, in the order of the input, the blocks of
    the records whose ASN is listed: the IPv4 blocks in its first result, the
    IPv6 blocks in its second; records of other ASNs and records without an
    address are left out. *)
Theorem filterPrefixesByASN_partition :
  forall prefixes asns,
    (filterPrefixesByASN prefixes asns).1
    = CIDR <$> filter (fun r => ASN r ∈ asns /\ Is4 (Addr_of (CIDR r)) = true) prefixes /\
    (filterPrefixesByASN prefixes asns).2
    = CIDR <$> filter (fun r => ASN r ∈ asns /\ Is6 (Addr_of (CIDR r)) = true) prefixes.
Proof.
  intros prefixes asns. unfold filterPrefixesByASN.
  induction prefixes as [|r rest [IH4 IH6]]; [done |].
  cbn [filterLoop].
  destruct (filterLoop (list_to_set asns) rest) as [v4 v6]. cbn [fst snd] in IH4, IH6.
  rewrite !filter_cons.
  destruct (decide (ASN r ∈ (list_to_set asns : gset Z))) as [Hin|Hnin].
  - apply elem_of_list_to_set in Hin.
    destruct (Addr_of (CIDR r)) eqn:Hip; cbn [Is4 Is6 fst snd].
    + rewrite !decide_False by (by intros [_ ?]). done.
    + rewrite decide_True by done. rewrite decide_False by (by intros [_ ?]).
      cbn [fmap list_fmap fst snd]. by rewrite IH4.
    + rewrite decide_False by (by intros [_ ?]). rewrite decide_True by done.
      cbn [fmap list_fmap fst snd]. by rewrite IH6.
  - rewrite elem_of_list_to_set in Hnin.
    rewrite !decide_False by (by intros [? _]). done.
Qed.

(** ** Addresses as integers *)

(** X2. Turning an address into an integer and back gives the address again:
    [intToIP] after [ipToInt] on IPv4, and [AddrFromSlice] after [AsSlice] on
    both families. *)
Theorem address_round_trip :
  (forall a, 0 <= a < 2 ^ 32 ->
     intToIP (ipToInt (IPv4 a)) = Done (IPv4 a) /\
     AddrFromSlice (AsSlice (IPv4 a)) = Some (IPv4 a)) /\
  (forall a, 0 <= a < 2 ^ 128 ->
     AddrFromSlice (AsSlice (IPv6 a)) = Some (IPv6 a)).
Proof.
  split.
  - intros a Ha. rewrite ipToInt_IPv4 by done. split; [by apply intToIP_IPv4 |].
    unfold AddrFromSlice, AsSlice. rewrite be_bytes_length.
    by rewrite SetBytes_be_bytes.
  - intros a Ha. unfold AddrFromSlice, AsSlice. rewrite be_bytes_length.
    by rewrite SetBytes_be_bytes.
Qed.

Lemma address_round_trip_witness :
  0 <= 3325256704 < 2 ^ 32 /\
  intToIP (ipToInt (IPv4 3325256704)) = Done (IPv4 3325256704).
Proof.
  assert (H : 0 <= 3325256704 < 2 ^ 32) by lia.
  split; [exact H |]. exact (proj1 (proj1 address_round_trip 3325256704 H)).
Defined.

(** ** Decomposition of a block whose address has host bits set *)

Lemma splitLoop_fits n a :
  0 <= a -> (n = 0%nat \/ a + 256 * (Z.of_nat n - 1) < 2 ^ 32) ->
  splitLoop n a = Done (blocks24 a n).
Proof.
  revert a. induction n as [|n IH]; intros a Ha Hn; [done |].
  destruct Hn as [|Hn]; [done |].
  cbn [splitLoop]. rewrite intToIP_IPv4 by lia.
  cbn [mbind outcome_bind]. unfold incrementIPBy24.
  change (Z.shiftl 1 8) with 256.
  rewrite IH; [by rewrite blocks24_S | lia |].
  destruct n; [by left | right; lia].
Qed.

Lemma splitLoop_overflow n a :
  0 <= a -> (0 < n)%nat -> 2 ^ 32 <= a + 256 * (Z.of_nat n - 1) ->
  splitLoop n a = Panic "math/big: buffer too small to fit value".
Proof.
  revert a. induction n as [|n IH]; intros a Ha Hn Hover; [lia |].
  cbn [splitLoop].
  destruct (Z.lt_ge_cases a (2 ^ 32)) as [Hlt|Hge].
  - rewrite intToIP_IPv4 by lia. cbn [mbind outcome_bind].
    unfold incrementIPBy24. change (Z.shiftl 1 8) with 256.
    rewrite IH; [done | lia | lia | lia].
  - by rewrite intToIP_overflow.
Qed.

(** X3. For an IPv4 block shorter than 24 bits, whatever its address:
    [processPrefixTo24] counts up from the address as given, so the low bits
    of the address are carried into every block; it returns when the last
    block's address still fits 32 bits and panics in [FillBytes]
    otherwise. *)
Theorem processPrefixTo24_any_address :
  forall a b, 0 <= b < 24 -> 0 <= a < 2 ^ 32 ->
    (a + 256 * (2 ^ (24 - b) - 1) < 2 ^ 32 ->
     processPrefixTo24 (mkPrefix (IPv4 a) b)
     = Done (blocks24 a (Z.to_nat (2 ^ (24 - b))))) /\
    (2 ^ 32 <= a + 256 * (2 ^ (24 - b) - 1) ->
     processPrefixTo24 (mkPrefix (IPv4 a) b)
     = Panic "math/big: buffer too small to fit value").
Proof.
  intros a b Hb Ha.
  assert (Hpow : 0 < 2 ^ (24 - b) <= 2 ^ 24).
  { split; [apply Z.pow_pos_nonneg; lia | apply Z.pow_le_mono_r; lia]. }
  assert (Hrun : processPrefixTo24 (mkPrefix (IPv4 a) b)
                 = splitLoop (Z.to_nat (2 ^ (24 - b))) a).
  { unfold processPrefixTo24. cbn [Bits Addr_of].
    destruct (Z.eqb_spec b 24) as [|_]; [lia |].
    unfold shl_int. destruct (Z.ltb_spec (24 - b) 0) as [|_]; [lia |].
    cbn [mbind outcome_bind]. rewrite Z.shiftl_1_l.
    rewrite wrap_int_small by lia.
    destruct (Z.ltb_spec (2 ^ (24 - b)) 0) as [|_]; [lia |].
    by rewrite ipToInt_IPv4. }
  rewrite Hrun. split; intros Hlast.
  - apply splitLoop_fits; [lia |]. right. rewrite Z2Nat.id by lia. done.
  - apply splitLoop_overflow; [lia | lia |]. rewrite Z2Nat.id by lia. done.
Qed.

Lemma processPrefixTo24_any_address_witness :
  (0 <= 8 < 24 /\ 0 <= 4286578688 < 2 ^ 32 /\
   2 ^ 32 <= 4286578688 + 256 * (2 ^ (24 - 8) - 1)) /\
  processPrefixTo24 (mkPrefix (ip4 255 128 0 0) 8)
  = Panic "math/big: buffer too small to fit value".
Proof.
  assert (H1 : 0 <= 8 < 24) by lia.
  assert (H2 : 0 <= 4286578688 < 2 ^ 32) by lia.
  assert (H3 : 2 ^ 32 <= 4286578688 + 256 * (2 ^ (24 - 8) - 1)) by (vm_compute; discriminate).
  split; [exact (conj H1 (conj H2 H3)) |].
  exact (proj2 (processPrefixTo24_any_address 4286578688 8 H1 H2) H3).
Defined.

(** ** The comparator *)

(** X4. [prefixCompare] is a lawful three-way comparison: its value is [-1], [0]
    or [1]; it is [0] exactly on equal prefixes; swapping the arguments
    negates it; and it is transitive. *)
Theorem prefixCompare_lawful :
  (forall a b, prefixCompare a b = -1 \/ prefixCompare a b = 0 \/ prefixCompare a b = 1) /\
  (forall a b, prefixCompare a b = 0 <-> a = b) /\
  (forall a b, prefixCompare b a = - prefixCompare a b) /\
  (forall a b c, prefixCompare a b <= 0 -> prefixCompare b c <= 0 ->
                 prefixCompare a c <= 0) /\
  (forall a b c, prefixCompare a b < 0 -> prefixCompare b c < 0 ->
                 prefixCompare a c < 0).
Proof.
  split; [|split; [|split; [|split]]].
  - intros a b. cmp_cases; lia.
  - apply prefixCompare_eq.
  - intros a b. cmp_cases; lia.
  - intros a b c. apply cmp_le_trans.
  - intros a b c. apply cmp_lt_trans.
Qed.

Lemma prefixCompare_lawful_witness :
  (prefixCompare v6_doc_32 v6_doc_48 <= 0 /\ prefixCompare v6_doc_48 v6_doc_48 <= 0) /\
  prefixCompare v6_doc_32 v6_doc_48 <= 0.
Proof.
  assert (H1 : prefixCompare v6_doc_32 v6_doc_48 <= 0) by (vm_compute; discriminate).
  assert (H2 : prefixCompare v6_doc_48 v6_doc_48 <= 0) by (vm_compute; discriminate).
  split; [exact (conj H1 H2) |].
  exact (proj1 (proj2 (proj2 (proj2 prefixCompare_lawful))) _ _ _ H1 H2).
Defined.

(** ** The set of blocks written for IPv4 *)

Lemma collectUnique_blocksOf l S S' :
  collectUnique l S = Done S' -> S' = list_to_set (l ≫= blocksOf) ∪ S.
Proof.
  revert S. induction l as [|p l IH]; intros S.
  - intros [= <-]. cbn. by rewrite (left_id_L ∅ (∪)).
  - cbn [collectUnique].
    destruct (processPrefixTo24 p) as [out|] eqn:Hp; [|done].
    assert (Hb : blocksOf p = out) by (unfold blocksOf; by rewrite Hp).
    cbn [mbind outcome_bind]. intros Hl. rewrite (IH _ Hl).
    rewrite bind_cons, Hb, list_to_set_app_L. set_solver.
Qed.

Lemma collectUnique_Done_iff l S :
  (exists S', collectUnique l S = Done S') <->
  Forall (fun p => exists out, processPrefixTo24 p = Done out) l.
Proof.
  revert S. induction l as [|p l IH]; intros S.
  - split; [constructor | by eexists].
  - cbn [collectUnique]. rewrite Forall_cons.
    destruct (processPrefixTo24 p) as [out|msg]; cbn [mbind outcome_bind].
    + rewrite IH. split; [intros Hl; split; [by eexists | done] | by intros [_ Hl]].
    + split; [by intros [S' ?] | by intros [[out ?] _]].
Qed.

Lemma normalizeV4_elem l out :
  normalizeV4 l = Done out ->
  forall q, q ∈ out <-> exists p, p ∈ l /\ q ∈ blocksOf p.
Proof.
  unfold normalizeV4. destruct (collectUnique l ∅) as [S|] eqn:HS; [|done].
  cbn [mbind outcome_bind mret outcome_ret]. intros [= <-] q.
  rewrite SortFunc_Permutation, elem_of_elements.
  rewrite (collectUnique_blocksOf _ _ _ HS), (right_id_L ∅ (∪)).
  rewrite elem_of_list_to_set, list_elem_of_bind. naive_solver.
Qed.

(** X5. The result of the IPv4 normalization depends only on which blocks are
    given, not on how often or in which order: two inputs with the same
    elements give the same sequence, or both make the decomposition panic. *)
Theorem normalizeV4_depends_on_set :
  forall l1 l2, (forall p, p ∈ l1 <-> p ∈ l2) ->
    agree (normalizeV4 l1) (normalizeV4 l2).
Proof.
  intros l1 l2 Hsame.
  assert (Hall : Forall (fun p => exists out, processPrefixTo24 p = Done out) l1 <->
                 Forall (fun p => exists out, processPrefixTo24 p = Done out) l2).
  { rewrite !Forall_forall. split; intros Hl p Hp; apply Hl; by apply Hsame. }
  rewrite <- !(collectUnique_Done_iff _ ∅) in Hall.
  unfold normalizeV4, agree.
  destruct (collectUnique l1 ∅) as [S1|] eqn:H1, (collectUnique l2 ∅) as [S2|] eqn:H2;
    cbn [mbind outcome_bind mret outcome_ret]; try done.
  - f_equal. f_equal.
    rewrite (collectUnique_blocksOf _ _ _ H1), (collectUnique_blocksOf _ _ _ H2).
    f_equal. apply set_eq. intros q.
    rewrite !elem_of_list_to_set, !list_elem_of_bind.
    split; intros (p & Hq & Hp); exists p; (split; [done | by apply Hsame]).
  - destruct (proj1 Hall) as [S' ?]; [by eexists | done].
  - destruct (proj2 Hall) as [S' ?]; [by eexists | done].
Qed.

Lemma normalizeV4_depends_on_set_witness :
  (forall p, p ∈ [v4_doc_23; v4_doc_23; mkPrefix (ip4 198 51 101 0) 24]
             <-> p ∈ [mkPrefix (ip4 198 51 101 0) 24; v4_doc_23]) /\
  agree (normalizeV4 [v4_doc_23; v4_doc_23; mkPrefix (ip4 198 51 101 0) 24])
        (normalizeV4 [mkPrefix (ip4 198 51 101 0) 24; v4_doc_23]).
Proof.
  assert (H : forall p, p ∈ [v4_doc_23; v4_doc_23; mkPrefix (ip4 198 51 101 0) 24]
                        <-> p ∈ [mkPrefix (ip4 198 51 101 0) 24; v4_doc_23]).
  { intros p. rewrite !elem_of_cons, !elem_of_nil. tauto. }
  split; [exact H |]. exact (normalizeV4_depends_on_set _ _ H).
Defined.

(** ** Coverage of a list of blocks *)

(** The blocks of one network block: they cover what it covers, and each is
    an IPv4 block of length 24 at a multiple of 256. *)
Lemma network_block_cover p :
  network_block p ->
  (forall x, Contains p x = true <->
             exists q, q ∈ blocksOf p /\ Contains q x = true) /\
  Forall (fun q => exists v, q = mkPrefix (IPv4 v) 24 /\ v mod 256 = 0) (blocksOf p).
Proof.
  intros (a & b & -> & Hb & Ha & Hm). unfold blocksOf.
  assert (Ha256 : a mod 256 = 0) by (apply (masked_mod_256 a b); [lia | done]).
  destruct (decide (b = 24)) as [->|Hne].
  { rewrite processPrefixTo24_24. split.
    - intros x. split; [intros Hx; eexists; split; [apply list_elem_of_here | done] |].
      by intros (q & ->%list_elem_of_singleton & Hx).
    - repeat constructor. by exists a. }
  assert (Hb' : 0 <= b < 24) by lia.
  assert (Hpow : 0 < 2 ^ (24 - b)) by (apply Z.pow_pos_nonneg; lia).
  rewrite (processPrefixTo24_split a b Hb' Ha Hm).
  assert (Hin : forall q, q ∈ blocks24 a (Z.to_nat (2 ^ (24 - b))) <->
    exists i, 0 <= i < 2 ^ (24 - b) /\ q = mkPrefix (IPv4 (a + 256 * i)) 24).
  { intros q. rewrite elem_of_blocks24, Z2Nat.id by lia. done. }
  split.
  - intros x. split.
    + intros Hx. destruct (Contains_is_IPv4 _ _ _ Hx) as [v ->].
      apply Contains_IPv4_range in Hx; [|lia | done].
      rewrite pow_split in Hx by lia.
      exists (mkPrefix (IPv4 (a + 256 * ((v - a) / 256))) 24). split.
      * apply Hin. exists ((v - a) / 256). split; [|done].
        split; [apply Z.div_pos; lia | apply Z.div_lt_upper_bound; lia].
      * apply block24_range; [done |].
        pose proof (Z.div_mod (v - a) 256 ltac:(lia)).
        pose proof (Z.mod_pos_bound (v - a) 256 ltac:(lia)). lia.
    + intros (q & Hq & Hx). apply Hin in Hq as (i & Hi & ->).
      destruct (Contains_is_IPv4 _ _ _ Hx) as [v ->].
      apply block24_range in Hx; [|done].
      apply Contains_IPv4_range; [lia | done |].
      rewrite pow_split by lia. nia.
  - apply Forall_forall. intros q (i & Hi & ->)%Hin. eexists. split; [done |].
    rewrite (Z.mul_comm 256 i), Z.mod_add by lia. done.
Qed.

Lemma aligned24_disjoint v1 v2 x :
  v1 mod 256 = 0 -> v2 mod 256 = 0 ->
  Contains (mkPrefix (IPv4 v1) 24) x = true ->
  Contains (mkPrefix (IPv4 v2) 24) x = true -> v1 = v2.
Proof.
  intros H1 H2 Hx1 Hx2. destruct (Contains_is_IPv4 _ _ _ Hx1) as [v ->].
  apply Contains_IPv4_range in Hx1; [|lia | done].
  apply Contains_IPv4_range in Hx2; [|lia | done].
  change (2 ^ (32 - 24)) with 256 in *.
  pose proof (Z.div_mod v1 256 ltac:(lia)). pose proof (Z.div_mod v2 256 ltac:(lia)).
  lia.
Qed.

(** X6. For a list of network blocks, the blocks written for IPv4 cover exactly
    the addresses the given blocks cover, and no address lies in two of
    them. *)
Theorem normalizeV4_covers :
  forall l out, Forall network_block l -> normalizeV4 l = Done out ->
    (forall x, (exists p, p ∈ l /\ Contains p x = true) <->
               (exists q, q ∈ out /\ Contains q x = true)) /\
    (forall x q1 q2, q1 ∈ out -> q2 ∈ out ->
       Contains q1 x = true -> Contains q2 x = true -> q1 = q2).
Proof.
  intros l out Hl Hn. rewrite Forall_forall in Hl.
  pose proof (normalizeV4_elem l out Hn) as Hout. split.
  - intros x. split.
    + intros (p & Hp & Hx).
      destruct (network_block_cover p (Hl p Hp)) as [Hcov _].
      apply Hcov in Hx as (q & Hq & Hx). exists q. split; [|done].
      apply Hout. by exists p.
    + intros (q & Hq & Hx). apply Hout in Hq as (p & Hp & Hq).
      exists p. split; [done |].
      destruct (network_block_cover p (Hl p Hp)) as [Hcov _].
      apply Hcov. by exists q.
  - intros x q1 q2 Hq1 Hq2 Hx1 Hx2.
    apply Hout in Hq1 as (p1 & Hp1 & Hq1). apply Hout in Hq2 as (p2 & Hp2 & Hq2).
    destruct (network_block_cover p1 (Hl p1 Hp1)) as [_ Hal1].
    destruct (network_block_cover p2 (Hl p2 Hp2)) as [_ Hal2].
    rewrite Forall_forall in Hal1, Hal2.
    destruct (Hal1 q1 Hq1) as (v1 & -> & Hv1).
    destruct (Hal2 q2 Hq2) as (v2 & -> & Hv2).
    by rewrite (aligned24_disjoint v1 v2 x Hv1 Hv2 Hx1 Hx2).
Qed.

Lemma normalizeV4_covers_witness :
  (Forall network_block [v4_doc_23; mkPrefix (ip4 198 51 101 0) 24] /\
   normalizeV4 [v4_doc_23; mkPrefix (ip4 198 51 101 0) 24]
   = Done [mkPrefix (ip4 198 51 100 0) 24; mkPrefix (ip4 198 51 101 0) 24]) /\
  forall x q1 q2,
    q1 ∈ [mkPrefix (ip4 198 51 100 0) 24; mkPrefix (ip4 198 51 101 0) 24] ->
    q2 ∈ [mkPrefix (ip4 198 51 100 0) 24; mkPrefix (ip4 198 51 101 0) 24] ->
    Contains q1 x = true -> Contains q2 x = true -> q1 = q2.
Proof.
  assert (H1 : Forall network_block [v4_doc_23; mkPrefix (ip4 198 51 101 0) 24]).
  { repeat constructor.
    - exists 3325256704, 23. repeat split; try lia; reflexivity.
    - exists 3325256960, 24. repeat split; try lia; reflexivity. }
  assert (H2 : normalizeV4 [v4_doc_23; mkPrefix (ip4 198 51 101 0) 24]
               = Done [mkPrefix (ip4 198 51 100 0) 24; mkPrefix (ip4 198 51 101 0) 24])
    by (vm_compute; reflexivity).
  split; [exact (conj H1 H2) |].
  exact (proj2 (normalizeV4_covers _ _ H1 H2)).
Defined.

(** ** One attempt to fetch *)

Lemma decodeLines_logs body w :
  exists w', decodeLines body w = (Done (omap id body), w') /\ only_logged w w' /\
             logs w' = logs w ++ replicate (malformed body) skip_warning.
Proof.
  revert w. induction body as [|[record|] rest IH]; intros w.
  - exists w. split; [done |]. split; [apply only_logged_refl |].
    cbn. by rewrite app_nil_r.
  - destruct (IH w) as (w' & Hd & Hf & Hl). exists w'. split; [|done].
    cbn [decodeLines omap list_omap id]. by rewrite (bind_Done _ _ _ _ _ Hd).
  - destruct (IH (log WARN "skipping invalid JSON line" w).2) as (w' & Hd & Hf & Hl).
    exists w'. split; [|split].
    + cbn [decodeLines omap list_omap]. by rewrite (bind_Done _ _ _ _ _ (log_Done _ _ _)).
    + eapply only_logged_trans; [apply log_only_logged | done].
    + rewrite Hl. cbn [log logs snd malformed replicate]. by rewrite <- app_assoc.
Qed.

(** X7. What one attempt makes of the answer it gets.  A transport error and a
    status other than 200 are errors and log nothing.  With status 200 every
    malformed line is logged and left out; the records of the other lines
    are returned in order, unless reading the body ended with an error, in
    which case all of them are dropped. *)
Theorem fetchPrefixes_outcomes :
  forall w reply rest, replies w = reply :: rest ->
    exists r w',
      fetchPrefixes w = (Done r, w') /\ files w' = files w /\ replies w' = rest /\
      match reply with
      | DoError msg => r = ([], Some ("making request: " +:+ msg)) /\ logs w' = logs w
      | Response status body read_err =>
          if status =? 200 then
            logs w' = logs w ++ replicate (malformed body) skip_warning /\
            r = match read_err with
                | Some err => ([], Some ("reading response body: " +:+ err))
                | None => (omap id body, None)
                end
          else
            r = ([], Some ("received non-200 status code: " +:+ pretty status)) /\
            logs w' = logs w
      end.
Proof.
  intros w reply rest Hr. unfold fetchPrefixes.
  unfold mbind at 1, Go_bind, client_Do. rewrite Hr.
  set (w0 := mkWorld (files w) (logs w) (commands w) rest (open_error w)
                     (create_error w) (command_error w)).
  destruct reply as [msg|status body read_err].
  { eexists _, w0. split; [reflexivity |]. done. }
  destruct (Z.eqb_spec status 200) as [->|Hne]; cbn [negb].
  2:{ eexists _, w0. split; [reflexivity |]. done. }
  destruct (decodeLines_logs body w0) as (w1 & Hd & (Hf1 & _ & Hr1 & _) & Hl1).
  rewrite (bind_Done _ _ _ _ _ Hd).
  destruct read_err as [err|]; eexists _, w1; (split; [reflexivity |]); done.
Qed.

Lemma fetchPrefixes_outcomes_witness :
  replies (mkWorld ∅ [] [] [Response 200 [None; Some (mkRecord v4_doc_23 64500)] None]
             (fun _ => None) (fun _ => None) (fun _ _ => None))
  = [Response 200 [None; Some (mkRecord v4_doc_23 64500)] None] /\
  exists w',
    fetchPrefixes (mkWorld ∅ [] [] [Response 200 [None; Some (mkRecord v4_doc_23 64500)] None]
                     (fun _ => None) (fun _ => None) (fun _ _ => None))
    = (Done ([mkRecord v4_doc_23 64500], None), w') /\
    logs w' = [skip_warning].
Proof.
  split; [reflexivity |].
  destruct (fetchPrefixes_outcomes
              (mkWorld ∅ [] [] [Response 200 [None; Some (mkRecord v4_doc_23 64500)] None]
                 (fun _ => None) (fun _ => None) (fun _ _ => None))
              _ _ eq_refl) as (r & w' & Hf & _ & _ & Hl & Hr).
  exists w'. split; [by rewrite Hf, Hr | exact Hl].
Defined.

(** ** The retry loop *)

Lemma answersUsed_le n answers : (answersUsed n answers <= n)%nat.
Proof.
  revert answers. induction n as [|n IH]; intros [|r rest]; cbn; try lia.
  destruct (replyRecords r); [lia |]. specialize (IH rest). lia.
Qed.

Lemma retryLoop_replies n err w :
  exists r w',
    retryLoop n err w = (Done r, w') /\
    replies w' = drop (answersUsed n (replies w)) (replies w).
Proof.
  revert err w. induction n as [|n IH]; intros err w.
  { eexists _, w. split; [reflexivity |]. by destruct (replies w). }
  cbn [retryLoop].
  destruct (fetchPrefixes_spec w)
    as ([prefixes e] & w1 & Hf & _ & _ & _ & _ & Hrep & Hcase).
  rewrite (bind_Done _ _ _ _ _ Hf).
  destruct (replies w) as [|a rest] eqn:Hw; cbn [head tail mbind option_bind] in *.
  - destruct Hcase as [_ [e' He]]. cbn [snd] in He. subst e.
    rewrite (bind_Done _ _ _ _ _ (log_Done _ _ _)).
    destruct (IH e' (log WARN "fetch failed" w1).2) as (r & w2 & Hloop & Hrep2).
    exists r, w2. split; [exact Hloop |].
    cbn [log replies snd] in Hrep2. rewrite Hrep2, Hrep. by destruct n.
  - cbn [answersUsed]. destruct (replyRecords a) as [records|].
    + injection Hcase as -> ->. eexists _, w1. split; [reflexivity |]. by rewrite Hrep.
    + destruct Hcase as [_ [e' He]]. cbn [snd] in He. subst e.
      rewrite (bind_Done _ _ _ _ _ (log_Done _ _ _)).
      destruct (IH e' (log WARN "fetch failed" w1).2) as (r & w2 & Hloop & Hrep2).
      exists r, w2. split; [exact Hloop |].
      cbn [log replies snd] in Hrep2. by rewrite Hrep2, Hrep.
Qed.

(** X8. [fetchPrefixesWithRetry] stops at the first attempt that succeeds and
    returns its records; it takes no more answers from the upstream than the
    number of retries; when no attempt among them succeeds it returns an
    error and no records.  It leaves the files as they are. *)
Theorem fetchPrefixesWithRetry_bounded :
  forall n w, exists r w',
    fetchPrefixesWithRetry n w = (Done r, w') /\
    replies w' = drop (answersUsed n (replies w)) (replies w) /\
    (answersUsed n (replies w) <= n)%nat /\
    files w' = files w /\
    match fetched n (replies w) with
    | Some records => r = (records, None)
    | None => r.1 = [] /\ is_Some r.2
    end.
Proof.
  intros n w. unfold fetchPrefixesWithRetry.
  destruct (retryLoop_spec n "%!w(<nil>)" w) as (r & w' & Hloop & Hf & _ & _ & _ & Hcase).
  destruct (retryLoop_replies n "%!w(<nil>)" w) as (r2 & w2 & Hloop2 & Hrep).
  rewrite Hloop in Hloop2. injection Hloop2 as <- <-.
  exists r, w'. split; [done |]. split; [done |].
  split; [apply answersUsed_le | done].
Qed.

(** ** The port is a 16-bit number *)

Lemma take_while_all f s : all_chars f (take_while f s) = true.
Proof.
  induction s as [|c s IH]; [done |]. cbn [take_while].
  destruct (f c) eqn:Hc; [|done]. cbn [all_chars]. by rewrite Hc, IH.
Qed.

Lemma decimal_nonneg s acc :
  all_chars is_digit s = true -> 0 <= acc -> 0 <= decimal acc s.
Proof.
  revert acc. induction s as [|c s IH]; intros acc Hs Hacc; [done |].
  cbn [all_chars] in Hs. apply andb_true_iff in Hs as [Hc Hs].
  cbn [decimal]. apply IH; [done |].
  unfold is_digit in Hc. apply andb_true_iff in Hc as [Hlo _].
  apply N.leb_le in Hlo. lia.
Qed.

Lemma FindStringSubmatch_digits line d :
  FindStringSubmatch line = Some d -> all_chars is_digit d = true /\ d ≠ "".
Proof.
  unfold FindStringSubmatch. destruct (strip_prefix "Port" line) as [rest|]; [|done].
  cbn [mbind option_bind].
  destruct (String.eqb (take_while is_space rest) ""); [done |].
  destruct (String.eqb_spec (take_while is_digit (drop_while is_space rest)) "") as [|Hne];
    [done |].
  intros [= <-]. split; [apply take_while_all | done].
Qed.

Lemma portOfLine_bounds text m : portOfLine text = Some m -> 0 <= m <= 65535.
Proof.
  unfold portOfLine. destruct (FindStringSubmatch text) as [d|] eqn:Hd; [|done].
  cbn [mbind option_bind]. unfold ParseUint16.
  destruct (Z.leb_spec (decimal 0 d) 65535) as [Hle|]; [|done].
  intros [= <-]. split; [|done].
  apply decimal_nonneg; [|lia]. by apply FindStringSubmatch_digits in Hd as [? _].
Qed.

Lemma firstPort_bounds lines m : firstPort lines = Some m -> 0 <= m <= 65535.
Proof.
  intros (i & text & _ & Hp & _)%firstPort_first. by apply portOfLine_bounds in Hp.
Qed.

(** X10. The port the setup renders with is always between 0 and 65535, and so
    is every port [findSSHPort] returns without an error. *)
Theorem port_fits_16_bits :
  (forall w, 0 <= discoveredPort w <= 65535) /\
  (forall w r w', findSSHPort w = (Done r, w') -> r.2 = None -> 0 <= r.1 <= 65535).
Proof.
  assert (Hd : forall w, 0 <= discoveredPort w <= 65535).
  { intros w. unfold discoveredPort, defaultSSHPort.
    destruct (sshdConfig w) as [content|]; [|lia].
    destruct (firstPort (scanLines content).1) as [m|] eqn:Hm; cbn [default]; [|lia].
    by apply firstPort_bounds in Hm. }
  split; [exact Hd |]. intros w r w' Hrun Hnil.
  destruct (findSSHPort_spec w) as (r0 & w0 & Hs & _ & Hport & _).
  rewrite Hs in Hrun. injection Hrun as <- <-.
  destruct r0 as [port [e|]]; [done |]. cbn [chosenPort fst] in *.
  rewrite Hport. apply Hd.
Qed.

Lemma port_fits_16_bits_witness :
  ((findSSHPort configured).1 = Done (2222, None) /\ (2222, @None string).2 = None) /\
  0 <= (2222, @None string).1 <= 65535.
Proof.
  assert (H1 : (findSSHPort configured).1 = Done (2222, None)) by (vm_compute; reflexivity).
  assert (H2 : (2222, @None string).2 = None) by reflexivity.
  split; [exact (conj H1 H2) |].
  refine (proj2 port_fits_16_bits configured (2222, None) (findSSHPort configured).2 _ H2).
  transitivity ((findSSHPort configured).1, (findSSHPort configured).2);
    [apply surjective_pairing | f_equal; exact H1].
Defined.

Section more_setup.
Context `{Library}.

(** ** Reading a prefix file *)

Lemma parseLines_cons text rest :
  parseLines (text :: rest)
  = match lineValue text with
    | None => parseLines rest
    | Some (inr err) =>
        ([], Some ("failed parsing prefix: '" +:+ TrimSpace text +:+ "': " +:+ err))
    | Some (inl prefix) =>
        match parseLines rest with
        | (prefixes, None) => (prefix :: prefixes, None)
        | (_, Some err) => ([], Some err)
        end
    end.
Proof.
  cbn [parseLines]. unfold lineValue.
  destruct (String.eqb (TrimSpace text) ""); [done |].
  by destruct (ParsePrefix (TrimSpace text)).
Qed.

(** X11. [readPrefixes] takes all lines or none.  When every line is blank or
    parses, it returns the prefixes of the lines that are not blank, in
    order.  When one line, wherever it stands, does not parse, it returns an
    error and no prefix, and the setup then takes the set of that family to
    be empty. *)
Theorem readPrefixes_all_or_nothing :
  (forall lines,
     Forall (fun t => lineValue t = None \/ exists p, lineValue t = Some (inl p)) lines ->
     parseLines lines = (omap linePrefix lines, None)) /\
  (forall lines t err,
     t ∈ lines -> lineValue t = Some (inr err) ->
     (parseLines lines).1 = [] /\ is_Some (parseLines lines).2) /\
  (forall path w content t err,
     open_error w path = None -> files w !! path = Some content ->
     t ∈ (scanLines content).1 -> lineValue t = Some (inr err) ->
     readSet path w = [] /\
     exists e, readPrefixes path w = (Done ([], Some e), w)).
Proof.
  assert (Hbad : forall lines t err,
    t ∈ lines -> lineValue t = Some (inr err) ->
    (parseLines lines).1 = [] /\ is_Some (parseLines lines).2).
  { intros lines t err. induction lines as [|t' rest IH]; intros Hin Ht;
      [by apply elem_of_nil in Hin |].
    rewrite parseLines_cons. apply elem_of_cons in Hin as [<-|Hin].
    - rewrite Ht. by split; [|eexists].
    - destruct (lineValue t') as [[p|e]|]; [|by split; [|eexists] | by apply IH].
      destruct (IH Hin Ht) as [H1 [e He]].
      destruct (parseLines rest) as [ps [e'|]]; [by split; [|eexists] |].
      cbn [snd] in He. discriminate. }
  split; [|split; [exact Hbad |]].
  - induction 1 as [|t rest Ht Hrest IH]; [done |].
    rewrite parseLines_cons. unfold linePrefix at 1. cbn [omap list_omap].
    destruct Ht as [->|[p ->]]; [by rewrite IH | by rewrite IH].
  - intros path w content t err Ho Hf Hin Ht.
    destruct (Hbad _ _ _ Hin Ht) as [H1 [e He]].
    unfold readSet, readPrefixes. rewrite (bind_Done _ _ _ _ _ (os_Open_spec _ _)).
    rewrite Ho, Hf.
    destruct (parseLines (scanLines content).1) as [ps [e'|]]; cbn [fst snd] in *.
    + subst ps. split; [done | by eexists].
    + discriminate.
Qed.

(** ** The three commands *)

Lemma verifyNftables_result w :
  exists w',
    verifyNftables w = (Done (command_error w (commands w) list_command), w') /\
    files w' = files w /\ commands w' = commands w ++ [list_command].
Proof. eexists. split; [reflexivity | done]. Qed.

(** X12. A setup that has written the ruleset and loaded it runs the enable
    command next.  When that fails, the list command is not run and the
    error is returned; otherwise the list command runs last and its error, if
    any, is returned.  In all these cases the ruleset document stays as
    written. *)
Theorem setup_command_sequence :
  forall w,
    ~ (readSet ipv4File w = [] /\ readSet ipv6File w = []) ->
    create_error w nftablesConf = None ->
    command_error w (commands w) load_command = None ->
    exists r w',
      startSetupNftables w = (Done r, w') /\
      files w' !! nftablesConf
      = Some (renderNftablesTemplate (discoveredPort w) (readSet ipv4File w)
                                     (readSet ipv6File w)).1 /\
      match command_error w (commands w ++ [load_command]) enable_command with
      | Some err =>
          commandsRun w w' = [load_command; enable_command] /\
          r = Some ("failed to apply nftables configuration: " +:+
                    ("failed to enable and start nftables services: " +:+ err))
      | None =>
          commandsRun w w' = [load_command; enable_command; list_command] /\
          r = match command_error w (commands w ++ [load_command; enable_command])
                      list_command with
              | Some err => Some ("failed to verify nftables ruleset: " +:+ err)
              | None => None
              end
      end.
Proof.
  intros w Hne Hcreate Hload. unfold startSetupNftables.
  destruct (findSSHPort_spec w) as (r0 & w1 & Hfind & H1 & Hport & Hfound).
  rewrite (bind_Done _ _ _ _ _ Hfind).
  match goal with
  | |- context [(?m ≫= _) w1] =>
      assert (exists w2, m w1 = (Done (discoveredPort w), w2) /\ only_logged w w2)
        as (w2 & Hsel & H2)
  end.
  { destruct r0 as [p [e|]]; cbn [chosenPort] in Hport.
    - eexists. split; [rewrite <- Hport; reflexivity |].
      eapply only_logged_trans; [exact H1 | apply log_only_logged].
    - exists w1. split; [rewrite <- Hport; reflexivity | exact H1]. }
  rewrite (bind_Done _ _ _ _ _ Hsel).
  destruct (initializeNftablesConf_spec (discoveredPort w) w2)
    as (r3 & w3 & Hinit & Hc3 & Henv3 & Hl3 & Hcase).
  rewrite (bind_Done _ _ _ _ _ Hinit).
  rewrite !(readSet_only_logged _ _ _ H2) in Hcase.
  destruct H2 as (Hf2 & Hc2 & _ & Henv2 & Hl2).
  replace (create_error w2 nftablesConf) with (create_error w nftablesConf)
    in Hcase by (by destruct Henv2 as (_ & -> & _)).
  destruct (decide _) as [|_]; [done |]. rewrite Hcreate in Hcase.
  destruct Hcase as [-> Hf3]. rewrite Hf2 in Hf3.
  rewrite (bind_Done _ _ _ _ _ (log_Done _ _ _)).
  set (w4 := (log INFO "nftables configuration initialized" w3).2).
  destruct (applyNftables_spec w4) as (r5 & w5 & Happly & Hf5 & Henv5 & Hl5 & Hcmd).
  rewrite (bind_Done _ _ _ _ _ Happly).
  assert (Hce : command_error w5 = command_error w).
  { destruct Henv5 as (_ & _ & ->). change (command_error w4) with (command_error w3).
    destruct Henv3 as (_ & _ & ->). by destruct Henv2 as (_ & _ & ->). }
  change (commands w4) with (commands w3) in Hcmd.
  change (command_error w4) with (command_error w3) in Hcmd.
  replace (command_error w3) with (command_error w) in Hcmd
    by (destruct Henv3 as (_ & _ & ->); by destruct Henv2 as (_ & _ & ->)).
  rewrite Hc3, Hc2, Hload in Hcmd. destruct Hcmd as [Hc5 Hr5].
  assert (Hdoc : files w5 !! nftablesConf
                 = Some (renderNftablesTemplate (discoveredPort w) (readSet ipv4File w)
                                                (readSet ipv6File w)).1).
  { rewrite Hf5. change (files w4) with (files w3). rewrite Hf3.
    apply lookup_insert_eq. }
  destruct (command_error w (commands w ++ [load_command]) enable_command) as [err|].
  { subst r5. eexists _, w5. split; [reflexivity |]. split; [exact Hdoc |].
    split; [by apply commandsRun_app | done]. }
  subst r5. rewrite (bind_Done _ _ _ _ _ (log_Done _ _ _)).
  set (w6 := (log INFO "configuration applied and nftables service started" w5).2).
  destruct (verifyNftables_result w6) as (w7 & Hver & Hf7 & Hc7).
  rewrite (bind_Done _ _ _ _ _ Hver).
  change (command_error w6) with (command_error w5) in *.
  change (commands w6) with (commands w5) in *.
  change (files w6) with (files w5) in Hf7.
  rewrite Hce, Hc5.
  assert (Hrun : commands w7 = commands w ++ [load_command; enable_command; list_command]).
  { rewrite Hc7, Hc5, <- app_assoc. done. }
  destruct (command_error w (commands w ++ [load_command; enable_command]) list_command)
    as [err|].
  - eexists _, w7. split; [reflexivity |]. split; [by rewrite Hf7 |].
    split; [by apply commandsRun_app | done].
  - eexists _, _. split; [reflexivity |].
    cbn [log files commands snd]. split; [by rewrite Hf7 |].
    split; [|done]. unfold commandsRun. cbn [commands]. rewrite Hrun.
    apply drop_app_length.
Qed.

End more_setup.

Lemma setup_command_sequence_witness :
  (~ (@readSet ascii_library ipv4File configured = [] /\
      @readSet ascii_library ipv6File configured = []) /\
   create_error configured nftablesConf = None /\
   command_error configured (commands configured) load_command = None) /\
  exists w',
    @startSetupNftables ascii_library configured = (Done None, w') /\
    commandsRun configured w' = [load_command; enable_command; list_command].
Proof.
  assert (H1 : ~ (@readSet ascii_library ipv4File configured = [] /\
                  @readSet ascii_library ipv6File configured = [])).
  { assert (E : @readSet ascii_library ipv4File configured
                = [mkPrefix (ip4 198 51 100 0) 24]) by (vm_compute; reflexivity).
    rewrite E. intros [Hnil _]. discriminate Hnil. }
  assert (H2 : create_error configured nftablesConf = None) by reflexivity.
  assert (H3 : command_error configured (commands configured) load_command = None)
    by reflexivity.
  split; [exact (conj H1 (conj H2 H3)) |].
  destruct (@setup_command_sequence ascii_library configured H1 H2 H3)
    as (r & w' & Hrun & _ & Hrun' & Hr).
  exists w'. split; [by rewrite Hrun, Hr | exact Hrun'].
Defined.

Lemma readPrefixes_all_or_nothing_witness :
  ("198.51.100.0/24" ∈ ["198.51.100.0/24"; "not a prefix"; "198.51.101.0/24"] /\
   "not a prefix" ∈ ["198.51.100.0/24"; "not a prefix"; "198.51.101.0/24"] /\
   exists err, @lineValue ascii_library "not a prefix" = Some (inr err)) /\
  (@parseLines ascii_library ["198.51.100.0/24"; "not a prefix"; "198.51.101.0/24"]).1 = [].
Proof.
  assert (H1 : "198.51.100.0/24" ∈ ["198.51.100.0/24"; "not a prefix"; "198.51.101.0/24"])
    by apply list_elem_of_here.
  assert (H2 : "not a prefix" ∈ ["198.51.100.0/24"; "not a prefix"; "198.51.101.0/24"])
    by (apply list_elem_of_further, list_elem_of_here).
  assert (H3 : @lineValue ascii_library "not a prefix"
               = Some (inr ("netip.ParsePrefix(" +:+ quote "not a prefix" +:+ "): not an IPv4 prefix")))
    by (vm_compute; reflexivity).
  split; [exact (conj H1 (conj H2 (ex_intro _ _ H3))) |].
  exact (proj1 (proj1 (proj2 (@readPrefixes_all_or_nothing ascii_library)) _ _ _ H2 H3)).
Defined.

(** ** The port pattern *)

Lemma append_cons c s t : String c s +:+ t = String c (s +:+ t).
Proof. reflexivity. Qed.

Lemma strip_prefix_spec pre s r : strip_prefix pre s = Some r <-> s = pre +:+ r.
Proof.
  revert s. induction pre as [|a pre IH]; intros s.
  - change ("" +:+ r) with r. cbn [strip_prefix]. split; congruence.
  - rewrite append_cons. destruct s as [|b s]; cbn [strip_prefix]; [done |].
    destruct (Ascii.eqb_spec a b) as [->|Hne].
    + rewrite IH. split; [by intros -> | by intros [= ->]].
    + split; [done | intros [= -> _]; done].
Qed.

Lemma take_drop_while f s : take_while f s +:+ drop_while f s = s.
Proof.
  induction s as [|c s IH]; [done |]. cbn [take_while drop_while].
  destruct (f c); [|done]. by rewrite append_cons, IH.
Qed.

Lemma drop_while_head f s : head_is f (drop_while f s) = false.
Proof.
  induction s as [|c s IH]; [done |]. cbn [drop_while].
  destruct (f c) eqn:Hc; [done |]. cbn. done.
Qed.

Lemma while_app f t u :
  all_chars f t = true -> head_is f u = false ->
  take_while f (t +:+ u) = t /\ drop_while f (t +:+ u) = u.
Proof.
  intros Ht Hu. induction t as [|c t IH].
  - change ("" +:+ u) with u. destruct u as [|c u]; [done |].
    cbn in Hu. cbn [take_while drop_while]. by rewrite Hu.
  - cbn [all_chars] in Ht. apply andb_true_iff in Ht as [Hc Ht].
    rewrite append_cons. cbn [take_while drop_while]. rewrite Hc.
    destruct (IH Ht) as [-> ->]. done.
Qed.

Lemma digit_not_space c : is_digit c = true -> is_space c = false.
Proof.
  unfold is_digit, is_space. intros [Hlo Hhi]%andb_true_iff.
  apply N.leb_le in Hlo, Hhi.
  repeat (apply orb_false_iff; split); apply N.eqb_neq; lia.
Qed.

Lemma head_digit_not_space d rest :
  d ≠ "" -> all_chars is_digit d = true -> head_is is_space (d +:+ rest) = false.
Proof.
  destruct d as [|c d]; [done |]. intros _ [Hc _]%andb_true_iff.
  rewrite append_cons. cbn. by apply digit_not_space.
Qed.

(** X13. The matcher accepts exactly the lines the pattern describes: the word
    [Port] at the start of the line, then white space, then digits; the
    capture group is the longest run of digits there. *)
Theorem FindStringSubmatch_pattern :
  forall line d,
    FindStringSubmatch line = Some d <->
    exists blanks rest,
      line = "Port" +:+ blanks +:+ d +:+ rest /\
      blanks ≠ "" /\ all_chars is_space blanks = true /\
      d ≠ "" /\ all_chars is_digit d = true /\ head_is is_digit rest = false.
Proof.
  intros line d. unfold FindStringSubmatch. split.
  - destruct (strip_prefix "Port" line) as [r0|] eqn:Hs; [|done].
    apply strip_prefix_spec in Hs. cbn [mbind option_bind].
    destruct (String.eqb_spec (take_while is_space r0) "") as [|Hb]; [done |].
    destruct (String.eqb_spec (take_while is_digit (drop_while is_space r0)) "")
      as [|Hd]; [done |].
    intros [= <-].
    exists (take_while is_space r0), (drop_while is_digit (drop_while is_space r0)).
    split; [by rewrite !take_drop_while |]. split; [done |].
    split; [apply take_while_all |]. split; [done |].
    split; [apply take_while_all | apply drop_while_head].
  - intros (blanks & rest & -> & Hb & Hbs & Hd & Hds & Hrest).
    assert (Hs : strip_prefix "Port" ("Port" +:+ blanks +:+ d +:+ rest)
                 = Some (blanks +:+ d +:+ rest)) by (by apply strip_prefix_spec).
    rewrite Hs. cbn [mbind option_bind].
    destruct (while_app is_space blanks (d +:+ rest) Hbs
                (head_digit_not_space d rest Hd Hds)) as [-> ->].
    destruct (while_app is_digit d rest Hds Hrest) as [-> _].
    destruct (String.eqb_spec blanks "") as [|_]; [done |].
    by destruct (String.eqb_spec d "") as [|_].
Qed.

(** ** The earlier revision: removal of covered prefixes *)

Lemma overlaps_spec result ip :
  overlaps result ip = true <-> exists q, q ∈ result /\ Contains q ip = true.
Proof.
  induction result as [|q result IH]; cbn [overlaps].
  - split; [done | by intros (q & ?%elem_of_nil & _)].
  - destruct (Contains q ip) eqn:Hq.
    + split; [intros _; exists q; split; [apply list_elem_of_here | done] | done].
    + rewrite IH. split.
      * intros (q' & Hin & Hc). exists q'. split; [by apply list_elem_of_further | done].
      * intros (q' & [->|Hin]%elem_of_cons & Hc); [congruence | by exists q'].
Qed.

Global Instance bits_le_trans : Transitive bits_le.
Proof. intros a b c. unfold bits_le. lia. Qed.

Global Instance bits_le_total : Total bits_le.
Proof. intros a b. unfold bits_le. lia. Qed.

Lemma dedupLoop_spec prefixes result :
  (forall q p, q ∈ result -> p ∈ prefixes -> Bits q <= Bits p) ->
  StronglySorted bits_le prefixes ->
  exists kept,
    dedupLoop prefixes result = result ++ kept /\
    sublist kept prefixes /\
    (forall p, p ∈ prefixes ->
       p ∈ kept \/
       exists q, q ∈ result ++ kept /\ Contains q (Addr_of p) = true /\
                 Bits q <= Bits p) /\
    (forall k1 q k2, kept = k1 ++ q :: k2 ->
       overlaps (result ++ k1) (Addr_of q) = false).
Proof.
  revert result. induction prefixes as [|current rest IH]; intros result Hle Hs.
  { exists []. rewrite app_nil_r. split; [done |]. split; [done |].
    split; [by intros p ?%elem_of_nil | by intros [|? ?] ? ? ?]. }
  apply StronglySorted_cons in Hs as [Hcur Hs]. rewrite Forall_forall in Hcur.
  cbn [dedupLoop]. destruct (overlaps result (Addr_of current)) eqn:Hov.
  - destruct (IH result) as (kept & Hrun & Hsub & Hcov & Hsep); [|done |].
    { intros q p Hq Hp. apply Hle; [done | by apply list_elem_of_further]. }
    exists kept. split; [done |]. split; [by apply sublist_cons |]. split; [|done].
    intros p [->|Hp]%elem_of_cons; [|by apply Hcov].
    right. apply overlaps_spec in Hov as (q & Hq & Hc). exists q.
    split; [apply elem_of_app; by left |]. split; [done |].
    apply Hle; [done | apply list_elem_of_here].
  - destruct (IH (result ++ [current])) as (kept & Hrun & Hsub & Hcov & Hsep); [|done |].
    { intros q p [Hq| ->%list_elem_of_singleton]%elem_of_app Hp.
      - apply Hle; [done | by apply list_elem_of_further].
      - by apply Hcur. }
    exists (current :: kept). split; [by rewrite Hrun, <- app_assoc |].
    split; [by apply sublist_skip |]. split.
    + intros p [->|Hp]%elem_of_cons; [left; apply list_elem_of_here |].
      destruct (Hcov p Hp) as [Hk|(q & Hq & Hc & Hb)];
        [left; by apply list_elem_of_further |].
      right. exists q. split; [|done]. by rewrite <- app_assoc in Hq.
    + intros [|q' k1] q k2 Hk.
      * injection Hk as <- <-. by rewrite app_nil_r.
      * injection Hk as <- ->.
        specialize (Hsep k1 q k2 eq_refl). by rewrite <- app_assoc in Hsep.
Qed.

(** X14. [deduplicatePrefixes] of the earlier revision keeps a selection of the
    given prefixes, shortest first.  Every given prefix is kept, or its
    address lies in a kept prefix that is not longer; and no kept prefix has
    its address in a prefix kept before it.  The same holds for every
    arrangement by length that the unstable sort may produce. *)
Theorem deduplicatePrefixes_keeps_broadest :
  (forall sorted,
     StronglySorted bits_le sorted ->
     sublist (dedupLoop sorted []) sorted /\
     (forall p, p ∈ sorted ->
        p ∈ dedupLoop sorted [] \/
        exists q, q ∈ dedupLoop sorted [] /\ Contains q (Addr_of p) = true /\
                  Bits q <= Bits p) /\
     (forall k1 q k2, dedupLoop sorted [] = k1 ++ q :: k2 ->
        forall q1, q1 ∈ k1 -> Contains q1 (Addr_of q) = false)) /\
  (forall prefixes,
     (forall q, q ∈ deduplicatePrefixes prefixes -> q ∈ prefixes) /\
     (forall p, p ∈ prefixes ->
        p ∈ deduplicatePrefixes prefixes \/
        exists q, q ∈ deduplicatePrefixes prefixes /\
                  Contains q (Addr_of p) = true /\ Bits q <= Bits p)).
Proof.
  assert (Hloop : forall sorted,
     StronglySorted bits_le sorted ->
     sublist (dedupLoop sorted []) sorted /\
     (forall p, p ∈ sorted ->
        p ∈ dedupLoop sorted [] \/
        exists q, q ∈ dedupLoop sorted [] /\ Contains q (Addr_of p) = true /\
                  Bits q <= Bits p) /\
     (forall k1 q k2, dedupLoop sorted [] = k1 ++ q :: k2 ->
        forall q1, q1 ∈ k1 -> Contains q1 (Addr_of q) = false)).
  { intros sorted Hs.
    destruct (dedupLoop_spec sorted []) as (kept & Hrun & Hsub & Hcov & Hsep);
      [by intros q p ?%elem_of_nil | done |].
    rewrite Hrun. cbn [app]. split; [done |]. split; [done |].
    intros k1 q k2 Hk q1 Hq1. specialize (Hsep k1 q k2 Hk). cbn [app] in Hsep.
    destruct (Contains q1 (Addr_of q)) eqn:Hc; [|done].
    assert (overlaps k1 (Addr_of q) = true) by (apply overlaps_spec; by exists q1).
    congruence. }
  split; [exact Hloop |]. intros prefixes. unfold deduplicatePrefixes.
  assert (Hs : StronglySorted bits_le (merge_sort bits_le prefixes)).
  { apply (StronglySorted_merge_sort bits_le). }
  destruct (Hloop _ Hs) as (Hsub & Hcov & _). split.
  - intros q Hq. rewrite <- (merge_sort_Permutation bits_le prefixes).
    by apply (sublist_subseteq _ _ Hsub).
  - intros p Hp. apply Hcov. by rewrite (merge_sort_Permutation bits_le prefixes).
Qed.

Lemma deduplicatePrefixes_keeps_broadest_witness :
  StronglySorted bits_le [v4_doc_23; mkPrefix (ip4 198 51 101 0) 24; v4_doc_25] /\
  sublist (dedupLoop [v4_doc_23; mkPrefix (ip4 198 51 101 0) 24; v4_doc_25] [])
          [v4_doc_23; mkPrefix (ip4 198 51 101 0) 24; v4_doc_25] /\
  dedupLoop [v4_doc_23; mkPrefix (ip4 198 51 101 0) 24; v4_doc_25] []
  = [v4_doc_23; v4_doc_25].
Proof.
  assert (H : StronglySorted bits_le [v4_doc_23; mkPrefix (ip4 198 51 101 0) 24; v4_doc_25]).
  { repeat constructor; unfold bits_le; cbn; lia. }
  split; [exact H |].
  split; [exact (proj1 (proj1 deduplicatePrefixes_keeps_broadest _ H)) |].
  vm_compute. reflexivity.
Defined.

(** ** The callers *)

Lemma startFetchPrefixes_failed asns w :
  fetched retries (replies w) = None ->
  exists w', startFetchPrefixes asns w = (Done (), w') /\ files w' = files w /\
             commands w' = commands w /\ env_same w w'.
Proof.
  intros Hnone. unfold startFetchPrefixes, fetchPrefixesWithRetry.
  rewrite (bind_Done _ _ _ _ _ (log_Done _ _ _)).
  set (w0 := (log INFO "starting processing for ASNs" w).2).
  destruct (retryLoop_spec retries "%!w(<nil>)" w0)
    as ([prefixes e] & w1 & Hloop & Hf1 & Hc1 & Henv1 & _ & Hcase).
  rewrite (bind_Done _ _ _ _ _ Hloop).
  change (replies w0) with (replies w) in Hcase. rewrite Hnone in Hcase.
  destruct Hcase as [_ [e' He]]. cbn [snd] in He. subst e.
  eexists. split; [reflexivity |]. cbn [log files commands snd].
  split; [exact Hf1 |]. split; [exact Hc1 |].
  destruct Henv1 as (Ho & Hcr & Hce). by repeat split.
Qed.

Section callers.
Context `{Library}.

Lemma readSet_ext path w w' :
  files w' = files w -> open_error w' = open_error w ->
  readSet path w' = readSet path w.
Proof. intros Hf Ho. unfold readSet. by rewrite Hf, Ho. Qed.

Lemma discoveredPort_ext w w' :
  files w' = files w -> open_error w' = open_error w ->
  discoveredPort w' = discoveredPort w.
Proof. intros Hf Ho. unfold discoveredPort, sshdConfig. by rewrite Hf, Ho. Qed.

(** X15. [setup] refuses to run on a platform other than Linux and when [nft] or
    [systemctl] is not found, and then changes nothing.  Once it runs, it
    never returns an error: the error of [startSetupNftables] is dropped, so
    [setup] returns [nil] also when the setup of the firewall failed. *)
Theorem setup_outcomes :
  (forall GOOS LookPath asns w,
     GOOS ≠ "linux" ->
     setup GOOS LookPath asns w = (Done (Some "setup only works on linux"), w)) /\
  (forall LookPath asns w,
     is_Some (LookPath "nft") \/ is_Some (LookPath "systemctl") ->
     exists err, setup "linux" LookPath asns w = (Done (Some err), w)) /\
  (forall LookPath asns w r w',
     LookPath "nft" = None -> LookPath "systemctl" = None ->
     setup "linux" LookPath asns w = (r, w') ->
     r = Done None \/ exists msg, r = Panic msg).
Proof.
  split; [|split].
  - intros GOOS LookPath asns w Hne. unfold setup.
    by destruct (String.eqb_spec GOOS "linux").
  - intros LookPath asns w Hmiss. unfold setup. cbn [String.eqb Ascii.eqb negb].
    change (String.eqb "linux" "linux") with true. cbn [negb].
    destruct (LookPath "nft") as [e|]; [by eexists |].
    destruct Hmiss as [[? ?]|[e He]]; [done |]. rewrite He. by eexists.
  - intros LookPath asns w r w' Hnft Hsys. unfold setup.
    change (String.eqb "linux" "linux") with true. cbn [negb].
    rewrite Hnft, Hsys.
    rewrite (bind_Done _ _ _ _ _ (log_Done _ _ _)).
    set (w0 := (log INFO "running fetch operation before setup..." w).2).
    destruct (fetch asns w0) as [[[]|msg] w1] eqn:Hfetch.
    + rewrite (bind_Done _ _ _ _ _ Hfetch).
      destruct (startSetupNftables_spec w1) as (r' & w2 & Hs & _).
      rewrite (bind_Done _ _ _ _ _ Hs). intros [= <- <-]. by left.
    + rewrite (bind_Panic _ _ _ _ _ Hfetch). intros [= <- <-]. right. by eexists.
Qed.

(** X16. When every attempt to fetch fails, [setup] goes on with the prefix
    files of an earlier run: it leaves them as they are, renders the ruleset
    from them and returns [nil]. *)
Theorem setup_with_upstream_down :
  forall asns w,
    fetched retries (replies w) = None ->
    ~ (readSet ipv4File w = [] /\ readSet ipv6File w = []) ->
    create_error w nftablesConf = None ->
    exists w',
      setup "linux" found asns w = (Done None, w') /\
      files w' !! nftablesConf
      = Some (renderNftablesTemplate (discoveredPort w) (readSet ipv4File w)
                                     (readSet ipv6File w)).1 /\
      files w' !! ipv4File = files w !! ipv4File /\
      files w' !! ipv6File = files w !! ipv6File.
Proof.
  intros asns w Hnone Hne Hcreate. unfold setup, found.
  change (String.eqb "linux" "linux") with true. cbn [negb].
  rewrite (bind_Done _ _ _ _ _ (log_Done _ _ _)).
  set (w0 := (log INFO "fetching IP prefixes"
                (log INFO "running fetch operation before setup..." w).2).2).
  destruct (startFetchPrefixes_failed asns w0 Hnone)
    as (w1 & Hfetch & Hf1 & Hc1 & (Ho1 & Hcr1 & Hce1)).
  assert (Hfetch' : fetch asns (log INFO "running fetch operation before setup..." w).2
                    = (Done (), w1)).
  { unfold fetch. by rewrite (bind_Done _ _ _ _ _ (log_Done _ _ _)). }
  rewrite (bind_Done _ _ _ _ _ Hfetch').
  change (files w0) with (files w) in Hf1.
  change (open_error w0) with (open_error w) in Ho1.
  change (create_error w0) with (create_error w) in Hcr1.
  destruct (startSetupNftables_spec w1) as (r & w2 & Hs & _ & _ & _ & Hcase).
  rewrite (bind_Done _ _ _ _ _ Hs).
  rewrite !(readSet_ext _ _ _ Hf1 Ho1), (discoveredPort_ext _ _ Hf1 Ho1) in Hcase.
  rewrite Hcr1, Hcreate in Hcase.
  destruct (decide _) as [|_]; [done |]. destruct Hcase as [Hf2 _].
  eexists. split; [reflexivity |]. rewrite Hf2, Hf1.
  split; [apply lookup_insert_eq |].
  split; by apply lookup_insert_ne.
Qed.

End callers.

Lemma setup_outcomes_witness :
  (found "nft" = None /\ found "systemctl" = None) /\
  ((@setup ascii_library "linux" found [64500] stale).1 = Done None \/
   exists msg, (@setup ascii_library "linux" found [64500] stale).1 = Panic msg).
Proof.
  assert (H1 : found "nft" = None) by reflexivity.
  assert (H2 : found "systemctl" = None) by reflexivity.
  split; [exact (conj H1 H2) |].
  exact (proj2 (proj2 (@setup_outcomes ascii_library)) found [64500] stale _ _ H1 H2
           (surjective_pairing _)).
Defined.

Lemma setup_with_upstream_down_witness :
  (fetched retries (replies stale) = None /\
   ~ (@readSet ascii_library ipv4File stale = [] /\
      @readSet ascii_library ipv6File stale = []) /\
   create_error stale nftablesConf = None) /\
  exists w',
    @setup ascii_library "linux" found [64500] stale = (Done None, w') /\
    files w' !! ipv4File = files stale !! ipv4File.
Proof.
  assert (H1 : fetched retries (replies stale) = None) by reflexivity.
  assert (H2 : ~ (@readSet ascii_library ipv4File stale = [] /\
                  @readSet ascii_library ipv6File stale = [])).
  { assert (E : @readSet ascii_library ipv4File stale
                = [mkPrefix (ip4 198 51 100 0) 24]) by (vm_compute; reflexivity).
    rewrite E. intros [Hnil _]. discriminate Hnil. }
  assert (H3 : create_error stale nftablesConf = None) by reflexivity.
  split; [exact (conj H1 (conj H2 H3)) |].
  destruct (@setup_with_upstream_down ascii_library [64500] stale H1 H2 H3)
    as (w' & Hrun & _ & Hv4 & _).
  exists w'. exact (conj Hrun Hv4).
Defined.

(** ** Fetch, classify, write *)





(** ** More instances *)

Lemma FindStringSubmatch_pattern_witness :
  FindStringSubmatch "Port 2222 # ssh" = Some "2222" /\
  exists blanks rest,
    "Port 2222 # ssh" = "Port" +:+ blanks +:+ "2222" +:+ rest /\
    blanks ≠ "" /\ all_chars is_space blanks = true /\
    "2222" ≠ "" /\ all_chars is_digit "2222" = true /\ head_is is_digit rest = false.
Proof.
  assert (H : FindStringSubmatch "Port 2222 # ssh" = Some "2222") by reflexivity.
  split; [exact H |].
  exact (proj1 (FindStringSubmatch_pattern "Port 2222 # ssh" "2222") H).
Defined.
(** ** The IPv4 writer when a write can fail *)

(** *** Slices of strings *)

Lemma length_append (a b : string) :
  String.length (a +:+ b) = (String.length a + String.length b)%nat.
Proof.
  induction a as [|c a IH]; [done |].
  change (S (String.length (a +:+ b)) = S (String.length a + String.length b)).
  by rewrite IH.
Qed.

Lemma length_zero (s : string) : String.length s = 0%nat -> s = "".
Proof. by destruct s. Qed.

Lemma slice_join n s : slice_to n s +:+ slice_from n s = s.
Proof.
  revert s. induction n as [|n IH]; intros [|c s]; try done.
  cbn [slice_to slice_from]. rewrite append_cons. by rewrite IH.
Qed.

Lemma slice_to_length n s :
  String.length (slice_to n s) = Nat.min n (String.length s).
Proof.
  revert s. induction n as [|n IH]; intros [|c s]; try done.
  cbn [slice_to String.length Nat.min]. by rewrite IH.
Qed.

Lemma slice_from_length n s :
  String.length (slice_from n s) = (String.length s - n)%nat.
Proof.
  revert s. induction n as [|n IH]; intros [|c s]; try done.
  cbn [slice_from String.length Nat.sub]. by rewrite IH.
Qed.

Lemma slice_to_all n s : (String.length s <= n)%nat -> slice_to n s = s.
Proof.
  revert s. induction n as [|n IH]; intros [|c s] Hn; try done.
  - cbn in Hn. lia.
  - cbn [slice_to]. rewrite IH; [done |]. cbn in Hn. lia.
Qed.

(** A slice that ends in the first part of a text. *)
Lemma slice_to_app_l n a b :
  (n <= String.length a)%nat -> slice_to n (a +:+ b) = slice_to n a.
Proof.
  revert a. induction n as [|n IH]; intros a Hn.
  - by destruct (a +:+ b), a.
  - destruct a as [|c a]; cbn in Hn; [lia |].
    rewrite append_cons. cbn [slice_to]. rewrite IH; [done | lia].
Qed.

(** A slice that ends in the second part of a text. *)
Lemma slice_to_app_r n a b :
  (String.length a <= n)%nat ->
  slice_to n (a +:+ b) = a +:+ slice_to (n - String.length a) b.
Proof.
  revert n. induction a as [|c a IH]; intros n Hn.
  - cbn [String.length]. by rewrite Nat.sub_0_r.
  - destruct n as [|n]; cbn in Hn; [lia |].
    rewrite !append_cons. cbn [slice_to String.length Nat.sub].
    rewrite IH; [done | lia].
Qed.

(** *** The length of a line *)

Lemma pretty_byte_length n :
  0 <= n < 256 -> (String.length (pretty n) <= 3)%nat.
Proof.
  intros Hn.
  assert (Hall : forallb (fun k => String.length (pretty (Z.of_nat k)) <=? 3)%nat
                         (seq 0 256) = true) by (vm_compute; reflexivity).
  rewrite forallb_forall in Hall.
  specialize (Hall (Z.to_nat n)). rewrite Z2Nat.id in Hall by lia.
  apply Nat.leb_le, Hall, in_seq. lia.
Qed.

Lemma land_255_range x : 0 <= Z.land x 255 < 256.
Proof.
  change 255 with (Z.ones 8). rewrite Z.land_ones by lia.
  apply Z.mod_pos_bound. lia.
Qed.

Lemma string4_length a : (String.length (text.string4 a) <= 15)%nat.
Proof.
  unfold text.string4. rewrite !length_append. cbn [String.length].
  pose proof (pretty_byte_length _ (land_255_range (Z.shiftr a 24))).
  pose proof (pretty_byte_length _ (land_255_range (Z.shiftr a 16))).
  pose proof (pretty_byte_length _ (land_255_range (Z.shiftr a 8))).
  pose proof (pretty_byte_length _ (land_255_range a)).
  lia.
Qed.

Lemma appendHex_length x : (String.length (text.appendHex x) <= 4)%nat.
Proof.
  unfold text.appendHex. rewrite !length_append.
  destruct (4096 <=? x), (256 <=? x), (16 <=? x); cbn [String.length]; lia.
Qed.

Lemma groups6_length a zeroStart zeroEnd n i :
  (String.length (text.groups6 a zeroStart zeroEnd n i) <= 6 * n)%nat.
Proof.
  revert i. induction n as [|n IH]; intros i; [done |].
  cbn [text.groups6]. destruct (8 <=? i); [cbn; lia |].
  destruct (i =? zeroStart).
  - rewrite length_append. cbn [String.length].
    destruct (8 <=? zeroEnd); [cbn; lia |].
    rewrite length_append.
    pose proof (appendHex_length (text.v6u16 a zeroEnd)).
    pose proof (IH (zeroEnd + 1)). lia.
  - rewrite !length_append.
    pose proof (appendHex_length (text.v6u16 a i)).
    pose proof (IH (i + 1)).
    destruct (0 <? i); cbn [String.length]; lia.
Qed.

Lemma AddrString_length ip : (String.length (AddrString ip) <= 48)%nat.
Proof.
  destruct ip as [|a|a]; cbn [AddrString].
  - cbn. lia.
  - pose proof (string4_length a). lia.
  - destruct (text.Is4In6 a).
    + rewrite length_append. cbn [String.length].
      pose proof (string4_length (Z.land a 4294967295)). lia.
    + unfold text.string6. destruct (text.zeroRun a) as [zeroStart zeroEnd].
      pose proof (groups6_length a zeroStart zeroEnd 8 0). lia.
Qed.

(** A line of a prefix file fits the buffer of the writer. *)
Lemma line_length p :
  Bits p < 256 ->
  (1 <= String.length (PrefixString p +:+ String newline "") <= limited.defaultBufSize)%nat.
Proof.
  intros Hb. unfold PrefixString, limited.defaultBufSize.
  destruct (Z.ltb_spec (Bits p) 0) as [Hneg|Hpos].
  - rewrite length_append. cbn. lia.
  - rewrite !length_append. cbn [String.length].
    pose proof (AddrString_length (Addr_of p)).
    pose proof (pretty_byte_length (Bits p) ltac:(lia)). lia.
Qed.

(** *** The file and the buffered writer *)

Section writes.
Variable write_limit : string -> option (nat * string).

Lemma file_Write_fits path p c w :
  (forall n msg, write_limit path = Some (n, msg) ->
                 (String.length c + String.length p <= n)%nat) ->
  limited.file_Write write_limit path p (set_files (insert path c) w)
  = (Done (String.length p, None), set_files (insert path (c +:+ p)) w).
Proof.
  intros Hfit. unfold limited.file_Write, set_files.
  cbn [files logs commands replies open_error create_error command_error].
  rewrite lookup_insert_eq, !alter_insert_eq. unfold default, id. cbn [from_option].
  destruct (write_limit path) as [[n msg]|]; [|done].
  destruct (decide _) as [_|Hno]; [done |]. destruct Hno. by eapply Hfit.
Qed.

Lemma file_Write_short path p c w n msg :
  write_limit path = Some (n, msg) ->
  (String.length c <= n < String.length c + String.length p)%nat ->
  limited.file_Write write_limit path p (set_files (insert path c) w)
  = (Done ((n - String.length c)%nat, Some msg),
     set_files (insert path (slice_to n (c +:+ p))) w).
Proof.
  intros Hlim Hn. unfold limited.file_Write, set_files.
  cbn [files logs commands replies open_error create_error command_error].
  rewrite lookup_insert_eq, !alter_insert_eq, Hlim. unfold default, id. cbn [from_option].
  destruct (decide _) as [Hfit|_]; [lia |].
  rewrite alter_insert_eq, slice_to_app_r by lia. done.
Qed.

Lemma Flush_fits b c w :
  limited.err b = None -> limited.buf b <> "" ->
  (forall n msg, write_limit (limited.wr b) = Some (n, msg) ->
                 (String.length c + String.length (limited.buf b) <= n)%nat) ->
  limited.Flush write_limit b (set_files (insert (limited.wr b) c) w)
  = (Done (limited.mkWriter (limited.wr b) (limited.size b) "" None, None),
     set_files (insert (limited.wr b) (c +:+ limited.buf b)) w).
Proof.
  intros Herr Hbuf Hfit. unfold limited.Flush, limited.Buffered. rewrite Herr.
  destruct (decide _) as [H0|_]; [by apply length_zero in H0 |].
  rewrite (bind_Done _ _ _ _ _ (file_Write_fits _ _ _ _ Hfit)). cbn [fst snd].
  destruct (decide _) as [Hlt|_]; [lia | done].
Qed.

Lemma Flush_short b c w n msg :
  limited.err b = None ->
  write_limit (limited.wr b) = Some (n, msg) ->
  (String.length c <= n < String.length c + String.length (limited.buf b))%nat ->
  limited.Flush write_limit b (set_files (insert (limited.wr b) c) w)
  = (Done (limited.mkWriter (limited.wr b) (limited.size b)
             (slice_from (n - String.length c) (limited.buf b)) (Some msg),
           Some msg),
     set_files (insert (limited.wr b) (slice_to n (c +:+ limited.buf b))) w).
Proof.
  intros Herr Hlim Hn. unfold limited.Flush, limited.Buffered. rewrite Herr.
  destruct (decide _) as [H0|_]; [lia |].
  by rewrite (bind_Done _ _ _ _ _ (file_Write_short _ _ _ _ _ _ Hlim Hn)).
Qed.

(** A flush leaves a writer that has failed, and its file, as they are. *)
Lemma Flush_failed b w msg :
  limited.err b = Some msg ->
  limited.Flush write_limit b w = (Done (b, Some msg), w).
Proof. intros Herr. unfold limited.Flush. by rewrite Herr. Qed.

(** The quotient that tells how many whole buffers a text fills before its
    last byte. *)
Lemma whole_buffers sz k r :
  (1 <= r <= sz)%nat -> ((sz * k + r - 1) / sz = k)%nat.
Proof.
  intros Hr. symmetry. apply (Nat.div_unique _ _ _ (r - 1)); lia.
Qed.

Lemma whole_buffers_mono sz a b :
  (a <= b)%nat -> (sz * ((a - 1) / sz) <= sz * ((b - 1) / sz))%nat.
Proof.
  intros Hab. apply Nat.mul_le_mono_l, Nat.Div0.div_le_mono. lia.
Qed.

(** A text that is given to a writer that buffers: either it is buffered,
    after a flush when it did not fit, or the flush fails. *)
Lemma WriteString_spec b c T s w :
  buffering (write_limit (limited.wr b)) b c T ->
  (1 <= String.length s <= limited.size b)%nat ->
  exists b' c' e,
    limited.WriteString write_limit b s (set_files (insert (limited.wr b) c) w)
    = (Done (b', e), set_files (insert (limited.wr b) c') w) /\
    limited.wr b' = limited.wr b /\ limited.size b' = limited.size b /\
    match e with
    | None => buffering (write_limit (limited.wr b)) b' c' (T +:+ s)
    | Some msg =>
        exists n, failed (write_limit (limited.wr b)) b' c' (T +:+ s) n msg
    end.
Proof.
  destruct b as [path sz buf err].
  intros (Herr & HT & Hbuf & [k Hk] & Hne & Hlim) Hs.
  cbn [limited.err limited.buf limited.size limited.wr] in *. subst err.
  unfold limited.WriteString. cbn [limited.writeLoop].
  unfold limited.Available, limited.Buffered.
  cbn [limited.err limited.buf limited.size limited.wr].
  destruct (decide _) as [[Hover _]|Hroom].
  - (* the text does not fit the rest of the buffer *)
    destruct (decide (String.length buf = 0%nat)) as [H0|Hfull]; [lia |].
    replace (Nat.min (sz - String.length buf) (String.length s))
      with (sz - String.length buf)%nat by lia.
    set (n := (sz - String.length buf)%nat).
    set (p := buf +:+ slice_to n s).
    assert (Hp : String.length p = sz).
    { unfold p. rewrite length_append, slice_to_length. lia. }
    assert (Hrest : (1 <= String.length (slice_from n s) <= sz)%nat).
    { rewrite slice_from_length. lia. }
    assert (Htext : T +:+ s = (c +:+ p) +:+ slice_from n s).
    { unfold p. rewrite <- HT, !append_assoc. by rewrite slice_join. }
    assert (Hlen : String.length (T +:+ s)
                   = (sz * S k + String.length (slice_from n s))%nat).
    { rewrite Htext, !length_append, Hp, Hk. lia. }
    destruct (write_limit path) as [[limit msg]|] eqn:Hl.
    + destruct (decide (String.length c + String.length p <= limit)%nat) as [Hfit|Hshort].
      * erewrite bind_Done; last first.
        { erewrite bind_Done; last first.
          { apply (Flush_fits (limited.mkWriter path sz p None) c w);
              cbn [limited.err limited.buf limited.wr]; [done | | ].
            - intros Hp0. rewrite Hp0 in Hp. cbn in Hp. lia.
            - rewrite Hl. by intros ? ? [= <- <-]. }
          cbn [fst limited.writeLoop]. unfold limited.Available.
          cbn [limited.err limited.buf limited.size limited.wr String.length].
          destruct (decide _) as [[? _]|_]; [lia | reflexivity]. }
        cbn [limited.err limited.buf limited.size limited.wr].
        unfold limited.Available.
        cbn [limited.err limited.buf limited.size limited.wr String.length].
        replace (Nat.min (sz - 0) (String.length (slice_from n s)))
          with (String.length (slice_from n s)) by lia.
        rewrite slice_to_all by lia.
        eexists _, _, None. split; [reflexivity |]. split; [done |]. split; [done |].
        change ("" +:+ slice_from n s) with (slice_from n s). unfold buffering.
        cbn [limited.err limited.buf limited.size limited.wr].
        split; [done |]. split; [by rewrite Htext |]. split; [lia |].
        split; [exists (S k); rewrite length_append; lia |].
        split.
        { intros _ H0. rewrite H0 in Hrest. cbn in Hrest. lia. }
        intros ? ? [= <- <-]. rewrite length_append. lia.
      * assert (Hc : (String.length c <= limit)%nat) by (by eapply Hlim).
        erewrite bind_Done; last first.
        { erewrite bind_Done; last first.
          { apply (Flush_short (limited.mkWriter path sz p None) c w limit msg);
              cbn [limited.err limited.buf limited.wr]; [done | done | lia]. }
          cbn [fst limited.writeLoop].
          cbn [limited.err limited.buf limited.size limited.wr].
          destruct (decide _) as [[_ ?]|_]; [done | reflexivity]. }
        cbn [limited.err limited.buf limited.size limited.wr].
        eexists _, _, (Some msg). split; [reflexivity |]. split; [done |].
        split; [done |]. exists limit.
        split; [done |]. split; [done |]. split.
        { rewrite Htext. rewrite (slice_to_app_l limit (c +:+ p)); [done |].
          rewrite length_append. lia. }
        cbn [limited.size]. rewrite Hlen.
        rewrite whole_buffers by lia. lia.
    + erewrite bind_Done; last first.
      { erewrite bind_Done; last first.
        { apply (Flush_fits (limited.mkWriter path sz p None) c w);
            cbn [limited.err limited.buf limited.wr]; [done | | ].
          - intros Hp0. rewrite Hp0 in Hp. cbn in Hp. lia.
          - rewrite Hl. by intros ? ? [=]. }
        cbn [fst limited.writeLoop]. unfold limited.Available.
        cbn [limited.err limited.buf limited.size limited.wr String.length].
        destruct (decide _) as [[? _]|_]; [lia | reflexivity]. }
      cbn [limited.err limited.buf limited.size limited.wr].
      unfold limited.Available.
      cbn [limited.err limited.buf limited.size limited.wr String.length].
      replace (Nat.min (sz - 0) (String.length (slice_from n s)))
        with (String.length (slice_from n s)) by lia.
      rewrite slice_to_all by lia.
      eexists _, _, None. split; [reflexivity |]. split; [done |]. split; [done |].
      change ("" +:+ slice_from n s) with (slice_from n s). unfold buffering.
      cbn [limited.err limited.buf limited.size limited.wr].
      split; [done |]. split; [by rewrite Htext |]. split; [lia |].
      split; [exists (S k); rewrite length_append; lia |].
      split; [|by intros ? ? [=]].
      intros _ H0. rewrite H0 in Hrest. cbn in Hrest. lia.
  - (* the text fits *)
    assert (Hfits : (String.length s <= sz - String.length buf)%nat).
    { destruct (decide (sz - String.length buf < String.length s)%nat); [|lia].
      destruct Hroom. by split. }
    erewrite bind_Done; [|reflexivity].
    cbn [limited.err limited.buf limited.size limited.wr].
    unfold limited.Available. cbn [limited.buf limited.size].
    replace (Nat.min (sz - String.length buf) (String.length s))
      with (String.length s) by lia.
    rewrite slice_to_all by lia.
    eexists _, c, None. split; [reflexivity |]. split; [done |]. split; [done |].
    unfold buffering. cbn [limited.err limited.buf limited.size limited.wr].
    split; [done |]. split; [by rewrite <- HT, append_assoc |].
    split; [rewrite length_append; lia |]. split; [by exists k |].
    split; [|done].
    intros _ H0. apply (f_equal String.length) in H0.
    rewrite length_append in H0. cbn in H0. lia.
Qed.

(** *** The loop of [WriteString] ends within its two rounds *)

Lemma writeLoop_stops fuel b s w :
  limited.err b <> None \/ (String.length s <= limited.Available b)%nat ->
  limited.writeLoop write_limit fuel b s w = (Done (b, s), w).
Proof.
  intros Hstop. destruct fuel; cbn [limited.writeLoop];
    (destruct (decide _) as [[Hlt Herr]|_]; [|done]);
    (destruct Hstop as [Hne|Hle]; [done | lia]).
Qed.

Lemma writeLoop_S fuel b s :
  limited.writeLoop write_limit (S fuel) b s
  = if decide ((limited.Available b < String.length s)%nat /\ limited.err b = None) then
      if decide (limited.Buffered b = 0%nat) then
        r ← limited.file_Write write_limit (limited.wr b) s;
        limited.writeLoop write_limit fuel
          (limited.mkWriter (limited.wr b) (limited.size b) (limited.buf b) r.2)
          (slice_from r.1 s)
      else
        let n := Nat.min (limited.Available b) (String.length s) in
        r ← limited.Flush write_limit
              (limited.mkWriter (limited.wr b) (limited.size b)
                 (limited.buf b +:+ slice_to n s) (limited.err b));
        limited.writeLoop write_limit fuel r.1 (slice_from n s)
    else mret (b, s).
Proof. reflexivity. Qed.

Lemma file_Write_returns path p w :
  exists n e w',
    limited.file_Write write_limit path p w = (Done (n, e), w') /\
    (e = None -> n = String.length p).
Proof.
  unfold limited.file_Write. destruct (write_limit path) as [[limit msg]|].
  - destruct (decide _); eexists _, _, _; (split; [reflexivity | done]).
  - by eexists _, _, _.
Qed.

Lemma Flush_returns b w :
  exists b' e w',
    limited.Flush write_limit b w = (Done (b', e), w') /\
    (limited.err b' <> None \/ limited.buf b' = "").
Proof.
  unfold limited.Flush. destruct (limited.err b) as [e|] eqn:Herr.
  { eexists _, _, _. split; [reflexivity |]. left. by rewrite Herr. }
  destruct (decide _) as [H0|_].
  { eexists _, _, _. split; [reflexivity |]. right. by apply length_zero. }
  destruct (file_Write_returns (limited.wr b) (limited.buf b) w)
    as (n & e & w' & Hw & _).
  rewrite (bind_Done _ _ _ _ _ Hw). cbn [fst snd].
  destruct e as [e|]; [|destruct (decide _)];
    eexists _, _, _; (split; [reflexivity |]); cbn [limited.err limited.buf];
    [by left | by left | by right].
Qed.

Lemma writeLoop_returns_1 b s w :
  limited.err b <> None \/ limited.buf b = "" ->
  exists r w', limited.writeLoop write_limit 1 b s w = (Done r, w').
Proof.
  intros Hb. cbn [limited.writeLoop].
  destruct (decide _) as [[Hlt Herr]|_]; [|by eexists _, _].
  destruct Hb as [Hne|Hempty]; [done |].
  unfold limited.Buffered. rewrite Hempty. cbn [String.length].
  destruct (decide _) as [_|?]; [|done].
  destruct (file_Write_returns (limited.wr b) s w) as (n & e & w' & Hw & Hn).
  rewrite (bind_Done _ _ _ _ _ Hw). cbn [fst snd].
  destruct (decide _) as [[Hlt' Herr']|_]; [|by eexists _, _].
  cbn [limited.err] in Herr'. rewrite (Hn Herr'), slice_from_length in Hlt'. lia.
Qed.

(** [WriteString] returns, whatever the text and the state of the writer. *)
Lemma WriteString_returns b s w :
  exists r w', limited.WriteString write_limit b s w = (Done r, w').
Proof.
  assert (Hloop : exists r w', limited.writeLoop write_limit 2 b s w = (Done r, w')).
  { rewrite writeLoop_S.
    destruct (decide _) as [[Hlt Herr]|_]; [|by eexists _, _].
    destruct (decide _) as [H0|_].
    - destruct (file_Write_returns (limited.wr b) s w) as (n & e & w' & Hw & Hn).
      rewrite (bind_Done _ _ _ _ _ Hw). cbn [fst snd].
      eexists _, _. apply writeLoop_stops. cbn [limited.err].
      destruct e as [e|]; [by left | right].
      rewrite (Hn eq_refl), slice_from_length. lia.
    - destruct (Flush_returns
                  (limited.mkWriter (limited.wr b) (limited.size b)
                     (limited.buf b +:+
                      slice_to (Nat.min (limited.Available b) (String.length s)) s)
                     (limited.err b)) w)
        as (b1 & e1 & w1 & Hf & Hb1).
      rewrite (bind_Done _ _ _ _ _ Hf). cbn [fst].
      by apply writeLoop_returns_1. }
  destruct Hloop as ([b' s'] & w' & Hloop). unfold limited.WriteString.
  rewrite (bind_Done _ _ _ _ _ Hloop).
  destruct (limited.err b'); by eexists _, _.
Qed.

(** A failure stays one when more text follows. *)
Lemma failed_extend limit b c T more n msg :
  failed limit b c T n msg -> failed limit b c (T +:+ more) n msg.
Proof.
  intros (Hl & Herr & Hc & Hn).
  pose proof (Nat.Div0.mul_div_le (String.length T - 1) (limited.size b)) as Hle.
  split; [done |]. split; [done |]. split.
  - rewrite Hc. symmetry. apply slice_to_app_l. lia.
  - eapply Nat.lt_le_trans; [exact Hn |].
    apply whole_buffers_mono. rewrite length_append. lia.
Qed.

(** The loop over the lines: all of them are buffered or written, or a
    flush on the way fails and the loop is left. *)
Lemma writeLines_limited l : forall b c T w,
  buffering (write_limit (limited.wr b)) b c T ->
  Forall (fun p => (1 <= String.length (PrefixString p +:+ String newline "")
                    <= limited.size b)%nat) l ->
  exists b' c' e,
    limited.writeLines write_limit b l (set_files (insert (limited.wr b) c) w)
    = (Done (b', e), set_files (insert (limited.wr b) c') w) /\
    limited.wr b' = limited.wr b /\ limited.size b' = limited.size b /\
    match e with
    | None => buffering (write_limit (limited.wr b)) b' c' (T +:+ linesText l)
    | Some text =>
        exists n msg,
          text = "writing to file: " +:+ msg /\
          failed (write_limit (limited.wr b)) b' c' (T +:+ linesText l) n msg
    end.
Proof.
  induction l as [|p l IH]; intros b c T w Hb Hl.
  - exists b, c, None. split; [done |]. split; [done |]. split; [done |].
    cbn [linesText]. by rewrite append_nil_r.
  - apply Forall_cons in Hl as [Hp Hl]. cbn [limited.writeLines linesText].
    destruct (WriteString_spec b c T _ w Hb Hp) as (b1 & c1 & e1 & Hrun & Hwr & Hsz & He).
    rewrite (bind_Done _ _ _ _ _ Hrun). rewrite <- append_assoc.
    destruct e1 as [msg|].
    + destruct He as [n Hfail].
      eexists b1, c1, _. split; [reflexivity |]. split; [done |]. split; [done |].
      exists n, msg. split; [done |]. by apply failed_extend.
    + rewrite <- Hsz in Hl. rewrite <- Hwr in He.
      destruct (IH b1 c1 _ w He Hl) as (b2 & c2 & e2 & Hrun2 & Hwr2 & Hsz2 & He2).
      rewrite Hwr in Hrun2, He2, Hwr2.
      exists b2, c2, e2. split; [exact Hrun2 |].
      split; [done |]. split; [congruence | exact He2].
Qed.

(** The deferred flush of a writer that has not failed: the file keeps what
    its limit allows, and the limit, if there is one, lies beyond the whole
    buffers of the text. *)
Lemma Flush_last b c T w :
  buffering (write_limit (limited.wr b)) b c T -> (0 < limited.size b)%nat ->
  exists r,
    limited.Flush write_limit b (set_files (insert (limited.wr b) c) w)
    = (Done r, set_files (insert (limited.wr b) (kept (write_limit (limited.wr b)) T)) w) /\
    forall n msg, write_limit (limited.wr b) = Some (n, msg) ->
      ~ (n < limited.size b * ((String.length T - 1) / limited.size b))%nat.
Proof.
  intros (Herr & HT & Hbuf & [k Hk] & Hne & Hlim) Hsz.
  assert (Hlen : String.length T = (limited.size b * k + String.length (limited.buf b))%nat).
  { by rewrite <- HT, length_append, Hk. }
  pose proof (Nat.Div0.mul_div_le (String.length T - 1) (limited.size b)) as Hle.
  destruct (decide (limited.buf b = "")) as [Hempty|Hfull].
  - (* nothing is buffered, so nothing has been written *)
    assert (HTe : T = "").
    { destruct (decide (T = "")) as [|HTn]; [done |]. by destruct (Hne HTn). }
    assert (Hc : c = "").
    { rewrite Hempty, append_nil_r in HT. congruence. }
    rewrite HTe, Hc. eexists. split.
    + unfold limited.Flush, limited.Buffered. rewrite Herr, Hempty.
      destruct (decide _) as [_|?]; [|done].
      replace (kept (write_limit (limited.wr b)) "") with "";
        [reflexivity |].
      unfold kept. destruct (write_limit (limited.wr b)) as [[n msg]|]; [|done].
      by destruct n.
    + intros n msg _. cbn [String.length Nat.sub].
      rewrite Nat.Div0.div_0_l. lia.
  - assert (Hb1 : (1 <= String.length (limited.buf b))%nat).
    { destruct (limited.buf b); [done | cbn; lia]. }
    assert (Hq : ((String.length T - 1) / limited.size b = k)%nat).
    { rewrite Hlen.
      replace (limited.size b * k + String.length (limited.buf b) - 1)%nat
        with (limited.size b * k + String.length (limited.buf b) - 1)%nat by done.
      apply whole_buffers. lia. }
    destruct (write_limit (limited.wr b)) as [[n msg]|] eqn:Hl.
    + assert (Hc : (String.length c <= n)%nat) by (by eapply Hlim).
      destruct (decide (String.length c + String.length (limited.buf b) <= n)%nat)
        as [Hfit|Hshort].
      * eexists. split.
        -- erewrite Flush_fits; [|done | done |].
           ++ unfold kept. rewrite slice_to_all by lia. by rewrite HT.
           ++ rewrite Hl. by intros ? ? [= <- <-].
        -- intros ? ? [= <- <-]. rewrite Hq. lia.
      * eexists. split.
        -- erewrite Flush_short; [|done | exact Hl | lia].
           unfold kept. by rewrite HT.
        -- intros ? ? [= <- <-]. rewrite Hq. lia.
    + eexists. split; [|done].
      erewrite Flush_fits; [|done | done |].
      * unfold kept. by rewrite HT.
      * rewrite Hl. by intros ? ? [=].
Qed.

End writes.

(** The IPv4 writer whose writes succeed, on an input that is decomposed. *)
Lemma writePrefixesToFileV4_run l path w out :
  l ≠ [] -> create_error w path = None -> normalizeV4 l = Done out ->
  writePrefixesToFileV4 l path w
  = (Done None,
     (log INFO "wrote IPv4 /24 prefixes to file"
        (set_files (insert path (linesText out)) w)).2).
Proof.
  intros Hl Hc Hn. unfold writePrefixesToFileV4.
  destruct (decide (length l = 0%nat)) as [H0|_]; [by destruct l |].
  go. rewrite Hc, Hn.
  pose proof (writeLines_spec out path "" w) as Hw.
  unfold set_files in Hw. cbn [files logs commands replies open_error
    create_error command_error] in Hw.
  go. rewrite Hw. go. reflexivity.
Qed.

(** X9. [writePrefixesToFileV4] when the file system limits the size of its
    file.  On an empty input nothing is written; when the file cannot be
    created the error is returned and nothing has changed; when a
    decomposition panics the file is left empty.  Otherwise the file holds
    the lines of the normalized blocks as far as the limit allows, and
    nothing else.  The writer returns the error "writing to file" exactly
    when the limit lies before the last buffer of 4096 bytes of the text: a
    write that fails in the last buffer fails in the deferred [Flush], whose
    error is dropped, so that the writer logs success and returns nil over a
    file that is cut short.  No other file changes, and with no limit on the
    file the run is that of the writer whose writes succeed. *)
Theorem writePrefixesToFileV4_outcomes :
  forall write_limit prefixes outputFile w, exists r w',
    limited.writePrefixesToFileV4 write_limit prefixes outputFile w = (r, w') /\
    (forall other, other ≠ outputFile -> files w' !! other = files w !! other) /\
    (write_limit outputFile = None ->
     writePrefixesToFileV4 prefixes outputFile w = (r, w')) /\
    match prefixes, create_error w outputFile, normalizeV4 prefixes with
    | [], _, _ => r = Done None /\ files w' = files w
    | _ :: _, Some err, _ =>
        r = Done (Some ("creating output file: " +:+ err)) /\ w' = w
    | _ :: _, None, Panic msg => r = Panic msg /\ files w' !! outputFile = Some ""
    | _ :: _, None, Done out =>
        files w' !! outputFile
        = Some (kept (write_limit outputFile) (linesText out)) /\
        match write_limit outputFile with
        | Some (n, msg) =>
            if decide (n < limited.defaultBufSize *
                           ((String.length (linesText out) - 1) /
                            limited.defaultBufSize))%nat
            then r = Done (Some ("writing to file: " +:+ msg)) /\ logs w' = logs w
            else r = Done None /\
                 logs w' = logs w ++ [(INFO, "wrote IPv4 /24 prefixes to file")]
        | None =>
            r = Done None /\
            logs w' = logs w ++ [(INFO, "wrote IPv4 /24 prefixes to file")]
        end
    end.
Proof.
  intros write_limit l path w. destruct l as [|p l].
  { eexists _, _. split; [reflexivity |]. split; [done |]. split; [done |]. done. }
  destruct (create_error w path) as [err|] eqn:Hc.
  { exists (Done (Some ("creating output file: " +:+ err))), w.
    assert (Hrun : limited.writePrefixesToFileV4 write_limit (p :: l) path w
                   = (Done (Some ("creating output file: " +:+ err)), w)).
    { unfold limited.writePrefixesToFileV4. cbn [length decide].
      destruct (decide _) as [?|_]; [done |]. go. by rewrite Hc. }
    split; [exact Hrun |]. split; [done |]. split; [|done].
    intros _. by apply writePrefixesToFileV4_create_fails. }
  assert (Hstart : forall B (k : error -> Go B),
            (os_Create path ≫= k) w = k None (set_files (insert path "") w)).
  { intros B k. apply bind_Done. unfold os_Create. by rewrite Hc. }
  destruct (normalizeV4 (p :: l)) as [out|msg] eqn:Hn.
  2:{ assert (Hrun : limited.writePrefixesToFileV4 write_limit (p :: l) path w
                     = (Panic msg, set_files (insert path "") w)).
      { unfold limited.writePrefixesToFileV4.
        destruct (decide _) as [?|_]; [done |]. rewrite Hstart, Hn. reflexivity. }
      eexists _, _. split; [exact Hrun |]. split.
      { intros other Hne. cbn [set_files files]. by apply lookup_insert_ne. }
      split.
      - intros _. destruct (writePrefixesToFileV4_Panic (p :: l) path w msg Hc Hn)
          as (w' & Hw & Hf & _).
        rewrite Hw. f_equal. unfold writePrefixesToFileV4 in Hw.
        destruct (decide _) as [?|_]; [done |]. rewrite Hstart, Hn in Hw.
        by injection Hw as <-.
      - split; [done |]. cbn [set_files files]. apply lookup_insert_eq. }
  (* the lines are written *)
  assert (Hstartb : buffering (write_limit path) (limited.NewWriter path) "" "").
  { split; [done |]. split; [done |]. split; [cbn; lia |].
    split; [by exists 0%nat; cbn; lia |]. split; [done |]. intros; cbn; lia. }
  assert (Hlines : Forall (fun q => (1 <= String.length (PrefixString q +:+ String newline "")
                                     <= limited.defaultBufSize)%nat) out).
  { eapply Forall_impl; [exact (normalizeV4_Bits _ _ Hn) |].
    intros q Hq. apply line_length. cbn beta in Hq. lia. }
  destruct (writeLines_limited write_limit out (limited.NewWriter path) "" "" w
              Hstartb Hlines)
    as (b & c & e & Hrun & Hwr & Hsz & Hcase).
  cbn [limited.NewWriter limited.wr limited.size] in Hrun, Hwr, Hsz, Hcase.
  change ("" +:+ linesText out) with (linesText out) in Hcase.
  assert (Hgo : limited.writePrefixesToFileV4 write_limit (p :: l) path w
                = match e with
                  | Some err => (limited.Flush write_limit b;; mret (Some err))
                                  (set_files (insert path c) w)
                  | None =>
                      (log INFO "wrote IPv4 /24 prefixes to file";;
                       limited.Flush write_limit b;; mret None)
                        (set_files (insert path c) w)
                  end).
  { unfold limited.writePrefixesToFileV4.
    destruct (decide _) as [?|_]; [done |]. rewrite Hstart, Hn.
    erewrite bind_Done; [|reflexivity]. rewrite (bind_Done _ _ _ _ _ Hrun).
    by destruct e. }
  rewrite Hgo. rewrite (writePrefixesToFileV4_run (p :: l) path w out ltac:(done) Hc Hn).
  destruct e as [text|].
  - destruct Hcase as (n & msg & -> & Hl & Herr & Hcont & Hn').
    rewrite (bind_Done _ _ _ _ _ (Flush_failed write_limit b _ msg Herr)).
    eexists _, _. split; [reflexivity |]. split.
    { intros other Hne. cbn [set_files files]. by apply lookup_insert_ne. }
    split; [by rewrite Hl |].
    rewrite Hl. cbn [set_files files logs kept]. rewrite lookup_insert_eq.
    split; [by rewrite Hcont |].
    rewrite Hsz in Hn'. destruct (decide _) as [_|Hno]; [done | by destruct Hno].
  - rewrite (bind_Done _ _ _ _ _ (log_Done _ _ _)).
    set (w1 := (log INFO "wrote IPv4 /24 prefixes to file" w).2).
    change ((log INFO "wrote IPv4 /24 prefixes to file"
               (set_files (insert path c) w)).2)
      with (set_files (insert path c) w1).
    change ((log INFO "wrote IPv4 /24 prefixes to file"
               (set_files (insert path (linesText out)) w)).2)
      with (set_files (insert path (linesText out)) w1).
    rewrite <- Hwr in Hcase.
    destruct (Flush_last write_limit b c _ w1 Hcase ltac:(rewrite Hsz; unfold limited.defaultBufSize; lia))
      as (r & Hflush & Hbeyond).
    rewrite Hwr in Hflush, Hbeyond.
    rewrite (bind_Done _ _ _ _ _ Hflush).
    eexists _, _. split; [reflexivity |]. split.
    { intros other Hne. cbn [set_files files w1 log snd]. by apply lookup_insert_ne. }
    split; [by intros ->|].
    cbn [set_files files logs w1 log snd]. rewrite lookup_insert_eq.
    split; [done |].
    destruct (write_limit path) as [[n msg]|]; [|done].
    rewrite Hsz in Hbeyond.
    destruct (decide _) as [Hlt|_]; [|done]. by destruct (Hbeyond n msg eq_refl).
Qed.

Lemma writePrefixesToFileV4_outcomes_witness :
  ipv6File ≠ outputFileV4 /\
  exists r w',
    limited.writePrefixesToFileV4 (limit_at 10) [v4_doc_23] outputFileV4 quiet
    = (r, w') /\
    r = Done None /\
    files w' !! outputFileV4 = Some "198.51.100" /\
    files w' !! ipv6File = None /\
    logs w' = [(INFO, "wrote IPv4 /24 prefixes to file")].
Proof.
  assert (H1 : ipv6File ≠ outputFileV4) by discriminate.
  split; [exact H1 |].
  destruct (writePrefixesToFileV4_outcomes (limit_at 10) [v4_doc_23] outputFileV4 quiet)
    as (r & w' & Hrun & Hother & _ & Hcase).
  assert (Hn : normalizeV4 [v4_doc_23]
               = Done [mkPrefix (ip4 198 51 100 0) 24; mkPrefix (ip4 198 51 101 0) 24])
    by (vm_compute; reflexivity).
  cbn [create_error quiet] in Hcase. rewrite Hn in Hcase.
  change (limit_at 10 outputFileV4) with (Some (10%nat, "file too large")) in Hcase.
  destruct Hcase as [Hfile Hr].
  destruct (decide _) as [Hlt|_] in Hr.
  { vm_compute in Hlt. lia. }
  destruct Hr as [Hr Hlog].
  exists r, w'. split; [exact Hrun |]. split; [exact Hr |].
  split; [rewrite Hfile; vm_compute; reflexivity |].
  split; [exact (Hother ipv6File H1) | exact Hlog].
Defined.

(** The two ways a write can fail, on a text of 4242 bytes: a limit in the
    first buffer is reported, a limit in the last is not. *)
Example failed_write_reported :
  exists w',
    limited.writePrefixesToFileV4 (limit_at 3000) [v4_wide] outputFileV4 quiet
    = (Done (Some "writing to file: file too large"), w') /\
    String.length <$> files w' !! outputFileV4 = Some 3000%nat /\ logs w' = [].
Proof. eexists. vm_compute. done. Qed.

Example failed_flush_dropped :
  exists w',
    limited.writePrefixesToFileV4 (limit_at 4200) [v4_wide] outputFileV4 quiet
    = (Done None, w') /\
    String.length <$> files w' !! outputFileV4 = Some 4200%nat /\
    logs w' = [(INFO, "wrote IPv4 /24 prefixes to file")].
Proof. eexists. vm_compute. done. Qed.

(** ** The IPv6 writer when a write can fail *)

Lemma writePrefixesToFileV6_run l path w :
  l ≠ [] -> create_error w path = None ->
  writePrefixesToFileV6 l path w
  = (Done None,
     (log INFO "wrote IPv6 prefixes to file"
        (set_files (insert path (linesText (normalizeV6 l))) w)).2).
Proof.
  intros Hl Hc. unfold writePrefixesToFileV6.
  destruct (decide (length l = 0%nat)) as [H0|_]; [by destruct l |].
  go. rewrite Hc.
  pose proof (writeLines_spec (normalizeV6 l) path "" w) as Hw.
  unfold set_files in Hw. cbn [files logs commands replies open_error
    create_error command_error] in Hw.
  go. rewrite Hw. go. reflexivity.
Qed.

(** X18. [writePrefixesToFileV6] when the file system limits the size of its
    file, for prefixes whose length is below 256, as the type of a prefix
    has it.  The writer never panics.  On an empty input nothing is written;
    when the file cannot be created the error is returned and nothing has
    changed.  Otherwise the file holds the lines of the given prefixes in
    ascending order, repeated ones included, as far as the limit allows.  The
    writer returns the error "writing to file" exactly when the limit lies
    before the last buffer of 4096 bytes of the text; a write that fails in
    the deferred [Flush] is not reported, and the writer logs success over a
    file that is cut short.  No other file changes, and with no limit on the
    file the run is that of the writer whose writes succeed. *)
Theorem writePrefixesToFileV6_outcomes :
  forall write_limit prefixes outputFile w,
    Forall (fun p => Bits p < 256) prefixes ->
    exists r w',
      limited.writePrefixesToFileV6 write_limit prefixes outputFile w = (Done r, w') /\
      (forall other, other ≠ outputFile -> files w' !! other = files w !! other) /\
      (write_limit outputFile = None ->
       writePrefixesToFileV6 prefixes outputFile w = (Done r, w')) /\
      match prefixes, create_error w outputFile with
      | [], _ => r = None /\ files w' = files w
      | _ :: _, Some err => r = Some ("creating output file: " +:+ err) /\ w' = w
      | _ :: _, None =>
          files w' !! outputFile
          = Some (kept (write_limit outputFile) (linesText (normalizeV6 prefixes))) /\
          match write_limit outputFile with
          | Some (n, msg) =>
              if decide (n < limited.defaultBufSize *
                             ((String.length (linesText (normalizeV6 prefixes)) - 1) /
                              limited.defaultBufSize))%nat
              then r = Some ("writing to file: " +:+ msg) /\ logs w' = logs w
              else r = None /\
                   logs w' = logs w ++ [(INFO, "wrote IPv6 prefixes to file")]
          | None =>
              r = None /\ logs w' = logs w ++ [(INFO, "wrote IPv6 prefixes to file")]
          end
      end.
Proof.
  intros write_limit l path w Hbits. destruct l as [|p l].
  { eexists _, _. split; [reflexivity |]. split; [done |]. split; [done |]. done. }
  destruct (create_error w path) as [err|] eqn:Hc.
  { exists (Some ("creating output file: " +:+ err)), w.
    assert (Hrun : limited.writePrefixesToFileV6 write_limit (p :: l) path w
                   = (Done (Some ("creating output file: " +:+ err)), w)).
    { unfold limited.writePrefixesToFileV6.
      destruct (decide _) as [?|_]; [done |]. go. by rewrite Hc. }
    split; [exact Hrun |]. split; [done |]. split; [|done].
    intros _. by apply writePrefixesToFileV6_create_fails. }
  assert (Hstart : forall B (k : error -> Go B),
            (os_Create path ≫= k) w = k None (set_files (insert path "") w)).
  { intros B k. apply bind_Done. unfold os_Create. by rewrite Hc. }
  set (out := normalizeV6 (p :: l)).
  assert (Hstartb : buffering (write_limit path) (limited.NewWriter path) "" "").
  { split; [done |]. split; [done |]. split; [cbn; lia |].
    split; [by exists 0%nat; cbn; lia |]. split; [done |]. intros; cbn; lia. }
  assert (Hlines : Forall (fun q => (1 <= String.length (PrefixString q +:+ String newline "")
                                     <= limited.defaultBufSize)%nat) out).
  { apply Forall_forall. intros q Hq. apply line_length.
    unfold out, normalizeV6 in Hq. rewrite SortFunc_Permutation in Hq.
    by apply (proj1 (Forall_forall _ _) Hbits). }
  destruct (writeLines_limited write_limit out (limited.NewWriter path) "" "" w
              Hstartb Hlines)
    as (b & c & e & Hrun & Hwr & Hsz & Hcase).
  cbn [limited.NewWriter limited.wr limited.size] in Hrun, Hwr, Hsz, Hcase.
  change ("" +:+ linesText out) with (linesText out) in Hcase.
  assert (Hgo : limited.writePrefixesToFileV6 write_limit (p :: l) path w
                = match e with
                  | Some err => (limited.Flush write_limit b;; mret (Some err))
                                  (set_files (insert path c) w)
                  | None =>
                      (log INFO "wrote IPv6 prefixes to file";;
                       limited.Flush write_limit b;; mret None)
                        (set_files (insert path c) w)
                  end).
  { unfold limited.writePrefixesToFileV6.
    destruct (decide _) as [?|_]; [done |]. rewrite Hstart.
    cbv zeta. fold out. rewrite (bind_Done _ _ _ _ _ Hrun).
    by destruct e. }
  rewrite Hgo. rewrite (writePrefixesToFileV6_run (p :: l) path w ltac:(done) Hc).
  fold out.
  destruct e as [text|].
  - destruct Hcase as (n & msg & -> & Hl & Herr & Hcont & Hn').
    rewrite (bind_Done _ _ _ _ _ (Flush_failed write_limit b _ msg Herr)).
    eexists _, _. split; [reflexivity |]. split.
    { intros other Hne. cbn [set_files files]. by apply lookup_insert_ne. }
    split; [by rewrite Hl |].
    rewrite Hl. cbn [set_files files logs kept]. rewrite lookup_insert_eq.
    split; [by rewrite Hcont |].
    rewrite Hsz in Hn'. destruct (decide _) as [_|Hno]; [done | by destruct Hno].
  - rewrite (bind_Done _ _ _ _ _ (log_Done _ _ _)).
    set (w1 := (log INFO "wrote IPv6 prefixes to file" w).2).
    change ((log INFO "wrote IPv6 prefixes to file"
               (set_files (insert path c) w)).2)
      with (set_files (insert path c) w1).
    change ((log INFO "wrote IPv6 prefixes to file"
               (set_files (insert path (linesText out)) w)).2)
      with (set_files (insert path (linesText out)) w1).
    rewrite <- Hwr in Hcase.
    destruct (Flush_last write_limit b c _ w1 Hcase
                ltac:(rewrite Hsz; unfold limited.defaultBufSize; lia))
      as (r & Hflush & Hbeyond).
    rewrite Hwr in Hflush, Hbeyond.
    rewrite (bind_Done _ _ _ _ _ Hflush).
    eexists _, _. split; [reflexivity |]. split.
    { intros other Hne. cbn [set_files files w1 log snd]. by apply lookup_insert_ne. }
    split; [by intros ->|].
    cbn [set_files files logs w1 log snd]. rewrite lookup_insert_eq.
    split; [done |].
    destruct (write_limit path) as [[n msg]|]; [|done].
    rewrite Hsz in Hbeyond.
    destruct (decide _) as [Hlt|_]; [|done]. by destruct (Hbeyond n msg eq_refl).
Qed.

Lemma writePrefixesToFileV6_outcomes_witness :
  Forall (fun p => Bits p < 256) [v6_doc_48; v6_doc_32] /\
  exists r w',
    limited.writePrefixesToFileV6 (limit_at 18) [v6_doc_48; v6_doc_32] outputFileV6 quiet
    = (Done r, w') /\
    r = None /\
    files w' !! outputFileV6 = Some ("2001:db8::/32" +:+ nl +:+ "2001") /\
    logs w' = [(INFO, "wrote IPv6 prefixes to file")].
Proof.
  assert (H1 : Forall (fun p => Bits p < 256) [v6_doc_48; v6_doc_32]).
  { repeat constructor. }
  split; [exact H1 |].
  destruct (writePrefixesToFileV6_outcomes (limit_at 18) [v6_doc_48; v6_doc_32]
              outputFileV6 quiet H1)
    as (r & w' & Hrun & _ & _ & Hcase).
  cbn [create_error quiet] in Hcase.
  change (limit_at 18 outputFileV6) with (Some (18%nat, "file too large")) in Hcase.
  destruct Hcase as [Hfile Hr].
  destruct (decide _) as [Hlt|_] in Hr.
  { vm_compute in Hlt. lia. }
  destruct Hr as [Hr Hlog].
  exists r, w'. split; [exact Hrun |]. split; [exact Hr |].
  split; [rewrite Hfile; vm_compute; reflexivity | exact Hlog].
Defined.

(** ** The setup when the write of the ruleset can fail *)

Section limited_setup.
Context `{Library}.
Variable write_limit : string -> option (nat * string).

Lemma WriteString_insert path c s w :
  WriteString path s (set_files (insert path c) w)
  = (Done (), set_files (insert path (c +:+ s)) w).
Proof.
  unfold WriteString, set_files.
  cbn [files logs commands replies open_error create_error command_error].
  by rewrite alter_insert_eq.
Qed.

Lemma os_Create_ok path w :
  create_error w path = None ->
  os_Create path w = (Done None, set_files (insert path "") w).
Proof. intros Hc. unfold os_Create. by rewrite Hc. Qed.

Lemma os_Create_fails path w err :
  create_error w path = Some err -> os_Create path w = (Done (Some err), w).
Proof. intros Hc. unfold os_Create. by rewrite Hc. Qed.

(** Where the document fits, or is not written at all, the function does
    what it does when writes succeed. *)
Lemma limited_initializeNftablesConf_same sshdPort w :
  let v4 := readSet ipv4File w in
  let v6 := readSet ipv6File w in
  (v4 = [] /\ v6 = []) \/ is_Some (create_error w nftablesConf) \/
  (forall n msg, write_limit nftablesConf = Some (n, msg) ->
     (String.length (renderNftablesTemplate sshdPort v4 v6).1 <= n)%nat) ->
  limited.initializeNftablesConf write_limit sshdPort w
  = initializeNftablesConf sshdPort w.
Proof.
  intros v4 v6 Hcase.
  unfold limited.initializeNftablesConf, initializeNftablesConf.
  set (w0 := (log INFO "initializing nftables configuration" w).2).
  assert (H0 : only_logged w w0) by apply log_only_logged.
  rewrite !(bind_Done _ _ _ _ _ (log_Done _ _ _)). fold w0.
  destruct (read_or_empty ipv4File w0) as (w1 & H1 & Hr1). rewrite !Hr1.
  destruct (read_or_empty ipv6File w1) as (w2 & H2 & Hr2). rewrite !Hr2.
  assert (H01 : only_logged w w1) by (by eapply only_logged_trans).
  assert (H02 : only_logged w w2) by (by eapply only_logged_trans).
  rewrite !(readSet_only_logged _ _ _ H0).
  rewrite !(readSet_only_logged _ _ _ H01).
  fold v4 v6.
  destruct H02 as (Hf & Hc & _ & (_ & Hcr & _) & Hl).
  destruct (decide (length v4 = 0%nat ∧ length v6 = 0%nat)) as [[E4 E6]|Hne];
    [done |].
  cbn [renderNftablesTemplate].
  destruct (create_error w nftablesConf) as [err|] eqn:Hce.
  { rewrite <- Hcr in Hce. by rewrite !(bind_Done _ _ _ _ _ (os_Create_fails _ _ _ Hce)). }
  rewrite <- Hcr in Hce. rewrite !(bind_Done _ _ _ _ _ (os_Create_ok _ _ Hce)).
  destruct Hcase as [[E4 E6]|[[? [=]]|Hfit]].
  { destruct Hne. by rewrite E4, E6. }
  erewrite (bind_Done (limited.file_Write _ _ _)); last first.
  { apply file_Write_fits. intros n msg Hl'. cbn [String.length Nat.add].
    specialize (Hfit n msg Hl'). cbn [renderNftablesTemplate fst] in Hfit. exact Hfit. }
  by rewrite (bind_Done _ _ _ _ _ (WriteString_insert _ _ _ _)).
Qed.

(** Where the document does not fit, the file keeps its first bytes and the
    error of the write is returned. *)
Lemma limited_initializeNftablesConf_short sshdPort w n msg :
  let v4 := readSet ipv4File w in
  let v6 := readSet ipv6File w in
  ~ (v4 = [] /\ v6 = []) -> create_error w nftablesConf = None ->
  write_limit nftablesConf = Some (n, msg) ->
  (n < String.length (renderNftablesTemplate sshdPort v4 v6).1)%nat ->
  exists w',
    limited.initializeNftablesConf write_limit sshdPort w
    = (Done (Some ("failed writing nftables.conf: " +:+ msg)), w') /\
    files w' = <[nftablesConf := slice_to n (renderNftablesTemplate sshdPort v4 v6).1]>
                 (files w) /\
    commands w' = commands w.
Proof.
  intros v4 v6 Hsets Hce Hlim Hn.
  unfold limited.initializeNftablesConf.
  set (w0 := (log INFO "initializing nftables configuration" w).2).
  assert (H0 : only_logged w w0) by apply log_only_logged.
  rewrite !(bind_Done _ _ _ _ _ (log_Done _ _ _)). fold w0.
  destruct (read_or_empty ipv4File w0) as (w1 & H1 & Hr1). rewrite !Hr1.
  destruct (read_or_empty ipv6File w1) as (w2 & H2 & Hr2). rewrite !Hr2.
  assert (H01 : only_logged w w1) by (by eapply only_logged_trans).
  assert (H02 : only_logged w w2) by (by eapply only_logged_trans).
  rewrite !(readSet_only_logged _ _ _ H0).
  rewrite !(readSet_only_logged _ _ _ H01).
  fold v4 v6.
  destruct H02 as (Hf & Hc & _ & (_ & Hcr & _) & Hl).
  destruct (decide (length v4 = 0%nat ∧ length v6 = 0%nat)) as [[E4 E6]|Hne].
  { apply length_zero_iff_nil in E4, E6. by destruct Hsets. }
  cbn [renderNftablesTemplate].
  rewrite <- Hcr in Hce. rewrite (bind_Done _ _ _ _ _ (os_Create_ok _ _ Hce)).
  erewrite (bind_Done (limited.file_Write _ _ _)); last first.
  { apply (file_Write_short write_limit _ _ "" w2 n msg Hlim).
    change (0 <= n < String.length (renderNftablesTemplate sshdPort v4 v6).1)%nat.
    lia. }
  eexists. split; [reflexivity |].
  cbn [set_files files commands fst]. by rewrite Hf, Hc.
Qed.

(** The port discovery of [startSetupNftables], before a continuation. *)
Lemma discovery_then w :
  exists w2,
    only_logged w w2 /\
    forall B (k : Z -> Go B),
      (r ← findSSHPort;
       sshdPort ← match r with
                  | (_, Some _) =>
                      log WARN ("couldn't find port from sshd configuration file, using default "
                                +:+ pretty defaultSSHPort);;
                      mret defaultSSHPort
                  | (port, None) => mret port
                  end;
       k sshdPort) w = k (discoveredPort w) w2.
Proof.
  destruct (findSSHPort_spec w) as ([p [e|]] & w1 & Hfind & H1 & Hport & _);
    cbn [chosenPort] in Hport.
  - exists (log WARN ("couldn't find port from sshd configuration file, using default "
                      +:+ pretty defaultSSHPort) w1).2.
    split; [eapply only_logged_trans; [exact H1 | apply log_only_logged] |].
    intros B k. rewrite (bind_Done _ _ _ _ _ Hfind), <- Hport. reflexivity.
  - exists w1. split; [exact H1 |].
    intros B k. rewrite (bind_Done _ _ _ _ _ Hfind), <- Hport. reflexivity.
Qed.

(** X19. [startSetupNftables] when the file system limits the size of the
    ruleset file.  When the rendered document does not fit,
    [initializeNftablesConf] returns the error of the write, the setup
    returns it wrapped, the file is left with the first bytes of the
    document, and no command is run: a ruleset that is cut short is never
    loaded.  When the document fits, or the setup stops before it is
    written, the run is that of the setup whose writes succeed. *)
Theorem cut_ruleset_is_not_loaded :
  forall w,
    let v4 := readSet ipv4File w in
    let v6 := readSet ipv6File w in
    let document := (renderNftablesTemplate (discoveredPort w) v4 v6).1 in
    (forall n msg,
       ~ (v4 = [] /\ v6 = []) -> create_error w nftablesConf = None ->
       write_limit nftablesConf = Some (n, msg) ->
       (n < String.length document)%nat ->
       exists w',
         limited.startSetupNftables write_limit w
         = (Done (Some ("failed to initialize nftables configuration: " +:+
                        ("failed writing nftables.conf: " +:+ msg))), w') /\
         files w' = <[nftablesConf := slice_to n document]> (files w) /\
         commandsRun w w' = []) /\
    ((v4 = [] /\ v6 = []) \/ is_Some (create_error w nftablesConf) \/
     (forall n msg, write_limit nftablesConf = Some (n, msg) ->
                    (String.length document <= n)%nat) ->
     limited.startSetupNftables write_limit w = startSetupNftables w).
Proof.
  intros w v4 v6 document.
  destruct (discovery_then w) as (w2 & H2 & Hthen).
  pose proof H2 as (Hf & Hc & _ & (_ & Hcr & _) & _).
  split.
  - intros n msg Hsets Hce Hlim Hn.
    unfold limited.startSetupNftables. rewrite Hthen.
    destruct (limited_initializeNftablesConf_short (discoveredPort w) w2 n msg)
      as (w' & Hinit & Hf' & Hc').
    { by rewrite !(readSet_only_logged _ _ _ H2). }
    { by rewrite Hcr. }
    { exact Hlim. }
    { by rewrite !(readSet_only_logged _ _ _ H2). }
    rewrite (bind_Done _ _ _ _ _ Hinit).
    exists w'. split; [reflexivity |].
    rewrite !(readSet_only_logged _ _ _ H2) in Hf'.
    split; [by rewrite Hf', Hf |].
    apply commandsRun_same. by rewrite Hc', Hc.
  - intros Hcase. unfold limited.startSetupNftables, startSetupNftables.
    rewrite !Hthen.
    assert (Heq : limited.initializeNftablesConf write_limit (discoveredPort w) w2
                  = initializeNftablesConf (discoveredPort w) w2).
    { apply limited_initializeNftablesConf_same.
      rewrite !(readSet_only_logged _ _ _ H2), Hcr. exact Hcase. }
    unfold mbind at 1 4, Go_bind. by rewrite Heq.
Qed.

End limited_setup.

Lemma cut_ruleset_is_not_loaded_witness :
  (~ (@readSet ascii_library ipv4File configured = [] /\
      @readSet ascii_library ipv6File configured = []) /\
   create_error configured nftablesConf = None /\
   limit_at 40 nftablesConf = Some (40%nat, "file too large") /\
   (40 < String.length
           (renderNftablesTemplate (discoveredPort configured)
              (@readSet ascii_library ipv4File configured)
              (@readSet ascii_library ipv6File configured)).1)%nat) /\
  exists w',
    @limited.startSetupNftables (limit_at 40) ascii_library configured
    = (Done (Some ("failed to initialize nftables configuration: " +:+
                   ("failed writing nftables.conf: " +:+ "file too large"))), w') /\
    files w' !! nftablesConf
    = Some ("#!/usr/sbin/nft -f" +:+ nl +:+ nl +:+ "flush ruleset" +:+ nl +:+ nl +:+
            "table") /\
    commandsRun configured w' = [].
Proof.
  assert (H1 : ~ (@readSet ascii_library ipv4File configured = [] /\
                  @readSet ascii_library ipv6File configured = [])).
  { assert (E : @readSet ascii_library ipv4File configured
                = [mkPrefix (ip4 198 51 100 0) 24]) by (vm_compute; reflexivity).
    rewrite E. intros [Hnil _]. discriminate Hnil. }
  assert (H2 : create_error configured nftablesConf = None) by reflexivity.
  assert (H3 : limit_at 40 nftablesConf = Some (40%nat, "file too large"))
    by reflexivity.
  assert (H4 : (40 < String.length
                       (renderNftablesTemplate (discoveredPort configured)
                          (@readSet ascii_library ipv4File configured)
                          (@readSet ascii_library ipv6File configured)).1)%nat).
  { apply Nat.ltb_lt. vm_compute. reflexivity. }
  split; [exact (conj H1 (conj H2 (conj H3 H4))) |].
  destruct (proj1 (@cut_ruleset_is_not_loaded ascii_library (limit_at 40) configured)
              40%nat "file too large" H1 H2 H3 H4)
    as (w' & Hrun & Hfile & Hcmd).
  exists w'. split; [exact Hrun |]. split; [|exact Hcmd].
  rewrite Hfile, lookup_insert_eq. vm_compute. reflexivity.
Defined.
